(** * Game store back end: the request handlers of server.js over the schema

    A shallow embedding of the Express handlers of [server.js] and of the
    relational schema they run against (tables, foreign keys, the seed rows
    and the inventory trigger).  Every handler is a function from the
    server state to a reply and a new server state; the store is a record
    of tables, and each SQL statement of the source is a function on it. *)

From Stdlib Require Import Ascii ZArith Lia.
From stdpp Require Import gmap strings list sorting.

Local Open Scope string_scope.
Local Open Scope list_scope.
Local Open Scope Z_scope.

(** ** JavaScript values of the request bodies

    A field of [req.body] is [None] when it is absent ([undefined]).  The
    handlers test fields with [!x]: a number is falsy when it is [0], a
    string when it is empty, and an array is never falsy, also when it is
    empty. *)

Definition truthy_num (x : option Z) : bool :=
  match x with Some n => negb (n =? 0) | None => false end.

Definition truthy_str (x : option string) : bool :=
  match x with Some s => negb (String.eqb s "") | None => false end.

Definition truthy_arr {A} (x : option (list A)) : bool :=
  match x with Some _ => true | None => false end.

(** [String.prototype.toLowerCase], on the ASCII letters. *)
Definition lower_ascii (c : ascii) : ascii :=
  let n := nat_of_ascii c in
  if (Nat.leb 65 n && Nat.leb n 90)%bool then ascii_of_nat (n + 32) else c.

Fixpoint toLowerCase (s : string) : string :=
  match s with
  | EmptyString => EmptyString
  | String c r => String (lower_ascii c) (toLowerCase r)
  end.

(** ** The schema: rows and tables *)

Record User := {
  user_id : Z;
  username : string;
  email : string;
  password : string;
  role_id : Z
}.

(** A row of [games], with the columns [create table games] declares;
    its [game_id] is the key it is stored under. [price] is a
    [decimal(10,2)], held as its number of hundredths. The table has no
    [image] column, though the statements of server.js name one. *)
Record Game := {
  title : string;
  description : string;
  price : Z;
  genre : string;
  platform : string
}.

Record Order := {
  order_id : Z;
  o_user_id : option Z;
  order_date : Z;
  total_amount : Z;
  o_status_id : Z
}.

Record OrderItem := {
  order_item_id : Z;
  oi_order_id : Z;
  oi_game_id : Z;
  quantity : Z;
  oi_price : Z
}.

Record Payment := {
  payment_id : Z;
  p_order_id : Z;
  payment_date : Z;
  p_status_id : Z;
  p_method_id : Z
}.

(** The tables the handlers write.  [games] and [inventory] are keyed by
    their primary key [game_id]; the other tables are the rows in
    insertion order, each carrying its identity column. *)
Record Tables := {
  users : list User;
  games : gmap Z Game;
  orders : list Order;
  order_items : list OrderItem;
  payments : list Payment;
  inventory : gmap Z Z
}.

(** The seed rows of the lookup tables (end of the schema script). *)
Definition user_roles : list (Z * string) := [(1, "customer"); (2, "admin")].
Definition order_status : list (Z * string) :=
  [(1, "pending"); (2, "completed"); (3, "cancelled")].
Definition payment_status : list (Z * string) :=
  [(1, "paid"); (2, "failed"); (3, "pending")].
Definition payment_methods : list (Z * string) :=
  [(1, "credit_card"); (2, "bank_transfer")].

Definition seeded (tbl : list (Z * string)) (k : Z) : bool :=
  bool_decide (k ∈ tbl.*1).

Definition status_name (tbl : list (Z * string)) (k : Z) : option string :=
  (λ r, r.2.2) <$> list_find (λ r, r.1 = k) tbl.

(** The [identity(1,1)] counters.  They belong to the store, not to a
    transaction: a rollback does not give a value back. *)
Record Idents := {
  next_user_id : Z;
  next_game_id : Z;
  next_order_id : Z;
  next_order_item_id : Z;
  next_payment_id : Z
}.

(** ** SQL statements

    A statement either raises an error (its message) or returns a result
    with the tables and counters it leaves. *)

Inductive SqlResult (A : Type) :=
  | SqlErr (msg : string)
  | SqlOk (a : A) (t : Tables) (i : Idents).
Arguments SqlErr {A} msg.
Arguments SqlOk {A} a t i.

Definition Statement (A : Type) := Tables → Idents → SqlResult A.

Definition fk_error (constraint : string) : string :=
  "The INSERT statement conflicted with the FOREIGN KEY constraint on " +:+ constraint +:+ ".".

(** The [game_id] column of the rows of [games] whose key is in [ids]. *)
Definition game_ids_in (ids : list Z) (gs : gmap Z Game) : list Z :=
  (map_to_list (filter (λ kv, kv.1 ∈ ids) gs)).*1.

(** [SELECT game_id FROM games WHERE game_id IN (<ids joined by ','>)].
    With no id the text is [IN ()], which SQL Server refuses. *)
Definition select_game_ids (ids : list Z) : Statement (list Z) := λ t i,
  match ids with
  | [] => SqlErr "Incorrect syntax near ')'."
  | _ => SqlOk (game_ids_in ids (games t)) t i
  end.

(** [INSERT INTO orders (user_id, total_amount, status_id) VALUES ...;
    SELECT SCOPE_IDENTITY() AS orderId]; [order_date] takes its default,
    the current time. *)
Definition insert_order (now : Z) (uid : option Z) (total status : Z)
  : Statement Z := λ t i,
  if negb (from_option (λ u, bool_decide (u ∈ user_id <$> users t)) true uid)
  then SqlErr (fk_error "orders.user_id")
  else if negb (seeded order_status status)
  then SqlErr (fk_error "orders.status_id")
  else
    let oid := next_order_id i in
    SqlOk oid
      {| users := users t; games := games t;
         orders := orders t ++ [ {| order_id := oid; o_user_id := uid;
                                    order_date := now; total_amount := total;
                                    o_status_id := status |} ];
         order_items := order_items t; payments := payments t;
         inventory := inventory t |}
      {| next_user_id := next_user_id i; next_game_id := next_game_id i;
         next_order_id := oid + 1;
         next_order_item_id := next_order_item_id i;
         next_payment_id := next_payment_id i |}.

(** The body of [trg_update_inventory_after_order] for one inserted row:
    [update inventory set stock_quantity = stock_quantity - i.quantity
     where inventory.game_id = i.game_id]. *)
Definition trg_update_inventory_after_order (gid qty : Z)
  (inv : gmap Z Z) : gmap Z Z :=
  alter (λ stock, stock - qty) gid inv.

(** [INSERT INTO order_items (order_id, game_id, quantity, price) VALUES
    ...], followed by the trigger. *)
Definition insert_order_item (oid gid qty pr : Z) : Statement unit := λ t i,
  if negb (bool_decide (oid ∈ order_id <$> orders t))
  then SqlErr (fk_error "order_items.order_id")
  else if negb (bool_decide (is_Some (games t !! gid)))
  then SqlErr (fk_error "order_items.game_id")
  else
    SqlOk tt
      {| users := users t; games := games t; orders := orders t;
         order_items := order_items t ++
           [ {| order_item_id := next_order_item_id i; oi_order_id := oid;
                oi_game_id := gid; quantity := qty; oi_price := pr |} ];
         payments := payments t;
         inventory := trg_update_inventory_after_order gid qty (inventory t) |}
      {| next_user_id := next_user_id i; next_game_id := next_game_id i;
         next_order_id := next_order_id i;
         next_order_item_id := next_order_item_id i + 1;
         next_payment_id := next_payment_id i |}.

(** [INSERT INTO payments (order_id, status_id, method_id) VALUES ...]. *)
Definition insert_payment (now oid status method : Z) : Statement unit :=
  λ t i,
  if negb (bool_decide (oid ∈ order_id <$> orders t))
  then SqlErr (fk_error "payments.order_id")
  else if negb (seeded payment_status status)
  then SqlErr (fk_error "payments.status_id")
  else if negb (seeded payment_methods method)
  then SqlErr (fk_error "payments.method_id")
  else
    SqlOk tt
      {| users := users t; games := games t; orders := orders t;
         order_items := order_items t;
         payments := payments t ++
           [ {| payment_id := next_payment_id i; p_order_id := oid;
                payment_date := now; p_status_id := status;
                p_method_id := method |} ];
         inventory := inventory t |}
      {| next_user_id := next_user_id i; next_game_id := next_game_id i;
         next_order_id := next_order_id i;
         next_order_item_id := next_order_item_id i;
         next_payment_id := next_payment_id i + 1 |}.

(** ** Replies *)

(** A row of the order report of [GET /api/orders]: the columns of the
    joined select; the columns of a left-joined table are [None] when no
    row matched. *)
Record ReportRow := {
  r_order_id : Z;
  r_order_date : Z;
  r_total_amount : Z;
  r_order_status : option string;
  r_customer_name : option string;
  r_order_item_id : option Z;
  r_game_title : string;
  r_quantity : option Z;
  r_price : option Z
}.

(** The JSON bodies the handlers send. *)
Inductive Body :=
  | JMessage (success : bool) (message : string)
  | JError (error : string)
  | JOrder (success : bool) (orderId : Z)
  | JLogin (success : bool) (userType : string) (userId : Z)
  | JRows (rows : list ReportRow).

Record Response := { status : Z; body : Body }.

(** ** The server state and its environment *)

(** The state of the [sql.Transaction] object of the running handler:
    [TxOpen work] holds the rows as the transaction sees them, which no
    other reader sees before the commit. [TxRolledBack] is the
    transaction that has ended with nothing committed: rolled back, or
    left by a commit or a rollback that failed. *)
Inductive TxState :=
  | TxNew
  | TxOpen (work : Tables)
  | TxCommitted
  | TxRolledBack.

(** The state of the server: the committed rows, which every reader sees;
    the identity counters; the transaction of the handler that runs; the
    [activeRequests] set; and the lines written with [console.error]. *)
Record St := {
  committed : Tables;
  idents : Idents;
  txn : TxState;
  activeRequests : gset string;
  console : list string
}.

Definition set_txn (x : TxState) (s : St) : St :=
  {| committed := committed s; idents := idents s; txn := x;
     activeRequests := activeRequests s; console := console s |}.

Definition set_committed (t : Tables) (s : St) : St :=
  {| committed := t; idents := idents s; txn := txn s;
     activeRequests := activeRequests s; console := console s |}.

Definition set_idents (i : Idents) (s : St) : St :=
  {| committed := committed s; idents := i; txn := txn s;
     activeRequests := activeRequests s; console := console s |}.

Definition set_activeRequests (a : gset string) (s : St) : St :=
  {| committed := committed s; idents := idents s; txn := txn s;
     activeRequests := a; console := console s |}.

Definition set_console (c : list string) (s : St) : St :=
  {| committed := committed s; idents := idents s; txn := txn s;
     activeRequests := activeRequests s; console := c |}.

(** The calls of the source that reach the store, as places where the
    store can fail: the statements, and the three calls that control a
    transaction. *)
Inductive Stmt :=
  | TxBegin
  | TxCommit
  | TxRollback
  | SelectGameIds
  | InsertOrder
  | InsertOrderItem (line : nat)
  | InsertPayment
  | CheckTitle
  | InsertGame
  | DeleteOrderItems
  | DeleteGame
  | SelectOrders
  | SelectUser
  | CheckEmail
  | InsertUser.

(** What a request gets from outside the handler: a failure of the store
    at a call (connection lost, no connection left in the pool, timeout,
    a value the driver refuses), the clock behind [current_timestamp],
    the value [uuidv4()] returns, and the two bcryptjs functions. *)
Record Env := {
  fault : Stmt → option string;
  now : Z;
  uuidv4 : string;
  bcrypt_hash : string → string;
  bcrypt_compare : string → string → bool
}.

(** ** Handlers: state, early return and exceptions *)

Inductive Completion (A : Type) :=
  | Normal (a : A)
  | Return (r : Response)
  | Throw (e : string).
Arguments Normal {A} a.
Arguments Return {A} r.
Arguments Throw {A} e.

Definition Handler (A : Type) := St → Completion A * St.

Definition pure {A} (a : A) : Handler A := λ s, (Normal a, s).

Definition bind {A B} (m : Handler A) (k : A → Handler B) : Handler B := λ s,
  match m s with
  | (Normal a, s') => k a s'
  | (Return r, s') => (Return r, s')
  | (Throw e, s') => (Throw e, s')
  end.

Notation "'let*' x ':=' m 'in' k" := (bind m (λ x, k))
  (at level 10, x name, m at level 100, k at level 200, only parsing).
Notation "m ';;' k" := (bind m (λ _, k))
  (at level 100, k at level 200, right associativity, only parsing).

(** [return res.status(code).json(b)]. *)
Definition res_json {A} (code : Z) (b : Body) : Handler A := λ s,
  (Return {| status := code; body := b |}, s).

Definition throw {A} (e : string) : Handler A := λ s, (Throw e, s).

Definition console_error (line : string) : Handler unit := λ s,
  (Normal tt, set_console (console s ++ [line]) s).

(** [try { body } catch (err) { handler err }]. *)
Definition try_catch {A} (body : Handler A) (handler : string → Handler A)
  : Handler A := λ s,
  match body s with
  | (Throw e, s') => handler e s'
  | r => r
  end.

(** [try { body } finally { fin }]: [fin] runs however [body] completes. *)
Definition try_finally {A} (body : Handler A) (fin : Handler unit)
  : Handler A := λ s,
  match body s with
  | (c, s') =>
      match fin s' with
      | (Normal _, s'') => (c, s'')
      | (Return r, s'') => (Return r, s'')
      | (Throw e, s'') => (Throw e, s'')
      end
  end.

(** The reply the client receives: the response a handler sent, or none
    when the handler ends without sending one. *)
Definition serve (h : Handler unit) (s : St) : option Response * St :=
  match h s with
  | (Return r, s') => (Some r, s')
  | (_, s') => (None, s')
  end.

(** *** The store, as the handlers reach it *)

Definition not_begun : string := "Transaction has not begun. Call begin() first.".

(** [new sql.Transaction(pool)]. *)
Definition new_Transaction : Handler unit := λ s, (Normal tt, set_txn TxNew s).

(** [await transaction.begin()]. When it fails the transaction has not
    begun. *)
Definition tx_begin (env : Env) : Handler unit := λ s,
  match fault env TxBegin with
  | Some msg => (Throw msg, s)
  | None => (Normal tt, set_txn (TxOpen (committed s)) s)
  end.

(** [await transaction.commit()]. On a transaction that is not open it
    throws at once. When the commit fails nothing is committed, and the
    transaction has given its connection back: it is open no more. *)
Definition tx_commit (env : Env) : Handler unit := λ s,
  match txn s with
  | TxOpen work =>
      match fault env TxCommit with
      | Some msg => (Throw msg, set_txn TxRolledBack s)
      | None => (Normal tt, set_txn TxCommitted (set_committed work s))
      end
  | _ => (Throw not_begun, s)
  end.

(** [await transaction.rollback()], with the same two ways to fail. *)
Definition tx_rollback (env : Env) : Handler unit := λ s,
  match txn s with
  | TxOpen _ =>
      match fault env TxRollback with
      | Some msg => (Throw msg, set_txn TxRolledBack s)
      | None => (Normal tt, set_txn TxRolledBack s)
      end
  | _ => (Throw not_begun, s)
  end.

(** A statement sent on a request of the transaction. *)
Definition tx_query {A} (env : Env) (l : Stmt) (q : Statement A)
  : Handler A := λ s,
  match fault env l with
  | Some msg => (Throw msg, s)
  | None =>
      match txn s with
      | TxOpen work =>
          match q work (idents s) with
          | SqlErr msg => (Throw msg, s)
          | SqlOk a work' i' => (Normal a, set_txn (TxOpen work') (set_idents i' s))
          end
      | _ => (Throw not_begun, s)
      end
  end.

(** A statement sent on [pool.request()]: outside any transaction, on the
    committed rows, and committed at once. *)
Definition pool_query {A} (env : Env) (l : Stmt) (q : Statement A)
  : Handler A := λ s,
  match fault env l with
  | Some msg => (Throw msg, s)
  | None =>
      match q (committed s) (idents s) with
      | SqlErr msg => (Throw msg, s)
      | SqlOk a t' i' => (Normal a, set_committed t' (set_idents i' s))
      end
  end.

(** ** POST /api/checkout *)

Record CartItem := { ci_game_id : Z; ci_quantity : Z; ci_price : Z }.

Record CheckoutReq := {
  items : option (list CartItem);
  totalAmount : option Z;
  paymentMethodId : option Z;
  userId : option Z
}.

(** [userId || null]. *)
Definition or_null (x : option Z) : option Z :=
  if truthy_num x then x else None.

(** The one request [tr = transaction.request()] of the handler carries
    every statement of the transaction. Its state is the list of the
    parameter names declared on it so far: [tr.input(name, ...)] on a
    name that is declared already throws. *)
Definition already_declared (name : string) : string :=
  "The parameter name " +:+ name
  +:+ " has already been declared. Parameter names must be unique".

Definition request_input (name : string) (declared : list string)
  : Handler (list string) :=
  if bool_decide (name ∈ declared) then throw (already_declared name)
  else pure (name :: declared).

(** [tr.input(n1, ...).input(n2, ...)...]. *)
Fixpoint request_inputs (names : list string) (declared : list string)
  : Handler (list string) :=
  match names with
  | [] => pure declared
  | name :: rest =>
      let* declared := request_input name declared in
      request_inputs rest declared
  end.

(** [for (let item of items) { await tr.input('order_id_item', ...)
    .input('game_id', ...).input('quantity', ...).input('price', ...)
    .query(INSERT INTO order_items) }], on the request [tr]. *)
Fixpoint insert_items (env : Env) (orderId : Z) (line : nat)
  (its : list CartItem) (tr : list string) : Handler (list string) :=
  match its with
  | [] => pure tr
  | item :: rest =>
      let* tr := request_inputs
                   ["order_id_item"; "game_id"; "quantity"; "price"] tr in
      tx_query env (InsertOrderItem line)
        (insert_order_item orderId (ci_game_id item) (ci_quantity item)
           (ci_price item)) ;;
      insert_items env orderId (S line) rest tr
  end.

(** The [try] block of the handler. *)
Definition checkout_try (env : Env) (its : list CartItem)
  (total method : Z) (uid : option Z) : Handler unit :=
  tx_begin env ;;
  let tr := [] in
  let gameIds := ci_game_id <$> its in
  let* recordset := pool_query env SelectGameIds (select_game_ids gameIds) in
  if negb (length recordset =? length gameIds)%nat
  then
    console_error "Invalid game IDs provided" ;;
    res_json 400 (JMessage false "One or more game IDs are invalid.")
  else
    let* tr := request_inputs ["user_id"; "total"; "order_status_id"] tr in
    let* orderId := tx_query env InsertOrder
                      (insert_order (now env) (or_null uid) total 1) in
    let* tr := insert_items env orderId 0 its tr in
    let* tr := request_inputs
                 ["order_id_payment"; "payment_status_id"; "method_id"] tr in
    tx_query env InsertPayment (insert_payment (now env) orderId 1 method) ;;
    tx_commit env ;;
    res_json 200 (JOrder true orderId).

(** The [catch] block of the handler. *)
Definition checkout_catch (env : Env) (err : string) : Handler unit :=
  tx_rollback env ;;
  console_error ("Checkout error: " +:+ err) ;;
  res_json 500 (JError err).

Definition checkout_handler (env : Env) (req : CheckoutReq) : Handler unit :=
  new_Transaction ;;
  if negb (truthy_arr (items req)) || negb (truthy_num (totalAmount req))
     || negb (truthy_num (paymentMethodId req))
  then
    console_error "Missing required fields" ;;
    res_json 400 (JMessage false "Missing required fields.")
  else
    try_catch
      (checkout_try env (default [] (items req)) (default 0 (totalAmount req))
         (default 0 (paymentMethodId req)) (userId req))
      (checkout_catch env).

Definition checkout (env : Env) (req : CheckoutReq) (s : St)
  : option Response * St :=
  serve (checkout_handler env req) s.

(** ** The admin gate *)

(** [validateAdmin]: the [role] request header must be ['admin']. *)
Definition validateAdmin (role : option string) (next : Handler unit)
  : Handler unit :=
  if bool_decide (role = Some "admin") then next
  else
    console_error "Access denied: Admins only." ;;
    res_json 403 (JMessage false "Access denied: Admins only.").

(** ** POST /api/games *)

(** The request after [upload.single('image')]: the text fields of the
    form and the stored file's name when a file came with it. *)
Record GameReq := {
  g_role : option string;
  x_request_id : option string;
  g_title : option string;
  g_description : option string;
  g_price : option string;
  g_genre : option string;
  g_platform : option string;
  g_file : option string
}.

(** [SELECT 1 FROM games WHERE title = @title]. *)
Definition select_title (ttl : string) : Statement (list Z) := λ t i,
  SqlOk ((λ _, 1) <$> map_to_list (filter (λ kv, title kv.2 = ttl) (games t)))
    t i.

(** [INSERT INTO games (title, description, price, genre, platform, image)
    VALUES (@title, @description, @price, @genre, @platform, @image)].
    [games] has no column [image]: the store refuses the statement,
    whatever the six values are, and no identity is used. *)
Definition insert_game (ttl desc pr gen plat img : string)
  : Statement unit := λ t i,
  SqlErr "Invalid column name 'image'.".

(** [activeRequests.add(requestId)] and [activeRequests.delete(requestId)]. *)
Definition activeRequests_add (requestId : string) : Handler unit := λ s,
  (Normal tt, set_activeRequests ({[requestId]} ∪ activeRequests s) s).

Definition activeRequests_delete (requestId : string) : Handler unit := λ s,
  (Normal tt, set_activeRequests (activeRequests s ∖ {[requestId]}) s).

(** [req.headers['x-request-id'] || uuidv4()]. *)
Definition request_id (env : Env) (req : GameReq) : string :=
  if truthy_str (x_request_id req) then default "" (x_request_id req)
  else uuidv4 env.

(** The [try] block of the handler. *)
Definition add_game_try (env : Env) (req : GameReq) : Handler unit :=
  tx_begin env ;;
  if negb (truthy_str (g_title req)) || negb (truthy_str (g_description req))
     || negb (truthy_str (g_price req)) || negb (truthy_str (g_genre req))
     || negb (truthy_str (g_platform req)) || negb (truthy_str (g_file req))
  then
    tx_rollback env ;;
    res_json 400 (JMessage false "All fields are required, including an image.")
  else
    let ttl := default "" (g_title req) in
    let* checkResult := tx_query env CheckTitle (select_title ttl) in
    if (0 <? length checkResult)%nat
    then
      tx_rollback env ;;
      res_json 400 (JMessage false "Game with this title already exists.")
    else
      tx_query env InsertGame
        (insert_game ttl (default "" (g_description req))
           (default "" (g_price req)) (default "" (g_genre req))
           (default "" (g_platform req)) (default "" (g_file req))) ;;
      tx_commit env ;;
      res_json 200 (JMessage true "Game added successfully.").

Definition add_game_handler (env : Env) (req : GameReq) : Handler unit :=
  validateAdmin (g_role req) (λ s,
    let requestId := request_id env req in
    if bool_decide (requestId ∈ activeRequests s)
    then res_json 400 (JMessage false "Duplicate request detected.") s
    else
      (activeRequests_add requestId ;;
       new_Transaction ;;
       try_finally
         (try_catch (add_game_try env req)
            (λ err,
              tx_rollback env ;;
              console_error ("[" +:+ requestId +:+ "] Error adding game: " +:+ err) ;;
              res_json 500 (JMessage false "Failed to add game.")))
         (activeRequests_delete requestId)) s).

Definition add_game (env : Env) (req : GameReq) (s : St)
  : option Response * St :=
  serve (add_game_handler env req) s.

(** ** DELETE /api/games/:id *)

(** [DELETE FROM order_items WHERE game_id = @game_id]; the result is the
    number of rows affected. *)
Definition delete_order_items (gid : Z) : Statement nat := λ t i,
  SqlOk (length (filter (λ it, oi_game_id it = gid) (order_items t)))
    {| users := users t; games := games t; orders := orders t;
       order_items := filter (λ it, oi_game_id it ≠ gid) (order_items t);
       payments := payments t; inventory := inventory t |}
    i.

(** [DELETE FROM games WHERE game_id = @game_id].  The rows of
    [order_items] and of [inventory] reference [games] with no cascade:
    the delete of a game that one of them still references fails. *)
Definition delete_game (gid : Z) : Statement nat := λ t i,
  match games t !! gid with
  | None => SqlOk 0%nat t i
  | Some _ =>
      if bool_decide (gid ∈ oi_game_id <$> order_items t)
      then SqlErr "The DELETE statement conflicted with the REFERENCE constraint on order_items.game_id."
      else if bool_decide (is_Some (inventory t !! gid))
      then SqlErr "The DELETE statement conflicted with the REFERENCE constraint on inventory.game_id."
      else
        SqlOk 1%nat
          {| users := users t; games := delete gid (games t);
             orders := orders t; order_items := order_items t;
             payments := payments t; inventory := inventory t |}
          i
  end.

Definition delete_game_handler (env : Env) (role : option string) (id : Z)
  : Handler unit :=
  validateAdmin role (
    new_Transaction ;;
    try_catch
      (tx_begin env ;;
       tx_query env DeleteOrderItems (delete_order_items id) ;;
       let* rowsAffected := tx_query env DeleteGame (delete_game id) in
       if (rowsAffected =? 0)%nat
       then
         tx_rollback env ;;
         res_json 404 (JMessage false "Game not found.")
       else
         tx_commit env ;;
         res_json 200 (JMessage true "Game deleted successfully."))
      (λ err,
        tx_rollback env ;;
        console_error ("Error deleting game: " +:+ err) ;;
        res_json 500 (JMessage false "Failed to delete game."))).

Definition delete_game_endpoint (env : Env) (role : option string) (id : Z)
  (s : St) : option Response * St :=
  serve (delete_game_handler env role id) s.

(** ** GET /api/orders *)

(** The rows one order contributes to
    [orders o LEFT JOIN order_status os LEFT JOIN users u
     LEFT JOIN order_items oi LEFT JOIN games g]:
    one per item of the order, or a single row of nulls on the item side
    when the order has no item. [ISNULL(g.title, 'Deleted Game')] fills
    the title where no game matched. *)
Definition report_row (t : Tables) (o : Order) (oi : option OrderItem)
  : ReportRow :=
  {| r_order_id := order_id o;
     r_order_date := order_date o;
     r_total_amount := total_amount o;
     r_order_status := status_name order_status (o_status_id o);
     r_customer_name :=
       u ← o_user_id o;
       (λ r, username r.2) <$> list_find (λ r, user_id r = u) (users t);
     r_order_item_id := order_item_id <$> oi;
     r_game_title :=
       default "Deleted Game"
         (it ← oi; title <$> games t !! oi_game_id it);
     r_quantity := quantity <$> oi;
     r_price := oi_price <$> oi |}.

Definition order_rows (t : Tables) (o : Order) : list ReportRow :=
  match filter (λ it, oi_order_id it = order_id o) (order_items t) with
  | [] => [report_row t o None]
  | its => report_row t o ∘ Some <$> its
  end.

(** [ORDER BY o.order_date DESC]. *)
Definition newer_first (a b : ReportRow) : Prop :=
  r_order_date b ≤ r_order_date a.

Global Instance newer_first_dec a b : Decision (newer_first a b).
Proof. unfold newer_first. apply _. Defined.

Definition select_orders : Statement (list ReportRow) := λ t i,
  SqlOk (merge_sort newer_first (orders t ≫= order_rows t)) t i.

Definition orders_handler (env : Env) (role : option string) : Handler unit :=
  validateAdmin role (
    try_catch
      (let* recordset := pool_query env SelectOrders select_orders in
       res_json 200 (JRows recordset))
      (λ err,
        console_error ("Error fetching orders: " +:+ err) ;;
        res_json 500 (JMessage false "Failed to fetch orders."))).

Definition get_orders (env : Env) (role : option string) (s : St)
  : option Response * St :=
  serve (orders_handler env role) s.

(** ** POST /api/login *)

Record LoginReq := {
  l_role : option string;
  l_email : option string;
  l_password : option string
}.

(** [SELECT u.user_id, u.username, u.password, r.role_id FROM users u
    JOIN user_roles r ON u.role_id = r.role_id WHERE u.email = @email]. *)
Definition select_user (mail : option string) : Statement (list User) :=
  λ t i,
  SqlOk (filter (λ u, Some (email u) = mail ∧ role_id u ∈ user_roles.*1)
           (users t)) t i.

(** [await bcrypt.compare(password, hash)]; bcryptjs rejects an argument
    that is not a string. *)
Definition compare_password (env : Env) (pw : option string) (hash : string)
  : Handler bool :=
  match pw with
  | Some p => pure (bcrypt_compare env p hash)
  | None => throw "Illegal arguments: undefined, string"
  end.

(** [role.toLowerCase()]. *)
Definition role_toLowerCase (role : option string) : Handler string :=
  match role with
  | Some r => pure (toLowerCase r)
  | None => throw "Cannot read properties of undefined (reading 'toLowerCase')"
  end.

(** [user.role_id === 2 ? 'admin' : 'customer']. *)
Definition role_name (user : User) : string :=
  if role_id user =? 2 then "admin" else "customer".

Definition login_handler (env : Env) (req : LoginReq) : Handler unit :=
  try_catch
    (let* recordset := pool_query env SelectUser (select_user (l_email req)) in
     match recordset with
     | [] => res_json 200 (JMessage false "Invalid email or password.")
     | user :: _ =>
         let* matched := compare_password env (l_password req) (password user) in
         if negb matched
         then res_json 200 (JMessage false "Invalid email or password.")
         else
           let roleName := role_name user in
           let* requested := role_toLowerCase (l_role req) in
           if negb (String.eqb roleName requested)
           then res_json 200
                  (JMessage false
                     ("Access denied: not a " +:+ default "" (l_role req) +:+ "."))
           else res_json 200 (JLogin true roleName (user_id user))
     end)
    (λ err,
      console_error ("Login error: " +:+ err) ;;
      res_json 500 (JMessage false "Server error.")).

Definition login (env : Env) (req : LoginReq) (s : St)
  : option Response * St :=
  serve (login_handler env req) s.

(** ** POST /api/register *)

Record RegisterReq := {
  r_username : option string;
  r_email : option string;
  r_password : option string;
  r_role : option string
}.

(** [SELECT 1 FROM users WHERE email = @email]. *)
Definition select_email (mail : string) : Statement (list Z) := λ t i,
  SqlOk ((λ _, 1) <$> filter (λ u, email u = mail) (users t)) t i.

(** [INSERT INTO users (username, email, password, role_id) VALUES ...];
    [email] is declared unique and [role_id] references [user_roles]. *)
Definition insert_user (name mail hash : string) (role : Z)
  : Statement unit := λ t i,
  if bool_decide (mail ∈ email <$> users t)
  then SqlErr "Violation of UNIQUE KEY constraint on users.email."
  else if negb (seeded user_roles role)
  then SqlErr (fk_error "users.role_id")
  else
    SqlOk tt
      {| users := users t ++
           [ {| user_id := next_user_id i; username := name; email := mail;
                password := hash; role_id := role |} ];
         games := games t; orders := orders t;
         order_items := order_items t; payments := payments t;
         inventory := inventory t |}
      {| next_user_id := next_user_id i + 1;
         next_game_id := next_game_id i;
         next_order_id := next_order_id i;
         next_order_item_id := next_order_item_id i;
         next_payment_id := next_payment_id i |}.

Definition register_handler (env : Env) (req : RegisterReq) : Handler unit :=
  if negb (truthy_str (r_username req)) || negb (truthy_str (r_email req))
     || negb (truthy_str (r_password req)) || negb (truthy_str (r_role req))
  then res_json 200 (JMessage false "All fields are required.")
  else
    let mail := default "" (r_email req) in
    try_catch
      (let* check := pool_query env CheckEmail (select_email mail) in
       if (0 <? length check)%nat
       then res_json 200 (JMessage false "Email is already registered.")
       else
         let hashedPassword := bcrypt_hash env (default "" (r_password req)) in
         let roleId :=
           if String.eqb (default "" (r_role req)) "admin" then 2 else 1 in
         pool_query env InsertUser
           (insert_user (default "" (r_username req)) mail hashedPassword
              roleId) ;;
         res_json 200 (JMessage true "Registration successful."))
      (λ err,
        console_error ("Registration error: " +:+ err) ;;
        res_json 500 (JMessage false "Server error during registration.")).

Definition register (env : Env) (req : RegisterReq) (s : St)
  : option Response * St :=
  serve (register_handler env req) s.

(** ** Vocabulary of the statements below *)

(** The store begins, commits and rolls back the transactions it is
    asked to. *)
Definition tx_works (env : Env) : Prop :=
  fault env TxBegin = None ∧ fault env TxCommit = None ∧
  fault env TxRollback = None.

(** A request passes the field check of the checkout: the three fields
    are all truthy. *)
Definition checkout_validated (req : CheckoutReq) : bool :=
  truthy_arr (items req) && truthy_num (totalAmount req)
  && truthy_num (paymentMethodId req).

(** The rows the item loop appends for the lines [its], the first taking
    the identity [first]. *)
Fixpoint item_rows (orderId first : Z) (its : list CartItem)
  : list OrderItem :=
  match its with
  | [] => []
  | item :: rest =>
      {| order_item_id := first; oi_order_id := orderId;
         oi_game_id := ci_game_id item; quantity := ci_quantity item;
         oi_price := ci_price item |} :: item_rows orderId (first + 1) rest
  end.

(** The trigger, fired once per line in cart order. *)
Definition stock_after (its : list CartItem) (inv : gmap Z Z) : gmap Z Z :=
  foldl (λ m item,
           trg_update_inventory_after_order (ci_game_id item)
             (ci_quantity item) m) inv its.

(** While the [try] block runs, nothing it does is committed. *)
Definition in_transaction (s0 s : St) : Prop :=
  committed s = committed s0 ∧ activeRequests s = activeRequests s0 ∧
  console s = console s0 ∧ ∃ w, txn s = TxOpen w.


(** The identity counter of [orders] is ahead of every order id stored. *)
Definition order_ids_issued (s : St) : Prop :=
  Forall (λ o, order_id o < next_order_id (idents s)) (orders (committed s)) ∧
  Forall (λ it, oi_order_id it < next_order_id (idents s))
    (order_items (committed s)) ∧
  Forall (λ p, p_order_id p < next_order_id (idents s)) (payments (committed s)).

(** "A step of the checkout raises [e]": the request passes the field
    check and the [try] block ends by throwing [e]. *)
Definition checkout_raises (env : Env) (req : CheckoutReq) (s : St)
  (e : string) : Prop :=
  checkout_validated req = true ∧
  ∃ s1,
    checkout_try env (default [] (items req)) (default 0 (totalAmount req))
      (default 0 (paymentMethodId req)) (userId req) (set_txn TxNew s)
    = (Throw e, s1).

(** The replies of the game creation. *)
Definition duplicate_request : Response :=
  {| status := 400; body := JMessage false "Duplicate request detected." |}.

Definition add_game_replies : list Response :=
  [ {| status := 200; body := JMessage true "Game added successfully." |};
    {| status := 400;
       body := JMessage false "All fields are required, including an image." |};
    {| status := 400;
       body := JMessage false "Game with this title already exists." |};
    {| status := 500; body := JMessage false "Failed to add game." |} ].

(** A register request with its four fields present. *)
Definition register_complete (req : RegisterReq) : bool :=
  truthy_str (r_username req) && truthy_str (r_email req)
  && truthy_str (r_password req) && truthy_str (r_role req).

(** The account the login works with: the first row of its select. *)
Definition login_account (t : Tables) (mail : option string) : option User :=
  head (filter (λ u, Some (email u) = mail ∧ role_id u ∈ user_roles.*1)
          (users t)).

(** ** A small shop, for the examples *)

Module Sample.
Definition game (ttl : string) : Game :=
  {| title := ttl; description := "A shooter"; price := 1999;
     genre := "FPS"; platform := "PC" |}.

Definition tables : Tables :=
  {| users := [ {| user_id := 1; username := "ann";
                   email := "ann@example.com"; password := "bcrypt:secret";
                   role_id := 2 |} ];
     games := {[ 1 := game "Doom"; 2 := game "Quake" ]};
     orders := []; order_items := []; payments := [];
     inventory := {[ 1 := 10; 2 := 4 ]} |}.

Definition counters : Idents :=
  {| next_user_id := 2; next_game_id := 3; next_order_id := 1;
     next_order_item_id := 1; next_payment_id := 1 |}.

Definition server : St :=
  {| committed := tables; idents := counters; txn := TxNew;
     activeRequests := ∅; console := [] |}.

(** No store failure, and a toy bcrypt. *)
Definition env : Env :=
  {| fault := λ _, None; now := 1000; uuidv4 := "generated-uuid";
     bcrypt_hash := λ pw, "bcrypt:" +:+ pw;
     bcrypt_compare := λ pw hash, String.eqb ("bcrypt:" +:+ pw) hash |}.

(** The same, with no connection to begin a transaction on. *)
Definition offline : Env :=
  {| fault := λ l, match l with
                   | TxBegin => Some "Connection is closed."
                   | _ => None
                   end;
     now := 1000; uuidv4 := "generated-uuid";
     bcrypt_hash := λ pw, "bcrypt:" +:+ pw;
     bcrypt_compare := λ pw hash, String.eqb ("bcrypt:" +:+ pw) hash |}.

Definition line (g q p : Z) : CartItem :=
  {| ci_game_id := g; ci_quantity := q; ci_price := p |}.

Definition cart_req (cart : list CartItem) (method : Z) : CheckoutReq :=
  {| items := Some cart; totalAmount := Some 4497;
     paymentMethodId := Some method; userId := Some 1 |}.

Definition new_game : GameReq :=
  {| g_role := Some "admin"; x_request_id := Some "req-1";
     g_title := Some "Halo"; g_description := Some "A shooter";
     g_price := Some "29.99"; g_genre := Some "FPS";
     g_platform := Some "Xbox"; g_file := Some "1700000000-halo.png" |}.

Definition sign_up (mail role : string) : RegisterReq :=
  {| r_username := Some "bob"; r_email := Some mail;
     r_password := Some "hunter2"; r_role := Some role |}.

Definition sign_in (role mail pw : string) : LoginReq :=
  {| l_role := Some role; l_email := Some mail; l_password := Some pw |}.

(** The shop with no stock rows, holding one order with a line for each
    game. *)
Definition sold : St :=
  {| committed :=
       {| users := users tables; games := games tables;
          orders := [ {| order_id := 1; o_user_id := Some 1;
                         order_date := 1000; total_amount := 2498;
                         o_status_id := 1 |} ];
          order_items :=
            [ {| order_item_id := 1; oi_order_id := 1; oi_game_id := 1;
                 quantity := 1; oi_price := 1999 |};
              {| order_item_id := 2; oi_order_id := 1; oi_game_id := 2;
                 quantity := 1; oi_price := 499 |} ];
          payments := [ {| payment_id := 1; p_order_id := 1;
                           payment_date := 1000; p_status_id := 1;
                           p_method_id := 1 |} ];
          inventory := ∅ |};
     idents := {| next_user_id := 2; next_game_id := 3; next_order_id := 2;
                  next_order_item_id := 3; next_payment_id := 2 |};
     txn := TxNew; activeRequests := ∅; console := [] |}.
End Sample.

(** ** The endpoints with a single statement

    [GET /api/games], [GET /api/users], [PUT /api/games/:id] and
    [DELETE /api/users/:username] each send one statement on
    [pool.request()]. [failure] is the failure of the store at that
    statement, when there is one. *)

Definition pool_request {A} (failure : option string) (q : Statement A)
  : Handler A := λ s,
  match failure with
  | Some msg => (Throw msg, s)
  | None =>
      match q (committed s) (idents s) with
      | SqlErr msg => (Throw msg, s)
      | SqlOk a t' i' => (Normal a, set_committed t' (set_idents i' s))
      end
  end.

(** The reply of an endpoint that answers with a JSON array of rows
    ([res.json(result.recordset)]), or with one of the responses above
    when it refuses or fails. *)
Inductive Listing (A : Type) :=
  | Listed (rows : list A)
  | Refused (r : Response).
Arguments Listed {A} rows.
Arguments Refused {A} r.

(** As [serve], for a handler whose normal end is the array it sends. *)
Definition listing {A} (h : Handler (list A)) (s : St)
  : option (Listing A) * St :=
  match h s with
  | (Normal recordset, s') => (Some (Listed recordset), s')
  | (Return r, s') => (Some (Refused r), s')
  | (Throw _, s') => (None, s')
  end.

(** *** GET /api/games *)

(** [SELECT game_id, title, description, price, genre, platform, image
    FROM games]. [games] has no column [image]: the store refuses the
    statement, and no row is ever returned. *)
Definition select_games : Statement (list (Z * Game)) := λ t i,
  SqlErr "Invalid column name 'image'.".

Definition get_games_handler (failure : option string)
  : Handler (list (Z * Game)) :=
  try_catch
    (pool_request failure select_games)
    (λ err,
      console_error ("Error fetching games: " +:+ err) ;;
      res_json 500 (JError err)).

Definition get_games (failure : option string) (s : St)
  : option (Listing (Z * Game)) * St :=
  listing (get_games_handler failure) s.

(** *** GET /api/users *)

Record UserRow := {
  ur_username : string;
  ur_email : string;
  ur_role_name : string
}.

(** [SELECT u.username, u.email, r.role_name FROM users u
    JOIN user_roles r ON u.role_id = r.role_id]. *)
Definition select_users : Statement (list UserRow) := λ t i,
  SqlOk
    (omap (λ u,
             (λ name, {| ur_username := username u; ur_email := email u;
                         ur_role_name := name |})
               <$> status_name user_roles (role_id u))
       (users t))
    t i.

Definition get_users_handler (failure : option string)
  (role : option string) : Handler (list UserRow) :=
  validateAdmin role (pure tt) ;;
  try_catch
    (pool_request failure select_users)
    (λ err,
      console_error ("Error fetching users: " +:+ err) ;;
      res_json 500 (JMessage false "Failed to fetch users.")).

Definition get_users (failure : option string) (role : option string)
  (s : St) : option (Listing UserRow) * St :=
  listing (get_users_handler failure role) s.

(** *** PUT /api/games/:id *)

(** The fields of the JSON body the handler reads, each as text. *)
Record UpdateReq := {
  up_title : option string;
  up_price : option string;
  up_description : option string
}.

(** [UPDATE games SET title = @title, price = @price,
    description = @description WHERE game_id = @id], with [pr] the value
    of [@price] in hundredths; the result is the number of rows
    affected. *)
Definition update_game_row (id : Z) (ttl : string) (pr : Z) (desc : string)
  : Statement nat := λ t i,
  match games t !! id with
  | None => SqlOk 0%nat t i
  | Some g =>
      SqlOk 1%nat
        {| users := users t;
           games :=
             <[id := {| title := ttl; description := desc; price := pr;
                        genre := genre g; platform := platform g |}]>
               (games t);
           orders := orders t; order_items := order_items t;
           payments := payments t; inventory := inventory t |}
        i
  end.

(** [decimal] is the reading of a text bound as [sql.Decimal(10, 2)]:
    the number it stands for, rounded to two places, in hundredths. A
    text the driver refuses there is one of the failures [failure]. *)
Definition update_game_handler (decimal : string → Z)
  (failure : option string) (role : option string) (id : Z)
  (req : UpdateReq) : Handler unit :=
  validateAdmin role (
    if negb (truthy_str (up_title req)) || negb (truthy_str (up_price req))
       || negb (truthy_str (up_description req))
    then res_json 400 (JMessage false "All fields are required.")
    else
      try_catch
        (let* rowsAffected :=
           pool_request failure
             (update_game_row id (default "" (up_title req))
                (decimal (default "" (up_price req)))
                (default "" (up_description req))) in
         if (rowsAffected =? 0)%nat
         then res_json 404 (JMessage false "Game not found.")
         else res_json 200 (JMessage true "Game updated successfully."))
        (λ err,
          console_error ("Error updating game: " +:+ err) ;;
          res_json 500 (JMessage false "Failed to update game."))).

Definition update_game (decimal : string → Z) (failure : option string)
  (role : option string) (id : Z) (req : UpdateReq) (s : St)
  : option Response * St :=
  serve (update_game_handler decimal failure role id req) s.

(** *** DELETE /api/users/:username *)

(** [DELETE FROM users WHERE username = @username]. [orders.user_id]
    references [users] with no cascade: the delete fails while an order
    references one of the rows. *)
Definition delete_user_rows (name : string) : Statement nat := λ t i,
  let gone := filter (λ u, username u = name) (users t) in
  if bool_decide
       (Exists (λ u, Some (user_id u) ∈ o_user_id <$> orders t) gone)
  then SqlErr "The DELETE statement conflicted with the REFERENCE constraint on orders.user_id."
  else
    SqlOk (length gone)
      {| users := filter (λ u, username u ≠ name) (users t);
         games := games t; orders := orders t;
         order_items := order_items t; payments := payments t;
         inventory := inventory t |}
      i.

Definition delete_user_handler (failure : option string)
  (role : option string) (name : string) : Handler unit :=
  validateAdmin role (
    try_catch
      (let* rowsAffected := pool_request failure (delete_user_rows name) in
       if (rowsAffected =? 0)%nat
       then res_json 404 (JMessage false "User not found.")
       else res_json 200 (JMessage true "User deleted successfully."))
      (λ err,
        console_error ("Error deleting user: " +:+ err) ;;
        res_json 500 (JMessage false "Failed to delete user."))).

Definition delete_user (failure : option string) (role : option string)
  (name : string) (s : St) : option Response * St :=
  serve (delete_user_handler failure role name) s.

(** *** The view [user_order_details] *)

Record OrderDetail := {
  od_username : string;
  od_order_id : Z;
  od_order_date : Z;
  od_title : string;
  od_quantity : Z;
  od_price : Z
}.

(** [users u join orders o on u.user_id = o.user_id
     join order_items oi on o.order_id = oi.order_id
     join games g on g.game_id = oi.game_id]. *)
Definition user_order_details (t : Tables) : list OrderDetail :=
  u ← users t;
  o ← filter (λ o, o_user_id o = Some (user_id u)) (orders t);
  oi ← filter (λ oi, oi_order_id oi = order_id o) (order_items t);
  match games t !! oi_game_id oi with
  | Some g =>
      [ {| od_username := username u; od_order_id := order_id o;
           od_order_date := order_date o; od_title := title g;
           od_quantity := quantity oi; od_price := oi_price oi |} ]
  | None => []
  end.

(** ** Vocabulary of the further statements *)

(** The replies of the checkout. *)
Definition checkout_refusals (e : string) : list Response :=
  [ {| status := 400; body := JMessage false "Missing required fields." |};
    {| status := 400;
       body := JMessage false "One or more game IDs are invalid." |};
    {| status := 500; body := JError e |} ].

(** The reply of the admin gate to a caller who is not an admin. *)
Definition access_denied : Response :=
  {| status := 403; body := JMessage false "Access denied: Admins only." |}.

(** A game-creation form with its six fields present. *)
Definition game_form_complete (req : GameReq) : bool :=
  truthy_str (g_title req) && truthy_str (g_description req)
  && truthy_str (g_price req) && truthy_str (g_genre req)
  && truthy_str (g_platform req) && truthy_str (g_file req).

(** Some game of the catalog has the title [ttl]. *)
Definition title_taken (ttl : string) (gs : gmap Z Game) : Prop :=
  ∃ k g, gs !! k = Some g ∧ title g = ttl.


(** The reply of a game creation that went through. *)
Definition game_added : Response :=
  {| status := 200; body := JMessage true "Game added successfully." |}.

(** An update body with its three fields present. *)
Definition update_complete (req : UpdateReq) : bool :=
  truthy_str (up_title req) && truthy_str (up_price req)
  && truthy_str (up_description req).

(** The identity counters of [next] are not behind those of [prev]. *)
Definition idents_le (prev next : Idents) : Prop :=
  next_user_id prev ≤ next_user_id next ∧
  next_game_id prev ≤ next_game_id next ∧
  next_order_id prev ≤ next_order_id next ∧
  next_order_item_id prev ≤ next_order_item_id next ∧
  next_payment_id prev ≤ next_payment_id next.

(** A statement that never moves an identity counter back. *)
Definition keeps_issued {A} (q : Statement A) : Prop :=
  ∀ t i a t' i', q t i = SqlOk a t' i' → idents_le i i'.

(** A handler that, however it completes, leaves a state related by [R]
    to the one it started from. *)
Definition keeps (R : relation St) {A} (h : Handler A) : Prop :=
  ∀ s c s', h s = (c, s') → R s s'.

(** The identity counters have not moved back between two states. *)
Definition issued_le (s s' : St) : Prop := idents_le (idents s) (idents s').

(** ** More of the small shop *)

Module Demo.
Definition edit : UpdateReq :=
  {| up_title := Some "Doom Eternal"; up_price := Some "39.999";
     up_description := Some "The sequel" |}.

(** The reading of a few price texts as [decimal(10,2)]. *)
Definition decimal (text : string) : Z :=
  if String.eqb text "39.999" then 4000
  else if String.eqb text "39.99" then 3999
  else if String.eqb text "19.99" then 1999
  else 0.

(** The shop with a second user, who has ordered nothing. *)
Definition crowd : St :=
  set_committed
    {| users := users Sample.tables ++
                  [ {| user_id := 2; username := "bob";
                       email := "bob@example.com";
                       password := "bcrypt:hunter2"; role_id := 1 |} ];
       games := games Sample.tables;
       orders := orders (committed Sample.sold);
       order_items := order_items (committed Sample.sold);
       payments := payments (committed Sample.sold);
       inventory := inventory Sample.tables |}
    (set_idents
       {| next_user_id := 3; next_game_id := 3; next_order_id := 2;
          next_order_item_id := 3; next_payment_id := 2 |}
       Sample.server).
End Demo.
(** * Properties *)

(** ** The catalog lookup of the checkout *)

Section catalog.
Implicit Types (ids : list Z) (gs : gmap Z Game).

Lemma elem_of_game_ids_in ids gs k :
  k ∈ game_ids_in ids gs ↔ k ∈ ids ∧ is_Some (gs !! k).
Proof.
  unfold game_ids_in. rewrite list_elem_of_fmap. split.
  - intros [[k' g] [-> Hin]].
    apply elem_of_map_to_list, map_lookup_filter_Some in Hin as [Hg Hk].
    simpl in *. eauto.
  - intros [Hk [g Hg]]. exists (k, g). split; [done|].
    apply elem_of_map_to_list, map_lookup_filter_Some. done.
Qed.

Lemma NoDup_game_ids_in ids gs : NoDup (game_ids_in ids gs).
Proof. apply NoDup_fst_map_to_list. Qed.

Lemma game_ids_in_submseteq ids gs : game_ids_in ids gs ⊆+ ids.
Proof.
  apply NoDup_submseteq; [apply NoDup_game_ids_in|].
  intros k Hk. by apply elem_of_game_ids_in in Hk as [? _].
Qed.

(** The select returns as many rows as the cart has lines exactly when
    the lines name pairwise different games that all exist. *)
Lemma game_ids_in_length ids gs :
  length (game_ids_in ids gs) = length ids ↔
  NoDup ids ∧ ∀ k, k ∈ ids → is_Some (gs !! k).
Proof.
  split.
  - intros Hlen.
    assert (game_ids_in ids gs ≡ₚ ids) as Hperm.
    { apply submseteq_length_Permutation;
        [apply game_ids_in_submseteq | lia]. }
    split.
    + rewrite <- Hperm. apply NoDup_game_ids_in.
    + intros k Hk. rewrite <- Hperm in Hk.
      by apply elem_of_game_ids_in in Hk as [_ ?].
  - intros [Hnd Hall]. apply Nat.le_antisymm.
    + apply submseteq_length, game_ids_in_submseteq.
    + apply submseteq_length, NoDup_submseteq; [done|].
      intros k Hk. apply elem_of_game_ids_in. auto.
Qed.
End catalog.

(** ** Stepping through a handler *)

Ltac unfold_handler :=
  unfold serve, bind, pure, throw, res_json, console_error, try_catch,
    try_finally, new_Transaction, tx_begin, tx_commit, tx_rollback,
    tx_query, pool_query, validateAdmin, activeRequests_add,
    activeRequests_delete in *.

(** A statement of the transaction leaves the committed rows alone, keeps
    the transaction open and never sends a reply. *)
Lemma tx_query_inv {A} env l (q : Statement A) s c s' :
  tx_query env l q s = (c, s') →
  committed s' = committed s ∧ activeRequests s' = activeRequests s ∧
  console s' = console s ∧
  (∀ w, txn s = TxOpen w → ∃ w', txn s' = TxOpen w') ∧
  (∀ r, c ≠ Return r).
Proof.
  unfold tx_query. intros H.
  destruct (fault env l); [by simplify_eq; eauto 10|].
  destruct (txn s) eqn:Htx; try (by simplify_eq; rewrite ?Htx; eauto 10).
  destruct (q work (idents s)); simplify_eq; simpl; eauto 10.
Qed.

Lemma tx_query_Normal {A} env l (q : Statement A) s a s' :
  tx_query env l q s = (Normal a, s') →
  ∃ w w' i',
    fault env l = None ∧ txn s = TxOpen w ∧ q w (idents s) = SqlOk a w' i' ∧
    s' = set_txn (TxOpen w') (set_idents i' s).
Proof.
  unfold tx_query. intros H.
  destruct (fault env l); [done|].
  destruct (txn s) eqn:Htx; try done.
  destruct (q work (idents s)) eqn:Hq; simplify_eq. eauto 10.
Qed.

(** ** How a sequence completes *)

Lemma bind_Return {A B} (m : Handler A) (k : A → Handler B) s r s' :
  bind m k s = (Return r, s') →
  m s = (Return r, s') ∨ ∃ a s1, m s = (Normal a, s1) ∧ k a s1 = (Return r, s').
Proof.
  unfold bind. destruct (m s) as [[a|r1|e] s1]; intros H; simplify_eq; eauto.
Qed.

Lemma bind_Throw {A B} (m : Handler A) (k : A → Handler B) s e s' :
  bind m k s = (Throw e, s') →
  m s = (Throw e, s') ∨ ∃ a s1, m s = (Normal a, s1) ∧ k a s1 = (Throw e, s').
Proof.
  unfold bind. destruct (m s) as [[a|r1|e1] s1]; intros H; simplify_eq; eauto.
Qed.

Lemma bind_Normal {A B} (m : Handler A) (k : A → Handler B) s b s' :
  bind m k s = (Normal b, s') →
  ∃ a s1, m s = (Normal a, s1) ∧ k a s1 = (Normal b, s').
Proof.
  unfold bind. destruct (m s) as [[a|r1|e1] s1]; intros H; simplify_eq; eauto.
Qed.

Lemma bind_inv {A B} (m : Handler A) (k : A → Handler B) s c s' :
  bind m k s = (c, s') →
  (∃ a s1, m s = (Normal a, s1) ∧ k a s1 = (c, s')) ∨
  (∃ r, m s = (Return r, s') ∧ c = Return r) ∨
  (∃ e, m s = (Throw e, s') ∧ c = Throw e).
Proof.
  unfold bind. destruct (m s) as [[a|r|e] s1]; intros H; simplify_eq; eauto 8.
Qed.

Lemma pool_query_Normal {A} env l (q : Statement A) s a s' :
  pool_query env l q s = (Normal a, s') →
  ∃ t' i',
    fault env l = None ∧ q (committed s) (idents s) = SqlOk a t' i' ∧
    s' = set_committed t' (set_idents i' s).
Proof.
  unfold pool_query. intros H.
  destruct (fault env l); [done|].
  destruct (q (committed s) (idents s)) eqn:Hq; simplify_eq. eauto.
Qed.

Lemma pool_query_no_Return {A} env l (q : Statement A) s r s' :
  pool_query env l q s ≠ (Return r, s').
Proof.
  unfold pool_query. destruct (fault env l); [done|].
  by destruct (q (committed s) (idents s)).
Qed.

Lemma tx_query_no_Return {A} env l (q : Statement A) s r s' :
  tx_query env l q s ≠ (Return r, s').
Proof.
  intros H. apply tx_query_inv in H as (_ & _ & _ & _ & Hr). by destruct (Hr r).
Qed.

(** ** The parameters declared on the request of the checkout *)

Lemma request_inputs_inv names tr s c s' :
  request_inputs names tr s = (c, s') → s' = s ∧ ∀ r, c ≠ Return r.
Proof.
  revert tr. induction names as [|name rest IH]; intros tr H; simpl in H.
  - unfold pure in H. by simplify_eq.
  - unfold bind, request_input, throw, pure in H.
    destruct (bool_decide (name ∈ tr)); [by simplify_eq|]. by apply IH in H.
Qed.

Lemma request_inputs_Normal names tr s tr' s' :
  request_inputs names tr s = (Normal tr', s') →
  s' = s ∧ tr' = reverse names ++ tr.
Proof.
  revert tr. induction names as [|name rest IH]; intros tr H; simpl in H.
  - unfold pure in H. by simplify_eq.
  - unfold bind, request_input, throw, pure in H.
    destruct (bool_decide (name ∈ tr)); [done|].
    apply IH in H as [-> ->]. split; [done|].
    by rewrite reverse_cons, <- app_assoc.
Qed.

(** Declaring a name a second time throws. *)
Lemma request_inputs_declared name rest tr s :
  name ∈ tr →
  request_inputs (name :: rest) tr s = (Throw (already_declared name), s).
Proof.
  intros Hin. simpl. unfold bind, request_input.
  by rewrite bool_decide_eq_true_2.
Qed.

(** The names the order insert declares on the fresh request. *)
Lemma order_inputs s :
  request_inputs ["user_id"; "total"; "order_status_id"] [] s =
    (Normal ["order_status_id"; "total"; "user_id"], s).
Proof. reflexivity. Qed.

Local Arguments request_inputs : simpl never.

Lemma insert_items_cons env oid line item rest tr :
  insert_items env oid line (item :: rest) tr =
    (let* tr := request_inputs
                  ["order_id_item"; "game_id"; "quantity"; "price"] tr in
     tx_query env (InsertOrderItem line)
       (insert_order_item oid (ci_game_id item) (ci_quantity item)
          (ci_price item)) ;;
     insert_items env oid (S line) rest tr).
Proof. reflexivity. Qed.

Lemma insert_items_inv env oid line its tr s c s' :
  insert_items env oid line its tr s = (c, s') →
  committed s' = committed s ∧ activeRequests s' = activeRequests s ∧
  console s' = console s ∧
  (∀ w, txn s = TxOpen w → ∃ w', txn s' = TxOpen w') ∧
  (∀ r, c ≠ Return r).
Proof.
  revert line tr s.
  induction its as [|item rest IH]; intros line tr s H.
  - simpl in H. unfold pure in H. simplify_eq. eauto 10.
  - rewrite insert_items_cons in H. unfold bind at 1 in H.
    destruct (request_inputs _ tr s) as [c0 s0] eqn:H0.
    apply request_inputs_inv in H0 as [-> Hret0].
    destruct c0 as [tr1|r|e]; [|by destruct (Hret0 r)|simplify_eq; eauto 10].
    unfold bind in H.
    destruct (tx_query _ _ _ s) as [c1 s1] eqn:H1.
    apply tx_query_inv in H1 as (Hc & Ha & Hl & Htx & Hret).
    destruct c1 as [[]|r|e].
    + apply IH in H as (Hc' & Ha' & Hl' & Htx' & Hret').
      repeat split; try congruence.
      intros w Hw. destruct (Htx w Hw) as [w1 Hw1]. eauto.
    + by destruct (Hret r).
    + simplify_eq. repeat split; auto.
Qed.

Lemma insert_items_Normal env oid line its tr s tr' s' w :
  txn s = TxOpen w →
  insert_items env oid line its tr s = (Normal tr', s') →
  ∃ w',
    txn s' = TxOpen w' ∧ committed s' = committed s ∧
    activeRequests s' = activeRequests s ∧ console s' = console s ∧
    users w' = users w ∧ games w' = games w ∧ orders w' = orders w ∧
    payments w' = payments w ∧
    order_items w' =
      order_items w ++ item_rows oid (next_order_item_id (idents s)) its ∧
    inventory w' = stock_after its (inventory w) ∧
    next_order_id (idents s') = next_order_id (idents s) ∧
    next_payment_id (idents s') = next_payment_id (idents s).
Proof.
  revert line tr s w.
  induction its as [|item rest IH]; intros line tr s w Hw H.
  - simpl in H. unfold pure in H. simplify_eq. exists w.
    rewrite app_nil_r. eauto 15.
  - rewrite insert_items_cons in H.
    apply bind_Normal in H as (tr1 & s0 & H0 & H).
    apply request_inputs_Normal in H0 as [-> _].
    apply bind_Normal in H as ([] & s1 & H1 & H).
    apply tx_query_Normal in H1 as (w0 & w1 & i1 & _ & Hw0 & Hq & ->).
    rewrite Hw in Hw0. simplify_eq.
    unfold insert_order_item in Hq. repeat case_match; simplify_eq.
    eapply IH in H as (w' & ? & ? & ? & ? & ? & ? & ? & ? & Hits & Hinv & ? & ?);
      [|reflexivity].
    exists w'. simpl in *. repeat split; try done.
    rewrite Hits, <- app_assoc. done.
Qed.

(** The item loop declares [order_id_item] on the request for its first
    line and again for its second: it never gets past a second line. *)
Lemma insert_items_second_line env oid line a b rest tr s c s' :
  insert_items env oid line (a :: b :: rest) tr s = (c, s') →
  ∃ e, c = Throw e.
Proof.
  intros H. rewrite insert_items_cons in H.
  apply bind_inv in H as [(tr1 & s0 & H0 & H)|[(r & H0 & _)|(e & _ & ->)]];
    [| by apply request_inputs_inv in H0 as [_ Hr]; destruct (Hr r)
     | by eauto].
  apply request_inputs_Normal in H0 as [-> ->].
  apply bind_inv in H as [([] & s1 & H1 & H)|[(r & H1 & _)|(e & _ & ->)]];
    [| by apply tx_query_no_Return in H1 | by eauto].
  rewrite insert_items_cons in H.
  apply bind_inv in H as [(tr2 & s2 & H2 & _)|[(r & H2 & _)|(e & _ & ->)]];
    [| by apply request_inputs_inv in H2 as [_ Hr]; destruct (Hr r)
     | by eauto].
  rewrite (request_inputs_declared "order_id_item") in H2; [done|].
  rewrite elem_of_app. left. vm_compute.
  do 3 apply list_elem_of_further. apply list_elem_of_here.
Qed.


Lemma insert_items_one_line env oid line its tr s tr' s' :
  insert_items env oid line its tr s = (Normal tr', s') →
  (length its ≤ 1)%nat.
Proof.
  destruct its as [|a [|b rest]]; simpl; [lia | lia |].
  intros H. apply insert_items_second_line in H as [e ?]. done.
Qed.

(** ** The inventory after the trigger has fired for every line *)

Lemma stock_after_other its inv k :
  k ∉ ci_game_id <$> its → stock_after its inv !! k = inv !! k.
Proof.
  unfold stock_after. revert inv.
  induction its as [|item rest IH]; intros inv Hk; simpl; [done|].
  rewrite fmap_cons, not_elem_of_cons in Hk. destruct Hk as [Hne Hk].
  rewrite IH by done. unfold trg_update_inventory_after_order.
  by rewrite lookup_alter_ne.
Qed.

Lemma stock_after_line its inv item :
  NoDup (ci_game_id <$> its) → item ∈ its →
  stock_after its inv !! ci_game_id item =
    (λ stock, stock - ci_quantity item) <$> inv !! ci_game_id item.
Proof.
  unfold stock_after. revert inv.
  induction its as [|x rest IH]; intros inv Hnd Hin; [by inversion Hin|].
  rewrite fmap_cons, NoDup_cons in Hnd. destruct Hnd as [Hx Hnd].
  apply elem_of_cons in Hin as [->|Hin]; simpl.
  - fold (stock_after rest
            (trg_update_inventory_after_order (ci_game_id x) (ci_quantity x) inv)).
    rewrite stock_after_other by done.
    unfold trg_update_inventory_after_order. by rewrite lookup_alter_eq.
  - rewrite IH by done. unfold trg_update_inventory_after_order.
    rewrite lookup_alter_ne; [done|].
    intros Heq. apply Hx. rewrite Heq. by apply list_elem_of_fmap_2.
Qed.

Lemma item_rows_length oid first its :
  length (item_rows oid first its) = length its.
Proof. revert first. induction its; intros; simpl; auto. Qed.

Lemma item_rows_lines oid first its :
  Forall2 (λ row item,
             oi_order_id row = oid ∧ oi_game_id row = ci_game_id item ∧
             quantity row = ci_quantity item ∧ oi_price row = ci_price item)
    (item_rows oid first its) its.
Proof. revert first. induction its; intros; simpl; constructor; auto. Qed.

Lemma insert_items_no_Return env oid line its tr s r s' :
  insert_items env oid line its tr s ≠ (Return r, s').
Proof.
  intros H. apply insert_items_inv in H as (_ & _ & _ & _ & Hr).
  by destruct (Hr r).
Qed.

(** ** The calls that control the transaction *)

Lemma tx_begin_inv env s c s' :
  tx_begin env s = (c, s') →
  (c = Normal tt ∧ fault env TxBegin = None ∧
   s' = set_txn (TxOpen (committed s)) s) ∨
  (∃ e, c = Throw e ∧ fault env TxBegin = Some e ∧ s' = s).
Proof.
  unfold tx_begin. destruct (fault env TxBegin); intros; simplify_eq; eauto 8.
Qed.

Lemma tx_commit_inv env s c s' :
  tx_commit env s = (c, s') →
  (∃ w, c = Normal tt ∧ txn s = TxOpen w ∧ fault env TxCommit = None ∧
        s' = set_txn TxCommitted (set_committed w s)) ∨
  (∃ e w, c = Throw e ∧ txn s = TxOpen w ∧ fault env TxCommit = Some e ∧
          s' = set_txn TxRolledBack s) ∨
  (c = Throw not_begun ∧ (∀ w, txn s ≠ TxOpen w) ∧ s' = s).
Proof.
  unfold tx_commit. destruct (txn s) eqn:Htx;
    try (intros; simplify_eq; right; right; by eauto).
  destruct (fault env TxCommit); intros; simplify_eq; eauto 10.
Qed.

Lemma tx_rollback_open env s w :
  txn s = TxOpen w → fault env TxRollback = None →
  tx_rollback env s = (Normal tt, set_txn TxRolledBack s).
Proof. unfold tx_rollback. by intros -> ->. Qed.

Lemma tx_rollback_fails env s w e :
  txn s = TxOpen w → fault env TxRollback = Some e →
  tx_rollback env s = (Throw e, set_txn TxRolledBack s).
Proof. unfold tx_rollback. by intros -> ->. Qed.

Lemma tx_rollback_closed env s :
  (∀ w, txn s ≠ TxOpen w) → tx_rollback env s = (Throw not_begun, s).
Proof.
  unfold tx_rollback. intros H. destruct (txn s) eqn:Htx; try done.
  by destruct (H work).
Qed.

(** ** Checkout: the successful path *)

Lemma checkout_try_success env its total method uid s oid s' :
  checkout_try env its total method uid s =
    (Return {| status := 200; body := JOrder true oid |}, s') →
  let t := committed s in
  let t' := committed s' in
  its ≠ [] ∧ NoDup (ci_game_id <$> its) ∧
  (∀ item, item ∈ its → is_Some (games t !! ci_game_id item)) ∧
  oid = next_order_id (idents s) ∧
  users t' = users t ∧ games t' = games t ∧
  orders t' = orders t ++
    [ {| order_id := oid; o_user_id := or_null uid; order_date := now env;
         total_amount := total; o_status_id := 1 |} ] ∧
  order_items t' =
    order_items t ++ item_rows oid (next_order_item_id (idents s)) its ∧
  payments t' = payments t ++
    [ {| payment_id := next_payment_id (idents s); p_order_id := oid;
         payment_date := now env; p_status_id := 1; p_method_id := method |} ] ∧
  inventory t' = stock_after its (inventory t) ∧
  txn s' = TxCommitted ∧
  length its = 1%nat.
Proof.
  unfold checkout_try. intros H.
  apply bind_Return in H as [H|(? & s1 & Hbegin & H)].
  { by apply tx_begin_inv in H as [(? & _)|(? & ? & _)]. }
  apply tx_begin_inv in Hbegin as [(_ & _ & ->)|(? & ? & _)]; [|done].
  cbv zeta in H.
  apply bind_Return in H as [H|(rows & s2 & Hsel & H)];
    [by apply pool_query_no_Return in H|].
  apply pool_query_Normal in Hsel as (t2 & i2 & _ & Hsel & ->).
  unfold select_game_ids in Hsel. simpl in Hsel.
  destruct (ci_game_id <$> its) as [|k ks] eqn:Hids; [done|].
  simplify_eq. rewrite <- Hids in *.
  destruct (negb _) eqn:Hlen in H.
  { apply bind_Return in H as [H|(? & ? & ? & H)];
      unfold console_error, res_json in H; simplify_eq. }
  apply negb_false_iff, Nat.eqb_eq, game_ids_in_length in Hlen as [Hnd Hall].
  apply bind_Return in H as [H|(tr1 & s3 & Hin1 & H)].
  { by rewrite order_inputs in H. }
  rewrite order_inputs in Hin1. simplify_eq.
  apply bind_Return in H as [H|(oid0 & s3 & Hord & H)];
    [by apply tx_query_no_Return in H|].
  apply tx_query_Normal in Hord as (w & w3 & i3 & _ & Hw & Hord & ->).
  simpl in Hw, Hord. simplify_eq.
  unfold insert_order in Hord. repeat case_match; simplify_eq.
  apply bind_Return in H as [H|(tr2 & s4 & Hitems & H)];
    [by apply insert_items_no_Return in H|].
  pose proof (insert_items_one_line _ _ _ _ _ _ _ _ Hitems) as Hone.
  eapply insert_items_Normal in Hitems
    as (w4 & Hw4 & Hc4 & _ & _ & Hu & Hg & Ho & Hp & Hoi & Hinv & Hn1 & Hn2);
    [|reflexivity].
  simpl in *.
  apply bind_Return in H as [H|(tr3 & s5 & Hin3 & H)].
  { apply request_inputs_inv in H as [_ Hr]. by destruct (Hr _ eq_refl). }
  apply request_inputs_Normal in Hin3 as [-> _].
  apply bind_Return in H as [H|([] & s5 & Hpay & H)];
    [by apply tx_query_no_Return in H|].
  apply tx_query_Normal in Hpay as (w' & w5 & i5 & _ & Hw' & Hpay & ->).
  rewrite Hw4 in Hw'. simplify_eq.
  unfold insert_payment in Hpay. repeat case_match; simplify_eq.
  apply bind_Return in H as [H|([] & s6 & Hcommit & H)].
  { by apply tx_commit_inv in H as [(? & ? & _)|[(? & ? & ? & _)|(? & _)]]. }
  apply tx_commit_inv in Hcommit
    as [(w6 & _ & Hw6 & _ & ->)|[(? & ? & ? & _)|(? & _)]]; try done.
  simpl in Hw6. unfold res_json in H. simplify_eq. simpl.
  rewrite Hu, Hg, Ho, Hp, Hoi, Hinv, Hn2.
  assert (its ≠ []) as Hne by (by intros ->).
  repeat split; try done.
  - intros item Hin. apply Hall. by apply list_elem_of_fmap_2.
  - destruct its as [|a [|b rest]]; simpl in *; [done | done | lia].
Qed.

Lemma checkout_rejected env req s :
  checkout_validated req = false →
  checkout env req s =
    (Some {| status := 400; body := JMessage false "Missing required fields." |},
     set_console (console s ++ ["Missing required fields"]) (set_txn TxNew s)).
Proof.
  unfold checkout_validated, checkout, checkout_handler. intros Hv.
  unfold serve, bind at 1, new_Transaction.
  destruct (truthy_arr _), (truthy_num (totalAmount req)),
    (truthy_num (paymentMethodId req)); simplify_eq; done.
Qed.

Lemma checkout_accepted env req s :
  checkout_validated req = true →
  ∃ cart total method,
    items req = Some cart ∧ totalAmount req = Some total ∧
    paymentMethodId req = Some method ∧ total ≠ 0 ∧ method ≠ 0 ∧
    checkout env req s =
      serve (try_catch (checkout_try env cart total method (userId req))
               (checkout_catch env)) (set_txn TxNew s).
Proof.
  unfold checkout_validated, checkout, checkout_handler. intros Hv.
  destruct (items req) as [cart|] eqn:Hi; [|done].
  destruct (totalAmount req) as [total|] eqn:Ht; [|done].
  destruct (paymentMethodId req) as [method|] eqn:Hm;
    [|by rewrite andb_false_r in Hv].
  simpl in Hv. apply andb_true_iff in Hv as [Ht0 Hm0].
  apply negb_true_iff, Z.eqb_neq in Ht0, Hm0.
  exists cart, total, method. repeat split; try done.
  unfold serve, bind at 1, new_Transaction. simpl.
  rewrite (proj2 (Z.eqb_neq _ _) Ht0), (proj2 (Z.eqb_neq _ _) Hm0). done.
Qed.

Lemma tx_query_in_transaction {A} env l (q : Statement A) s0 s c s' :
  in_transaction s0 s → tx_query env l q s = (c, s') → in_transaction s0 s'.
Proof.
  intros (Hc & Ha & Hl & w & Hw) H.
  apply tx_query_inv in H as (? & ? & ? & Htx & _).
  destruct (Htx w Hw) as [w' ?]. unfold in_transaction.
  repeat split; try congruence. eauto.
Qed.

Lemma insert_items_in_transaction env oid line its tr s0 s c s' :
  in_transaction s0 s → insert_items env oid line its tr s = (c, s') →
  in_transaction s0 s'.
Proof.
  intros (Hc & Ha & Hl & w & Hw) H.
  apply insert_items_inv in H as (? & ? & ? & Htx & _).
  destruct (Htx w Hw) as [w' ?]. unfold in_transaction.
  repeat split; try congruence. eauto.
Qed.

Lemma pool_query_Throw {A} env l (q : Statement A) s e s' :
  pool_query env l q s = (Throw e, s') → s' = s.
Proof.
  unfold pool_query. destruct (fault env l); [by intros; simplify_eq|].
  destruct (q (committed s) (idents s)); by intros; simplify_eq.
Qed.

(** Where the [try] block can throw: at [begin], with no transaction
    begun; at a statement, with the transaction open; or at [commit],
    with the transaction open no more. Nothing is committed in any of
    the three. *)
Lemma checkout_try_Throw env its total method uid s e s' :
  checkout_try env its total method uid s = (Throw e, s') →
  (fault env TxBegin = Some e ∧ s' = s) ∨
  in_transaction s s' ∨
  (fault env TxBegin = None ∧ fault env TxCommit = Some e ∧
   committed s' = committed s ∧ activeRequests s' = activeRequests s ∧
   console s' = console s ∧ txn s' = TxRolledBack).
Proof.
  unfold checkout_try. intros H.
  apply bind_Throw in H as [H|(? & s1 & Hbegin & H)].
  { apply tx_begin_inv in H as [(? & _)|(? & ? & ? & ->)]; [done|].
    simplify_eq. by left. }
  apply tx_begin_inv in Hbegin as [(_ & Hb & ->)|(? & ? & _)]; [|done].
  right.
  assert (in_transaction s (set_txn (TxOpen (committed s)) s)) as Hin.
  { unfold in_transaction; simpl; eauto. }
  cbv zeta in H.
  apply bind_Throw in H as [H|(rows & s2 & Hsel & H)].
  { apply pool_query_Throw in H as ->. by left. }
  apply pool_query_Normal in Hsel as (t2 & i2 & _ & Hsel & ->).
  unfold select_game_ids in Hsel. simpl in Hsel.
  destruct (ci_game_id <$> its) as [|k ks] eqn:Hids; [done|].
  simplify_eq.
  destruct (negb _) in H.
  { apply bind_Throw in H as [H|(? & ? & ? & H)];
      unfold console_error, res_json in *; simplify_eq. }
  apply bind_Throw in H as [H|(tr1 & s3 & Hin1 & H)].
  { by rewrite order_inputs in H. }
  rewrite order_inputs in Hin1. simplify_eq.
  apply bind_Throw in H as [H|(oid0 & s3 & Hord & H)].
  { eapply tx_query_in_transaction in H; [by left|]. apply Hin. }
  eapply tx_query_in_transaction in Hord; [|apply Hin].
  apply bind_Throw in H as [H|(tr2 & s4 & Hitems & H)].
  { eapply insert_items_in_transaction in H; [by left|done]. }
  eapply insert_items_in_transaction in Hitems; [|done].
  apply bind_Throw in H as [H|(tr3 & s5 & Hin3 & H)].
  { apply request_inputs_inv in H as [-> _]. by left. }
  apply request_inputs_inv in Hin3 as [-> _].
  apply bind_Throw in H as [H|([] & s5 & Hpay & H)].
  { eapply tx_query_in_transaction in H; [by left|done]. }
  eapply tx_query_in_transaction in Hpay; [|done].
  destruct Hpay as (? & ? & ? & w & Hw).
  apply bind_Throw in H as [H|([] & s6 & Hcommit & H)].
  - apply tx_commit_inv in H
      as [(? & ? & _)|[(e' & w' & ? & _ & Hf & ->)|(_ & Hno & _)]];
      [done| |by destruct (Hno w)].
    simplify_eq. right. simpl. done.
  - unfold res_json in H. done.
Qed.

Lemma checkout_try_no_Normal env its total method uid s a s' :
  checkout_try env its total method uid s ≠ (Normal a, s').
Proof.
  unfold checkout_try. intros H.
  apply bind_Normal in H as (? & s1 & _ & H). cbv zeta in H.
  apply bind_Normal in H as (rows & s2 & _ & H).
  destruct (negb _) in H.
  - apply bind_Normal in H as (? & ? & _ & H). done.
  - do 6 apply bind_Normal in H as (? & ? & _ & H). done.
Qed.

(** The [catch] block, entered with the transaction open. *)
Lemma checkout_catch_open env err s w :
  txn s = TxOpen w → fault env TxRollback = None →
  checkout_catch env err s =
    (Return {| status := 500; body := JError err |},
     set_console (console s ++ ["Checkout error: " +:+ err])
       (set_txn TxRolledBack s)).
Proof.
  intros Hw Hf. unfold checkout_catch, bind.
  by rewrite (tx_rollback_open _ _ _ Hw Hf).
Qed.

(** The [catch] block when its rollback throws: no reply is sent and
    nothing is logged. *)
Lemma checkout_catch_fails env err s w e :
  txn s = TxOpen w → fault env TxRollback = Some e →
  checkout_catch env err s = (Throw e, set_txn TxRolledBack s).
Proof.
  intros Hw Hf. unfold checkout_catch, bind.
  by rewrite (tx_rollback_fails _ _ _ _ Hw Hf).
Qed.

Lemma checkout_catch_closed env err s :
  (∀ w, txn s ≠ TxOpen w) →
  checkout_catch env err s = (Throw not_begun, s).
Proof.
  intros Hw. unfold checkout_catch, bind. by rewrite tx_rollback_closed.
Qed.

(** The [catch] block never answers anything but the 500 reply with the
    message of the error, and commits nothing. *)
Lemma checkout_catch_inv env err s c s' :
  checkout_catch env err s = (c, s') →
  committed s' = committed s ∧ idents s' = idents s ∧
  (∀ w, txn s' ≠ TxOpen w) ∧
  (∀ r, c = Return r → r = {| status := 500; body := JError err |}).
Proof.
  intros H. destruct (txn s) as [|w| |] eqn:Htx.
  2:{ destruct (fault env TxRollback) as [e|] eqn:Hf.
      - rewrite (checkout_catch_fails _ _ _ _ _ Htx Hf) in H. by simplify_eq.
      - rewrite (checkout_catch_open _ _ _ _ Htx Hf) in H. simplify_eq.
        repeat split; try done. by intros ? [= <-]. }
  all: rewrite checkout_catch_closed in H by (by rewrite Htx);
    simplify_eq; by rewrite Htx.
Qed.

(** A successful reply comes from the end of the [try] block. *)
Lemma checkout_success_inv env req s oid s' :
  checkout env req s =
    (Some {| status := 200; body := JOrder true oid |}, s') →
  ∃ cart total method,
    items req = Some cart ∧ totalAmount req = Some total ∧
    paymentMethodId req = Some method ∧
    checkout_try env cart total method (userId req) (set_txn TxNew s) =
      (Return {| status := 200; body := JOrder true oid |}, s').
Proof.
  intros H.
  destruct (checkout_validated req) eqn:Hv.
  2:{ rewrite (checkout_rejected _ _ _ Hv) in H. simplify_eq. }
  destruct (checkout_accepted env req s Hv)
    as (cart & total & method & Hi & Ht & Hm & _ & _ & Heq).
  exists cart, total, method. repeat split; try done.
  rewrite Heq in H. unfold serve, try_catch in H.
  destruct (checkout_try _ _ _ _ _ _) as [[a|r|e] s1] eqn:Htry.
  - by apply checkout_try_no_Normal in Htry.
  - by simplify_eq.
  - destruct (checkout_catch env e s1) as [c s2] eqn:Hcatch.
    apply checkout_catch_inv in Hcatch as (_ & _ & _ & Hr).
    destruct c as [?|r|?]; simplify_eq. by specialize (Hr _ eq_refl).
Qed.

(** ** Checkout: the claims *)

(** C1. A checkout that answers with success has committed exactly one
    new order row, whose status is pending and whose identity is the
    [orderId] of the answer; one new order item per cart line, in cart
    order, each referencing that identity; one new payment row
    referencing it; and for every cart line the stock row of the line's
    game, where the game has one, holds the stock before less the line's
    quantity. *)
Theorem checkout_success env req cart total method s oid s' :
  items req = Some cart →
  totalAmount req = Some total →
  paymentMethodId req = Some method →
  checkout env req s =
    (Some {| status := 200; body := JOrder true oid |}, s') →
  orders (committed s') =
    orders (committed s) ++
      [ {| order_id := oid; o_user_id := or_null (userId req);
           order_date := now env; total_amount := total; o_status_id := 1 |} ] ∧
  status_name order_status 1 = Some "pending" ∧
  (∃ rows,
     order_items (committed s') = order_items (committed s) ++ rows ∧
     length rows = length cart ∧
     Forall2 (λ row item,
                oi_order_id row = oid ∧ oi_game_id row = ci_game_id item ∧
                quantity row = ci_quantity item ∧ oi_price row = ci_price item)
       rows cart) ∧
  (∃ p,
     payments (committed s') = payments (committed s) ++ [p] ∧
     p_order_id p = oid ∧ p_method_id p = method) ∧
  (∀ item, item ∈ cart →
     inventory (committed s') !! ci_game_id item =
       (λ stock, stock - ci_quantity item) <$>
         inventory (committed s) !! ci_game_id item).
Proof.
  intros Hi Ht Hm H.
  destruct (checkout_success_inv _ _ _ _ _ H)
    as (cart' & total' & method' & Hi' & Ht' & Hm' & Htry).
  rewrite Hi in Hi'. rewrite Ht in Ht'. rewrite Hm in Hm'. simplify_eq.
  apply checkout_try_success in Htry
    as (_ & Hnd & _ & -> & _ & _ & Ho & Hoi & Hp & Hinv & _).
  simpl in *. split; [done|]. split; [done|].
  split; [|split].
  - eexists. split; [exact Hoi|].
    split; [apply item_rows_length | apply item_rows_lines].
  - eexists. split; [exact Hp|]. done.
  - intros item Hin. rewrite Hinv. by apply stock_after_line.
Qed.

Lemma checkout_success_witness :
  let s' := (checkout Sample.env
               (Sample.cart_req [Sample.line 1 2 1999] 1)
               Sample.server).2 in
  orders (committed s') =
    [ {| order_id := 1; o_user_id := Some 1; order_date := 1000;
         total_amount := 4497; o_status_id := 1 |} ] ∧
  inventory (committed s') !! 1 = Some 8.
Proof.
  intros s'.
  destruct (checkout_success Sample.env
              (Sample.cart_req [Sample.line 1 2 1999] 1)
              [Sample.line 1 2 1999] 4497 1
              Sample.server 1 s' eq_refl eq_refl eq_refl)
    as (Ho & _ & _ & _ & Hinv).
  - vm_compute. reflexivity.
  - split; [exact Ho|].
    apply (Hinv (Sample.line 1 2 1999)). apply list_elem_of_here.
Defined.

(** With the identity counter of [orders] ahead of every order id in the
    store, the rows the successful checkout added are the only ones that
    carry its [orderId]. *)
Lemma no_row_with_id {A} (f : A → Z) (n : Z) (l : list A) :
  Forall (λ x, f x < n) l → filter (λ x, f x = n) l = [].
Proof.
  induction 1 as [|x l Hx _ IH]; [done|].
  rewrite filter_cons, decide_False by lia. done.
Qed.

Lemma item_rows_all oid first its :
  filter (λ it, oi_order_id it = oid) (item_rows oid first its)
  = item_rows oid first its.
Proof.
  revert first. induction its as [|item rest IH]; intros first; simpl; [done|].
  rewrite filter_cons, decide_True by done. by rewrite IH.
Qed.

Lemma checkout_success_counts env req cart s oid s' :
  order_ids_issued s →
  items req = Some cart →
  checkout env req s =
    (Some {| status := 200; body := JOrder true oid |}, s') →
  length (filter (λ o, order_id o = oid) (orders (committed s'))) = 1%nat ∧
  length (filter (λ it, oi_order_id it = oid) (order_items (committed s')))
    = length cart ∧
  length (filter (λ p, p_order_id p = oid) (payments (committed s'))) = 1%nat.
Proof.
  intros (Ho & Hoi & Hp) Hi H.
  destruct (checkout_success_inv _ _ _ _ _ H)
    as (cart' & total & method & Hi' & _ & _ & Htry).
  rewrite Hi in Hi'. simplify_eq.
  apply checkout_try_success in Htry
    as (_ & _ & _ & -> & _ & _ & -> & -> & -> & _ & _).
  simpl in *. rewrite !filter_app.
  rewrite (no_row_with_id order_id) by done.
  rewrite (no_row_with_id oi_order_id) by done.
  rewrite (no_row_with_id p_order_id) by done.
  rewrite item_rows_all.
  rewrite !filter_cons, !decide_True by done. simpl.
  by rewrite item_rows_length.
Qed.

(** For a request past the field check whose [try] block throws, the
    outcome is that of the [catch] block. *)
Lemma checkout_thrown env req s e s1 :
  checkout_validated req = true →
  checkout_try env (default [] (items req)) (default 0 (totalAmount req))
    (default 0 (paymentMethodId req)) (userId req) (set_txn TxNew s)
  = (Throw e, s1) →
  checkout env req s = serve (checkout_catch env e) s1.
Proof.
  intros Hv Htry.
  destruct (checkout_accepted env req s Hv)
    as (cart & total & method & Hi & Ht & Hm & _ & _ & ->).
  rewrite Hi, Ht, Hm in Htry. simpl in Htry.
  unfold serve, try_catch. by rewrite Htry.
Qed.

(** The reply of a checkout whose [try] block throws with the
    transaction open. *)
Lemma checkout_thrown_open env req s e s1 :
  checkout_validated req = true →
  checkout_try env (default [] (items req)) (default 0 (totalAmount req))
    (default 0 (paymentMethodId req)) (userId req) (set_txn TxNew s)
  = (Throw e, s1) →
  in_transaction (set_txn TxNew s) s1 →
  fault env TxRollback = None →
  ∃ s',
    checkout env req s = (Some {| status := 500; body := JError e |}, s') ∧
    committed s' = committed s ∧ txn s' = TxRolledBack ∧
    console s' = console s ++ ["Checkout error: " +:+ e].
Proof.
  intros Hv Htry (Hc & _ & Hl & w & Hw) Hf.
  rewrite (checkout_thrown _ _ _ _ _ Hv Htry).
  unfold serve. rewrite (checkout_catch_open _ _ _ _ Hw Hf).
  eexists. split; [done|]. simpl in *. by rewrite Hc, Hl.
Qed.

(** A checkout whose [try] block throws commits nothing, and its only
    answer is the 500 reply with the message of the error. *)
Lemma checkout_raises_outcome env req s e :
  checkout_raises env req s e →
  ∃ reply s',
    checkout env req s = (reply, s') ∧ committed s' = committed s ∧
    (∀ r, reply = Some r → r = {| status := 500; body := JError e |}).
Proof.
  intros [Hv [s1 Htry]].
  rewrite (checkout_thrown _ _ _ _ _ Hv Htry).
  assert (committed s1 = committed s) as Hc1.
  { apply checkout_try_Throw in Htry
      as [[_ ->]|[(? & _)|(_ & _ & ? & _)]]; done. }
  unfold serve. destruct (checkout_catch env e s1) as [c s2] eqn:Hcatch.
  apply checkout_catch_inv in Hcatch as (Hc & _ & _ & Hr).
  destruct c as [?|r|?]; eexists _, _; (split; [reflexivity|]);
    (split; [congruence|]); intros r' ?; simplify_eq.
  by rewrite (Hr _ eq_refl).
Qed.

(** With the transaction control working, the [try] block throws with
    the transaction open, and the [catch] block answers. *)
Lemma checkout_raises_reply env req s e :
  tx_works env →
  checkout_raises env req s e →
  ∃ s',
    checkout env req s = (Some {| status := 500; body := JError e |}, s') ∧
    committed s' = committed s ∧ txn s' = TxRolledBack ∧
    console s' = console s ++ ["Checkout error: " +:+ e].
Proof.
  intros (Hb & Hco & Hrb) [Hv [s1 Htry]].
  apply (checkout_thrown_open _ _ _ _ s1); try done.
  apply checkout_try_Throw in Htry as [[? _]|[?|(_ & ? & _)]];
    [congruence | done | congruence].
Qed.

(** When it is [begin] that throws, the rollback of the [catch] block
    throws in turn: the request gets no reply, and nothing is logged. *)
Lemma checkout_begin_throws env req s e :
  checkout_validated req = true →
  fault env TxBegin = Some e →
  checkout env req s = (None, set_txn TxNew s).
Proof.
  intros Hv Hf.
  rewrite (checkout_thrown _ _ _ e (set_txn TxNew s) Hv).
  - unfold serve. by rewrite checkout_catch_closed.
  - unfold checkout_try, bind, tx_begin. by rewrite Hf.
Qed.

Lemma sample_tx_works : tx_works Sample.env.
Proof. by repeat split. Qed.

(** C2, as the code has it. When a step of the checkout raises an error,
    no row of the attempt is committed, and no answer but HTTP 500 is
    sent. Where the store begins, commits and rolls back as it is asked,
    the transaction is rolled back, the error is logged and the caller
    receives the 500, whose body carries the message of the original
    error as its [error] field. Where it is [begin] that raised, the
    rollback of the catch block throws in turn: nothing is logged and
    the caller receives no response. *)
Theorem checkout_error_rolled_back env req s e :
  checkout_raises env req s e →
  ∃ reply s',
    checkout env req s = (reply, s') ∧
    committed s' = committed s ∧
    (∀ r, reply = Some r → r = {| status := 500; body := JError e |}) ∧
    (tx_works env →
     reply = Some {| status := 500; body := JError e |} ∧
     txn s' = TxRolledBack ∧
     console s' = console s ++ ["Checkout error: " +:+ e]) ∧
    (∀ m, fault env TxBegin = Some m →
          reply = None ∧ console s' = console s).
Proof.
  intros Hraises.
  destruct (checkout_raises_outcome _ _ _ _ Hraises)
    as (reply & s' & Hreply & Hc & Hr).
  exists reply, s'. repeat split; try done.
  - destruct (checkout_raises_reply _ _ _ _ H Hraises) as (? & ? & _).
    congruence.
  - destruct (checkout_raises_reply _ _ _ _ H Hraises) as (? & ? & _ & ? & _).
    congruence.
  - destruct (checkout_raises_reply _ _ _ _ H Hraises) as (? & ? & _ & _ & ?).
    congruence.
  - destruct Hraises as [Hv _].
    rewrite (checkout_begin_throws _ _ _ _ Hv H) in Hreply. congruence.
  - destruct Hraises as [Hv _].
    rewrite (checkout_begin_throws _ _ _ _ Hv H) in Hreply. by simplify_eq.
Qed.

(** A payment method that is not in [payment_methods]: the order and its
    item are inserted, then the payment insert fails. *)
Lemma sample_checkout_raises :
  checkout_raises Sample.env (Sample.cart_req [Sample.line 1 2 1999] 9)
    Sample.server (fk_error "payments.method_id").
Proof. split; [reflexivity|]. eexists. vm_compute. reflexivity. Qed.

Lemma checkout_error_rolled_back_witness :
  (∃ s',
     checkout Sample.env (Sample.cart_req [Sample.line 1 2 1999] 9)
       Sample.server =
       (Some {| status := 500;
                body := JError (fk_error "payments.method_id") |}, s') ∧
     committed s' = Sample.tables ∧ txn s' = TxRolledBack ∧
     console s' = ["Checkout error: " +:+ fk_error "payments.method_id"]) ∧
  (∃ s',
     checkout Sample.offline (Sample.cart_req [Sample.line 1 2 1999] 1)
       Sample.server = (None, s') ∧
     committed s' = Sample.tables ∧ console s' = []).
Proof.
  split.
  - destruct (checkout_error_rolled_back Sample.env
                (Sample.cart_req [Sample.line 1 2 1999] 9) Sample.server
                (fk_error "payments.method_id"))
      as (reply & s' & Heq & Hc & _ & Hworks & _).
    { split; [reflexivity|]. eexists. vm_compute. reflexivity. }
    destruct Hworks as (-> & Htx & Hlog).
    { repeat split; reflexivity. }
    exists s'. repeat split; assumption.
  - destruct (checkout_error_rolled_back Sample.offline
                (Sample.cart_req [Sample.line 1 2 1999] 1) Sample.server
                "Connection is closed.")
      as (reply & s' & Heq & Hc & _ & _ & Hbegin).
    { split; [reflexivity|]. eexists. vm_compute. reflexivity. }
    destruct (Hbegin "Connection is closed." eq_refl) as (-> & Hlog).
    exists s'. repeat split; assumption.
Defined.

(** The claim that the detail of the error is never in the response body
    fails. *)
Lemma checkout_error_detail_exposed :
  ¬ (∀ env req s e,
       checkout_raises env req s e →
       ∀ r s', checkout env req s = (Some r, s') →
               status r = 500 ∧ body r ≠ JError e).
Proof.
  intros H.
  destruct (checkout_raises_reply _ _ _ _ sample_tx_works
              sample_checkout_raises) as (s' & Hreply & _).
  destruct (H _ _ _ _ sample_checkout_raises _ _ Hreply) as [_ Hbody].
  by apply Hbody.
Qed.

(** The catalog lookup rejects a cart whose lines do not match as many
    rows of [games]: HTTP 400 with nothing written; the transaction has
    been begun and holds the rows it started from. *)
Lemma checkout_mismatch env req cart s :
  checkout_validated req = true →
  items req = Some cart →
  fault env TxBegin = None →
  fault env SelectGameIds = None →
  cart ≠ [] →
  length (game_ids_in (ci_game_id <$> cart) (games (committed s)))
    ≠ length (ci_game_id <$> cart) →
  ∃ s',
    checkout env req s =
      (Some {| status := 400;
               body := JMessage false "One or more game IDs are invalid." |},
       s') ∧
    committed s' = committed s ∧ idents s' = idents s ∧
    txn s' = TxOpen (committed s).
Proof.
  intros Hv Hi Hb Hf Hne Hlen.
  destruct (checkout_accepted env req s Hv)
    as (cart' & total & method & Hi' & _ & _ & _ & _ & ->).
  rewrite Hi in Hi'. simplify_eq.
  unfold serve, try_catch, checkout_try, bind, tx_begin, pool_query,
    select_game_ids. simpl. rewrite Hb, Hf.
  destruct cart' as [|item rest]; [done|].
  rewrite fmap_cons. rewrite fmap_cons in Hlen.
  apply Nat.eqb_neq in Hlen. simpl. simpl in Hlen. rewrite Hlen. simpl.
  eexists. split; [reflexivity|]. done.
Qed.




(** C9. A checkout request that passes the field check and names the same
    game on more than one line is refused by the catalog lookup with HTTP
    400 "One or more game IDs are invalid.", also when every game it names
    exists, and no row is created. (Stated where neither [begin] nor the
    lookup itself fails.) *)
Theorem checkout_repeated_game env req cart s :
  checkout_validated req = true →
  items req = Some cart →
  fault env TxBegin = None →
  fault env SelectGameIds = None →
  ¬ NoDup (ci_game_id <$> cart) →
  (∀ item, item ∈ cart → is_Some (games (committed s) !! ci_game_id item)) →
  ∃ s',
    checkout env req s =
      (Some {| status := 400;
               body := JMessage false "One or more game IDs are invalid." |},
       s') ∧
    committed s' = committed s ∧ idents s' = idents s.
Proof.
  intros Hv Hi Hb Hf Hdup _.
  destruct (checkout_mismatch env req cart s) as (s' & ? & ? & ? & _);
    try done.
  - intros ->. apply Hdup. constructor.
  - intros Hlen. by apply game_ids_in_length in Hlen as [? _].
  - eauto.
Qed.

Lemma checkout_repeated_game_witness :
  ∃ s',
    checkout Sample.env
      (Sample.cart_req [Sample.line 1 2 1999; Sample.line 1 1 1999] 1)
      Sample.server =
      (Some {| status := 400;
               body := JMessage false "One or more game IDs are invalid." |},
       s') ∧
    committed s' = Sample.tables ∧ idents s' = Sample.counters.
Proof.
  apply (checkout_repeated_game Sample.env
           (Sample.cart_req [Sample.line 1 2 1999; Sample.line 1 1 1999] 1)
           [Sample.line 1 2 1999; Sample.line 1 1 1999] Sample.server).
  - reflexivity.
  - reflexivity.
  - reflexivity.
  - reflexivity.
  - intros Hnd. apply NoDup_cons in Hnd as [Hnotin _].
    apply Hnotin, list_elem_of_here.
  - intros item Hin. apply elem_of_cons in Hin as [->|Hin].
    + vm_compute. eauto.
    + apply elem_of_cons in Hin as [->|Hin]; [|by inversion Hin].
      vm_compute. eauto.
Defined.

(** C4 at an empty cart. With [items] an empty array the field check
    passes ([![]] is false); the catalog lookup is sent with an empty [IN]
    list and fails, and the handler answers HTTP 500, not 400. (Stated
    where the transaction is begun and rolled back as asked.) *)
Theorem checkout_empty_cart env req s :
  items req = Some [] →
  truthy_num (totalAmount req) = true →
  truthy_num (paymentMethodId req) = true →
  fault env TxBegin = None →
  fault env TxRollback = None →
  ∃ e s',
    checkout env req s = (Some {| status := 500; body := JError e |}, s') ∧
    committed s' = committed s ∧
    (fault env SelectGameIds = None → e = "Incorrect syntax near ')'.").
Proof.
  intros Hi Ht Hm Hb Hrb.
  assert (checkout_validated req = true) as Hv.
  { unfold checkout_validated. by rewrite Hi, Ht, Hm. }
  set (s1 := set_txn (TxOpen (committed s)) (set_txn TxNew s)).
  assert (in_transaction (set_txn TxNew s) s1) as Hin.
  { unfold in_transaction. simpl. eauto. }
  destruct (fault env SelectGameIds) as [msg|] eqn:Hf.
  - destruct (checkout_thrown_open env req s msg s1) as (s' & ? & ? & _);
      try done.
    + rewrite Hi. unfold checkout_try, bind, tx_begin, pool_query. simpl.
      by rewrite Hb, Hf.
    + exists msg, s'. done.
  - destruct (checkout_thrown_open env req s "Incorrect syntax near ')'." s1)
      as (s' & ? & ? & _); try done.
    + rewrite Hi. unfold checkout_try, bind, tx_begin, pool_query. simpl.
      by rewrite Hb, Hf.
    + eauto.
Qed.

Lemma checkout_empty_cart_witness :
  ∃ e s',
    checkout Sample.env (Sample.cart_req [] 1) Sample.server =
      (Some {| status := 500; body := JError e |}, s') ∧
    committed s' = Sample.tables ∧
    (fault Sample.env SelectGameIds = None → e = "Incorrect syntax near ')'.").
Proof.
  apply (checkout_empty_cart Sample.env (Sample.cart_req [] 1) Sample.server);
    reflexivity.
Defined.

(** ** Game creation: the in-flight marker *)

(** However the [try] block of the game creation completes, it commits
    nothing and uses no identity (the insert is refused); it ends with
    one of the replies, or by throwing, and then with the transaction
    open unless it was the transaction control that threw. *)
Lemma add_game_try_completes env req s c s' :
  add_game_try env req s = (c, s') →
  activeRequests s' = activeRequests s ∧ committed s' = committed s ∧
  idents s' = idents s ∧ console s' = console s ∧
  match c with
  | Normal _ => False
  | Return r =>
      r ∈ add_game_replies ∧
      r ≠ {| status := 200; body := JMessage true "Game added successfully." |}
  | Throw _ => tx_works env → ∃ w, txn s' = TxOpen w
  end.
Proof.
  unfold add_game_try, add_game_replies, tx_works. intros H.
  unfold_handler. unfold select_title, insert_game in H. simpl in H.
  repeat (case_match; simpl in *; simplify_eq); simpl;
    repeat (split; [done|]);
    try (intros (? & ? & ?); by (congruence || eauto));
    (split; [|done]);
    repeat (first [apply list_elem_of_here | apply list_elem_of_further]).
Qed.

Lemma duplicate_request_not_a_reply : duplicate_request ∉ add_game_replies.
Proof.
  unfold add_game_replies, duplicate_request.
  rewrite !not_elem_of_cons. repeat split; try discriminate.
  apply not_elem_of_nil.
Qed.

Lemma add_then_delete (id : string) (X : gset string) :
  id ∉ X → ({[id]} ∪ X) ∖ {[id]} = X.
Proof.
  intros Hid. apply set_eq. intros x.
  rewrite elem_of_difference, elem_of_union, elem_of_singleton.
  split.
  - intros [[Hx|Hx] Hne]; done.
  - intros Hx. split; [by right|]. by intros ->.
Qed.

(** The [catch] blocks of the transactional handlers roll back, log and
    answer: either the transaction was open and the rollback went
    through, and the fixed reply is sent; or the rollback throws, and the
    block ends there, with nothing logged and no reply. *)
Lemma rollback_then_reply {A} env line code b s (c : Completion A) s' :
  bind (tx_rollback env)
    (λ _, bind (console_error line) (λ _, res_json code b)) s = (c, s') →
  committed s' = committed s ∧ idents s' = idents s ∧
  activeRequests s' = activeRequests s ∧
  ((∃ w, txn s = TxOpen w ∧ fault env TxRollback = None ∧
         c = Return {| status := code; body := b |} ∧
         s' = set_console (console s ++ [line]) (set_txn TxRolledBack s)) ∨
   (∃ e, c = Throw e ∧ console s' = console s ∧
         ∀ w, txn s = TxOpen w → fault env TxRollback = Some e)).
Proof.
  unfold bind, tx_rollback, console_error, res_json. intros H.
  destruct (txn s) as [|w| |] eqn:Htx;
    try (simplify_eq; repeat (split; [done|]); right; exists not_begun;
         by repeat split).
  destruct (fault env TxRollback) as [e|] eqn:Hf; simplify_eq; simpl;
    repeat (split; [done|]).
  - right. exists e. by repeat split.
  - left. eauto 10.
Qed.

(** A request whose identifier is not in flight is processed; whatever
    the outcome, also when no reply can be sent, the set of identifiers
    in flight is afterwards what it was before. Nothing is committed on
    any way out. *)
Lemma add_game_processed env req s :
  g_role req = Some "admin" →
  request_id env req ∉ activeRequests s →
  ∃ reply s',
    add_game env req s = (reply, s') ∧
    (∀ r, reply = Some r →
          r ∈ add_game_replies ∧
          r ≠ {| status := 200;
                 body := JMessage true "Game added successfully." |}) ∧
    (tx_works env → is_Some reply) ∧
    activeRequests s' = activeRequests s ∧
    committed s' = committed s ∧ idents s' = idents s.
Proof.
  intros Hrole Hid.
  unfold add_game, serve, add_game_handler, validateAdmin.
  rewrite Hrole, bool_decide_eq_true_2 by done.
  rewrite bool_decide_eq_false_2 by done.
  unfold bind at 1, activeRequests_add.
  unfold bind at 1, new_Transaction.
  unfold try_finally, try_catch.
  destruct (add_game_try env req _) as [c s2] eqn:Htry.
  apply add_game_try_completes in Htry as (Hact & Hc2 & Hi2 & _ & Hc).
  simpl in Hact, Hc2, Hi2.
  pose proof (add_then_delete (request_id env req) _ Hid) as Hrelease.
  destruct c as [a|r|e].
  - done.
  - unfold activeRequests_delete. eexists _, _. split; [reflexivity|].
    simpl. rewrite Hact.
    split; [by intros ? [= <-]|]. split; [by eauto|]. done.
  - destruct (bind (tx_rollback env) _ s2) as [c3 s3] eqn:Hcatch.
    apply rollback_then_reply in Hcatch
      as (Hc3 & Hi3 & Ha3 & [(w & Hw & Hf & -> & ->)|(e' & -> & _ & Hno)]).
    + unfold activeRequests_delete. eexists _, _. split; [reflexivity|].
      simpl. rewrite Hact.
      split; [|split; [by eauto|done]].
      intros ? [= <-]. split; [|done]. unfold add_game_replies.
      do 3 apply list_elem_of_further. apply list_elem_of_here.
    + unfold activeRequests_delete. eexists _, _. split; [reflexivity|].
      simpl. rewrite Ha3, Hact.
      split; [done|]. split; [|split; [done|split; congruence]].
      intros Hworks. destruct (Hc Hworks) as [w Hw].
      destruct Hworks as (_ & _ & Hrb). specialize (Hno _ Hw). congruence.
Qed.

(** C5. A game-creation request whose identifier is in the in-flight set
    is answered at once with HTTP 400 "Duplicate request detected." and
    changes nothing. A request whose identifier is not in the set is
    processed, and on each of its ways out (added, field missing, title
    taken, store failure, and also where the rollback of the catch block
    throws and no reply is sent) the identifier is taken out of the set
    again: a later request with the same identifier is processed too, not
    refused as a duplicate. Where the store begins, commits and rolls
    back as asked, each of the two requests is answered. *)
Theorem add_game_in_flight_marker env req s :
  g_role req = Some "admin" →
  (request_id env req ∈ activeRequests s →
   add_game env req s = (Some duplicate_request, s)) ∧
  (request_id env req ∉ activeRequests s →
   ∃ reply s',
     add_game env req s = (reply, s') ∧
     (∀ r, reply = Some r → r ∈ add_game_replies) ∧
     (tx_works env → is_Some reply) ∧
     (request_id env req ∉ activeRequests s') ∧
     (∀ env2 req2,
        g_role req2 = Some "admin" →
        request_id env2 req2 = request_id env req →
        ∃ reply2 s2,
          add_game env2 req2 s' = (reply2, s2) ∧
          reply2 ≠ Some duplicate_request ∧
          (tx_works env2 → is_Some reply2))).
Proof.
  intros Hrole. split.
  - intros Hid.
    unfold add_game, serve, add_game_handler, validateAdmin.
    rewrite Hrole, bool_decide_eq_true_2 by done.
    rewrite bool_decide_eq_true_2 by done. done.
  - intros Hid.
    destruct (add_game_processed env req s Hrole Hid)
      as (reply & s' & Hr & Hin & Hans & Hact & _).
    exists reply, s'. split; [done|].
    split; [intros r Hreply; by apply Hin|]. split; [done|].
    split; [by rewrite Hact|].
    intros env2 req2 Hrole2 Hsame.
    destruct (add_game_processed env2 req2 s' Hrole2)
      as (reply2 & s2 & Hr2 & Hin2 & Hans2 & _).
    { by rewrite Hsame, Hact. }
    exists reply2, s2. split; [done|]. split; [|done].
    intros ->. destruct (Hin2 _ eq_refl) as [Hdup _].
    by apply duplicate_request_not_a_reply.
Qed.

Lemma add_game_in_flight_marker_witness :
  let busy := set_activeRequests {["req-1"]} Sample.server in
  add_game Sample.env Sample.new_game busy = (Some duplicate_request, busy) ∧
  ∃ reply s',
    add_game Sample.env Sample.new_game Sample.server = (reply, s') ∧
    (∀ r, reply = Some r → r ∈ add_game_replies) ∧
    (tx_works Sample.env → is_Some reply) ∧
    (request_id Sample.env Sample.new_game ∉ activeRequests s') ∧
    (∀ env2 req2,
       g_role req2 = Some "admin" →
       request_id env2 req2 = request_id Sample.env Sample.new_game →
       ∃ reply2 s2,
         add_game env2 req2 s' = (reply2, s2) ∧
         reply2 ≠ Some duplicate_request ∧
         (tx_works env2 → is_Some reply2)).
Proof.
  intros busy. split.
  - apply (proj1 (add_game_in_flight_marker Sample.env Sample.new_game busy
                    eq_refl)).
    change ("req-1" ∈ ({["req-1"]} : gset string)).
    rewrite elem_of_singleton. reflexivity.
  - apply (proj2 (add_game_in_flight_marker Sample.env Sample.new_game
                    Sample.server eq_refl)).
    change ("req-1" ∉ (∅ : gset string)).
    apply not_elem_of_empty.
Defined.

(** ** Registration *)

Lemma email_taken {B} (f : User → B) l mail :
  (0 <? length (f <$> filter (λ u, email u = mail) l))%nat
  = bool_decide (mail ∈ email <$> l).
Proof.
  induction l as [|u l IH].
  - rewrite bool_decide_eq_false_2; [done | apply not_elem_of_nil].
  - rewrite filter_cons, fmap_cons.
    destruct (decide (email u = mail)) as [<-|Hne].
    + rewrite bool_decide_eq_true_2; [done | apply list_elem_of_here].
    + rewrite IH. apply bool_decide_ext. rewrite elem_of_cons.
      split; [auto | by intros [?|?]].
Qed.

Lemma emails_count l mail :
  mail ∉ email <$> l → filter (λ u, email u = mail) l = [].
Proof.
  induction l as [|u l IH]; simpl; [done|].
  rewrite not_elem_of_cons. intros [Hne Hl].
  rewrite filter_cons, decide_False by done. auto.
Qed.

Lemma set_store_same s : set_committed (committed s) (set_idents (idents s) s) = s.
Proof. by destruct s. Qed.

(** The fields of a complete register request. *)
Lemma register_complete_fields req :
  register_complete req = true →
  ∃ name mail pw role,
    r_username req = Some name ∧ r_email req = Some mail ∧
    r_password req = Some pw ∧ r_role req = Some role ∧
    name ≠ "" ∧ mail ≠ "" ∧ pw ≠ "" ∧ role ≠ "".
Proof.
  unfold register_complete. rewrite !andb_true_iff. intros [[[Hn Hm] Hp] Hr].
  destruct (r_username req) as [name|], (r_email req) as [mail|],
    (r_password req) as [pw|], (r_role req) as [role|]; try done.
  simpl in *. apply negb_true_iff, String.eqb_neq in Hn, Hm, Hp, Hr.
  eauto 12.
Qed.

Lemma register_checked env req s :
  register_complete req = true →
  register env req s =
    serve
      (try_catch
         (let* check := pool_query env CheckEmail
                          (select_email (default "" (r_email req))) in
          if (0 <? length check)%nat
          then res_json 200 (JMessage false "Email is already registered.")
          else
            pool_query env InsertUser
              (insert_user (default "" (r_username req))
                 (default "" (r_email req))
                 (bcrypt_hash env (default "" (r_password req)))
                 (if String.eqb (default "" (r_role req)) "admin" then 2 else 1)) ;;
            res_json 200 (JMessage true "Registration successful."))
         (λ err,
           console_error ("Registration error: " +:+ err) ;;
           res_json 500 (JMessage false "Server error during registration.")))
      s.
Proof.
  unfold register_complete, register, register_handler.
  rewrite !andb_true_iff. intros [[[-> ->] ->] ->]. done.
Qed.

Lemma register_taken env req s :
  register_complete req = true →
  fault env CheckEmail = None →
  default "" (r_email req) ∈ email <$> users (committed s) →
  register env req s =
    (Some {| status := 200;
             body := JMessage false "Email is already registered." |}, s).
Proof.
  intros Hc Hf Hin. rewrite register_checked by done.
  unfold serve, try_catch, bind, pool_query, select_email. rewrite Hf.
  cbv beta iota.
  rewrite email_taken, bool_decide_eq_true_2 by done.
  unfold res_json. by rewrite set_store_same.
Qed.

Lemma register_fresh env req s :
  register_complete req = true →
  fault env CheckEmail = None →
  fault env InsertUser = None →
  default "" (r_email req) ∉ email <$> users (committed s) →
  ∃ s',
    register env req s =
      (Some {| status := 200;
               body := JMessage true "Registration successful." |}, s') ∧
    users (committed s') =
      users (committed s) ++
        [ {| user_id := next_user_id (idents s);
             username := default "" (r_username req);
             email := default "" (r_email req);
             password := bcrypt_hash env (default "" (r_password req));
             role_id :=
               if String.eqb (default "" (r_role req)) "admin" then 2 else 1 |} ].
Proof.
  intros Hc Hf1 Hf2 Hnotin. rewrite register_checked by done.
  unfold serve, try_catch, bind, pool_query, select_email. rewrite Hf1.
  cbv beta iota.
  rewrite email_taken, bool_decide_eq_false_2 by done.
  rewrite Hf2. unfold insert_user. simpl.
  rewrite bool_decide_eq_false_2 by done.
  destruct (String.eqb _ "admin"); simpl; eexists; (split; [reflexivity|done]).
Qed.

(** What a successful registration has done. *)
Lemma register_success_inv env req s s' :
  register env req s =
    (Some {| status := 200;
             body := JMessage true "Registration successful." |}, s') →
  register_complete req = true ∧
  (default "" (r_email req) ∉ email <$> users (committed s)) ∧
  ∃ u, users (committed s') = users (committed s) ++ [u] ∧
       email u = default "" (r_email req).
Proof.
  intros H.
  destruct (register_complete req) eqn:Hc.
  2:{ unfold register_complete in Hc. unfold register, register_handler, serve in H.
      rewrite !andb_false_iff in Hc.
      destruct Hc as [[[Hc|Hc]|Hc]|Hc]; rewrite Hc in H; simpl in H;
        repeat (rewrite ?orb_true_r in H; simpl in H); simplify_eq. }
  split; [done|].
  rewrite register_checked in H by done.
  unfold serve, try_catch, bind, pool_query, select_email in H.
  destruct (fault env CheckEmail); [simpl in H; simplify_eq|].
  cbv beta iota in H. rewrite email_taken in H.
  destruct (bool_decide _) eqn:Hb in H; [simpl in H; simplify_eq|].
  apply bool_decide_eq_false in Hb. split; [done|].
  destruct (fault env InsertUser); [simpl in H; simplify_eq|].
  unfold insert_user in H. simpl in H.
  rewrite bool_decide_eq_false_2 in H by done.
  destruct (negb _) in H; simpl in H; simplify_eq.
  simpl. eauto.
Qed.

(** C6, as the code has it. When a registration has succeeded, a second
    complete register request with the same email is refused with the
    message "Email is already registered." and inserts nothing, so exactly
    one user row has that email; the refusal is sent with [res.json] and no
    status call, that is with HTTP status 200 and [success: false]. *)
Theorem register_same_email_twice env1 env2 req1 req2 mail s s1 :
  r_email req1 = Some mail →
  r_email req2 = Some mail →
  register_complete req2 = true →
  fault env2 CheckEmail = None →
  register env1 req1 s =
    (Some {| status := 200;
             body := JMessage true "Registration successful." |}, s1) →
  register env2 req2 s1 =
    (Some {| status := 200;
             body := JMessage false "Email is already registered." |}, s1) ∧
  length (filter (λ u, email u = mail) (users (committed s1))) = 1%nat.
Proof.
  intros Hm1 Hm2 Hc2 Hf H1.
  apply register_success_inv in H1 as (_ & Hnotin & u & Hu & Hmail).
  rewrite Hm1 in Hnotin, Hmail. simpl in Hnotin, Hmail.
  split.
  - apply register_taken; try done.
    rewrite Hm2, Hu, fmap_app, elem_of_app. simpl. right.
    rewrite Hmail. apply list_elem_of_here.
  - rewrite Hu, filter_app, (emails_count _ _ Hnotin).
    rewrite filter_cons, decide_True by done. done.
Qed.

Lemma register_same_email_twice_witness :
  let s1 := (register Sample.env (Sample.sign_up "bob@example.com" "customer")
               Sample.server).2 in
  register Sample.env (Sample.sign_up "bob@example.com" "admin") s1 =
    (Some {| status := 200;
             body := JMessage false "Email is already registered." |}, s1) ∧
  length (filter (λ u, email u = "bob@example.com") (users (committed s1)))
    = 1%nat.
Proof.
  intros s1.
  apply (register_same_email_twice Sample.env Sample.env
           (Sample.sign_up "bob@example.com" "customer")
           (Sample.sign_up "bob@example.com" "admin")
           "bob@example.com" Sample.server s1);
    try reflexivity.
Defined.

(** C6, as stated, fails: the refusal of the second registration does not
    carry HTTP status 400. *)
Lemma register_conflict_not_400 :
  ¬ (∀ env1 env2 req1 req2 mail s s1,
       r_email req1 = Some mail →
       r_email req2 = Some mail →
       register_complete req2 = true →
       fault env2 CheckEmail = None →
       register env1 req1 s =
         (Some {| status := 200;
                  body := JMessage true "Registration successful." |}, s1) →
       ∃ r s2, register env2 req2 s1 = (Some r, s2) ∧ status r = 400).
Proof.
  intros H.
  destruct (H Sample.env Sample.env
              (Sample.sign_up "bob@example.com" "customer")
              (Sample.sign_up "bob@example.com" "customer")
              "bob@example.com" Sample.server
              (register Sample.env (Sample.sign_up "bob@example.com" "customer")
                 Sample.server).2)
    as (r & s2 & Hr & Hstatus); try reflexivity.
  vm_compute in Hr. simplify_eq.
Qed.

(** C10. A complete register request with an email not yet in [users]
    succeeds and stores one user row, whose [role_id] is 2 when the role
    string is exactly "admin" and 1 for every other role string: a role
    name the server does not know is not refused. *)
Theorem register_role_mapping env req mail role s :
  register_complete req = true →
  r_email req = Some mail →
  r_role req = Some role →
  mail ∉ email <$> users (committed s) →
  fault env CheckEmail = None →
  fault env InsertUser = None →
  ∃ s' u,
    register env req s =
      (Some {| status := 200;
               body := JMessage true "Registration successful." |}, s') ∧
    users (committed s') = users (committed s) ++ [u] ∧
    email u = mail ∧
    (role = "admin" → role_id u = 2) ∧
    (role ≠ "admin" → role_id u = 1).
Proof.
  intros Hc Hm Hr Hnotin Hf1 Hf2.
  destruct (register_fresh env req s) as (s' & Hreg & Hu); try done.
  { by rewrite Hm. }
  eexists s', _. split; [exact Hreg|]. split; [exact Hu|].
  rewrite Hm, Hr. simpl. split; [done|]. split.
  - intros ->. done.
  - intros Hne. apply String.eqb_neq in Hne. by rewrite Hne.
Qed.

Lemma register_role_mapping_witness :
  ∃ s' u,
    register Sample.env (Sample.sign_up "bob@example.com" "Admin")
      Sample.server =
      (Some {| status := 200;
               body := JMessage true "Registration successful." |}, s') ∧
    users (committed s') = users Sample.tables ++ [u] ∧
    email u = "bob@example.com" ∧
    ("Admin" = "admin" → role_id u = 2) ∧
    ("Admin" ≠ "admin" → role_id u = 1).
Proof.
  apply (register_role_mapping Sample.env
           (Sample.sign_up "bob@example.com" "Admin")
           "bob@example.com" "Admin" Sample.server); try reflexivity.
  simpl. rewrite list_elem_of_singleton. discriminate.
Defined.

(** ** Login *)


(** The reply of a login, by the account its select finds. *)
Lemma login_reply env req s :
  fault env SelectUser = None →
  (login env req s).1 =
    match login_account (committed s) (l_email req) with
    | None =>
        Some {| status := 200;
                body := JMessage false "Invalid email or password." |}
    | Some user =>
        match l_password req with
        | None => Some {| status := 500; body := JMessage false "Server error." |}
        | Some pw =>
            if negb (bcrypt_compare env pw (password user))
            then Some {| status := 200;
                         body := JMessage false "Invalid email or password." |}
            else
              match l_role req with
              | None =>
                  Some {| status := 500; body := JMessage false "Server error." |}
              | Some role =>
                  if negb (String.eqb (role_name user) (toLowerCase role))
                  then Some {| status := 200;
                               body := JMessage false
                                 ("Access denied: not a " +:+ role +:+ ".") |}
                  else Some {| status := 200;
                               body := JLogin true (role_name user)
                                         (user_id user) |}
              end
        end
    end.
Proof.
  intros Hf.
  unfold login, login_handler, login_account, compare_password,
    role_toLowerCase, select_user.
  unfold_handler. rewrite Hf. cbv beta iota.
  destruct (filter _ (users (committed s))) as [|user rest]; [done|].
  simpl.
  destruct (l_password req) as [pw|]; [|done].
  destruct (bcrypt_compare env pw (password user)); [|done].
  simpl. destruct (l_role req) as [role|]; [|done].
  simpl. by destruct (String.eqb _ _).
Qed.

Lemma login_account_none t mail :
  (∀ u, u ∈ users t → Some (email u) ≠ mail) → login_account t mail = None.
Proof.
  intros Hall. unfold login_account.
  induction (users t) as [|u l IH]; [done|].
  rewrite filter_cons, decide_False.
  - apply IH. intros u' Hu'. apply Hall. by apply list_elem_of_further.
  - intros [Hu _]. by apply (Hall u); [apply list_elem_of_here|].
Qed.




(** ** Deleting a game, and the order report *)

Lemma no_item_of_game_left gid (l : list OrderItem) :
  gid ∉ oi_game_id <$> filter (λ it, oi_game_id it ≠ gid) l.
Proof.
  rewrite list_elem_of_fmap. intros (it & -> & Hin).
  by apply list_elem_of_filter in Hin as [Hne _].
Qed.

Lemma delete_game_done env id g s :
  games (committed s) !! id = Some g →
  inventory (committed s) !! id = None →
  fault env TxBegin = None →
  fault env DeleteOrderItems = None →
  fault env DeleteGame = None →
  fault env TxCommit = None →
  ∃ s',
    delete_game_endpoint env (Some "admin") id s =
      (Some {| status := 200;
               body := JMessage true "Game deleted successfully." |}, s') ∧
    committed s' =
      {| users := users (committed s);
         games := delete id (games (committed s));
         orders := orders (committed s);
         order_items :=
           filter (λ it, oi_game_id it ≠ id) (order_items (committed s));
         payments := payments (committed s);
         inventory := inventory (committed s) |} ∧
    txn s' = TxCommitted.
Proof.
  intros Hg Hinv Hb Hf1 Hf2 Hco.
  unfold delete_game_endpoint, delete_game_handler.
  unfold_handler. rewrite bool_decide_eq_true_2 by done.
  rewrite Hb, Hf1, Hf2. unfold delete_order_items, delete_game.
  cbn [txn set_txn set_idents set_committed committed idents games
       order_items inventory].
  rewrite Hg.
  rewrite bool_decide_eq_false_2 by apply no_item_of_game_left.
  rewrite Hinv. simpl. rewrite Hco. eexists. split; [reflexivity|]. done.
Qed.

Global Instance newer_first_total : Total newer_first.
Proof. intros a b. unfold newer_first. lia. Qed.

Global Instance newer_first_trans : Transitive newer_first.
Proof. intros a b c. unfold newer_first. lia. Qed.

Lemma get_orders_rows env s :
  fault env SelectOrders = None →
  get_orders env (Some "admin") s =
    (Some {| status := 200;
             body := JRows (merge_sort newer_first
                              (orders (committed s) ≫= order_rows (committed s))) |},
     s).
Proof.
  intros Hf. unfold get_orders, orders_handler, select_orders.
  unfold_handler. rewrite bool_decide_eq_true_2 by done.
  rewrite Hf. simpl. by rewrite set_store_same.
Qed.

Lemma elem_of_report t row :
  row ∈ merge_sort newer_first (orders t ≫= order_rows t) ↔
  ∃ o, o ∈ orders t ∧ row ∈ order_rows t o.
Proof.
  rewrite merge_sort_Permutation, list_elem_of_bind.
  split; intros (o & ? & ?); eauto.
Qed.

Lemma order_rows_empty t o :
  filter (λ it, oi_order_id it = order_id o) (order_items t) = [] →
  order_rows t o = [report_row t o None].
Proof. unfold order_rows. by intros ->. Qed.

Lemma order_rows_item t o it :
  it ∈ order_items t → oi_order_id it = order_id o →
  report_row t o (Some it) ∈ order_rows t o.
Proof.
  intros Hin Ho. unfold order_rows.
  assert (it ∈ filter (λ it, oi_order_id it = order_id o) (order_items t))
    as Hf by (by apply list_elem_of_filter).
  destruct (filter _ _) as [|x l] eqn:Heq; [by inversion Hf|].
  rewrite <- Heq in *. by apply (list_elem_of_fmap_2 (report_row t o ∘ Some)) in Hf.
Qed.

(** The delete does not remove the stock row of the game: while one
    exists, the delete of the game fails on the foreign key of
    [inventory], and nothing is removed. *)
Lemma delete_game_stocked :
  ∃ s',
    delete_game_endpoint Sample.env (Some "admin") 1 Sample.server =
      (Some {| status := 500; body := JMessage false "Failed to delete game." |},
       s') ∧
    committed s' = Sample.tables.
Proof. eexists. split; [vm_compute; reflexivity|]. reflexivity. Qed.

(** The rows of the report that belong to one order. *)
Lemma order_rows_id t o row : row ∈ order_rows t o → r_order_id row = order_id o.
Proof.
  unfold order_rows. destruct (filter _ _) as [|it l].
  - intros Hin. by apply list_elem_of_singleton in Hin as ->.
  - intros Hin. by apply list_elem_of_fmap in Hin as (it' & -> & _).
Qed.

Lemma filter_all {A} (P : A → Prop) `{!∀ x, Decision (P x)} (l : list A) :
  (∀ x, x ∈ l → P x) → filter P l = l.
Proof.
  induction l as [|x l IH]; intros Hl; [done|].
  rewrite filter_cons, decide_True by (apply Hl, list_elem_of_here).
  f_equal. apply IH. intros y Hy. by apply Hl, list_elem_of_further.
Qed.

Lemma filter_none {A} (P : A → Prop) `{!∀ x, Decision (P x)} (l : list A) :
  (∀ x, x ∈ l → ¬ P x) → filter P l = [].
Proof.
  induction l as [|x l IH]; intros Hl; [done|].
  rewrite filter_cons, decide_False by (apply Hl, list_elem_of_here).
  apply IH. intros y Hy. by apply Hl, list_elem_of_further.
Qed.

Lemma rows_of_other_orders t o (l : list Order) :
  (∀ o', o' ∈ l → order_id o' ≠ order_id o) →
  filter (λ row, r_order_id row = order_id o) (l ≫= order_rows t) = [].
Proof.
  intros Hl. apply filter_none. intros row Hrow.
  apply list_elem_of_bind in Hrow as (o' & Hrow & Ho').
  apply order_rows_id in Hrow. rewrite Hrow. by apply Hl.
Qed.

Lemma rows_of_order t o (l : list Order) :
  NoDup (order_id <$> l) → o ∈ l →
  filter (λ row, r_order_id row = order_id o) (l ≫= order_rows t)
  = order_rows t o.
Proof.
  induction l as [|x l IH]; intros Hnd Hin; [by inversion Hin|].
  rewrite fmap_cons in Hnd. apply NoDup_cons in Hnd as [Hx Hnd].
  rewrite bind_cons, filter_app.
  apply elem_of_cons in Hin as [->|Hin].
  - rewrite filter_all by (intros row; apply order_rows_id).
    rewrite rows_of_other_orders; [by rewrite app_nil_r|].
    intros o' Ho' Heq. apply Hx. rewrite <- Heq.
    by apply list_elem_of_fmap_2.
  - rewrite filter_none, IH; [done..|].
    intros row Hrow Heq. apply order_rows_id in Hrow.
    apply Hx. rewrite <- Hrow, Heq. by apply list_elem_of_fmap_2.
Qed.

(** In the sorted report, the rows of an order are those its join gives. *)
Lemma report_rows_of_order t o :
  NoDup (order_id <$> orders t) → o ∈ orders t →
  filter (λ row, r_order_id row = order_id o)
    (merge_sort newer_first (orders t ≫= order_rows t))
  ≡ₚ order_rows t o.
Proof.
  intros Hnd Hin. rewrite merge_sort_Permutation. by rewrite rows_of_order.
Qed.

Lemma same_key {A} (f : A → Z) (l : list A) x y :
  NoDup (f <$> l) → x ∈ l → y ∈ l → f x = f y → x = y.
Proof.
  induction l as [|z l IH]; intros Hnd Hx Hy Heq; [by inversion Hx|].
  rewrite fmap_cons in Hnd. apply NoDup_cons in Hnd as [Hz Hnd].
  apply elem_of_cons in Hx as [->|Hx]; apply elem_of_cons in Hy as [->|Hy].
  - done.
  - destruct Hz. rewrite Heq. by apply list_elem_of_fmap_2.
  - destruct Hz. rewrite <- Heq. by apply list_elem_of_fmap_2.
  - by apply IH.
Qed.

(** A row of the report that shows a line shows a line of the store. *)
Lemma report_row_item t row k :
  row ∈ merge_sort newer_first (orders t ≫= order_rows t) →
  r_order_item_id row = Some k →
  ∃ it, it ∈ order_items t ∧ order_item_id it = k.
Proof.
  intros Hrow Hk. apply elem_of_report in Hrow as (o & _ & Hrow).
  unfold order_rows in Hrow.
  destruct (filter _ _) as [|x l] eqn:Heq.
  - apply list_elem_of_singleton in Hrow as ->. done.
  - rewrite <- Heq in Hrow.
    apply list_elem_of_fmap in Hrow as (it & -> & Hit).
    apply list_elem_of_filter in Hit as [_ Hit].
    exists it. simpl in Hk. by simplify_eq.
Qed.

(** C8, as the code has it. For an existing game that no stock row
    references, the delete removes, in one transaction, every order item
    of the game and the game row itself (the rows are gone, none is set
    to null). In the order report afterwards the rows come newest order
    first; an order that had no line for another game is listed as one
    row only, with the title "Deleted Game" and empty item columns; every
    line for another game is still listed; and no row shows a line that
    was removed. (Stated where the store runs the statements and the
    transaction of the delete without failing, for a store whose order
    and order item identities are unique.) *)
Theorem delete_game_then_report env env2 id g s :
  games (committed s) !! id = Some g →
  inventory (committed s) !! id = None →
  NoDup (order_id <$> orders (committed s)) →
  NoDup (order_item_id <$> order_items (committed s)) →
  fault env TxBegin = None →
  fault env DeleteOrderItems = None →
  fault env DeleteGame = None →
  fault env TxCommit = None →
  fault env2 SelectOrders = None →
  ∃ s' rows,
    delete_game_endpoint env (Some "admin") id s =
      (Some {| status := 200;
               body := JMessage true "Game deleted successfully." |}, s') ∧
    games (committed s') = delete id (games (committed s)) ∧
    order_items (committed s') =
      filter (λ it, oi_game_id it ≠ id) (order_items (committed s)) ∧
    orders (committed s') = orders (committed s) ∧
    get_orders env2 (Some "admin") s' =
      (Some {| status := 200; body := JRows rows |}, s') ∧
    StronglySorted newer_first rows ∧
    (∀ o,
       o ∈ orders (committed s) →
       (∀ it, it ∈ order_items (committed s) →
              oi_order_id it = order_id o → oi_game_id it = id) →
       ∃ row,
         filter (λ row, r_order_id row = order_id o) rows = [row] ∧
         r_game_title row = "Deleted Game" ∧ r_order_item_id row = None ∧
         r_quantity row = None ∧ r_price row = None) ∧
    (∀ o it,
       o ∈ orders (committed s) →
       it ∈ order_items (committed s) →
       oi_order_id it = order_id o →
       oi_game_id it ≠ id →
       ∃ row,
         row ∈ rows ∧ r_order_id row = order_id o ∧
         r_order_item_id row = Some (order_item_id it) ∧
         r_quantity row = Some (quantity it)) ∧
    (∀ it row,
       it ∈ order_items (committed s) →
       oi_game_id it = id →
       row ∈ rows →
       r_order_item_id row ≠ Some (order_item_id it)).
Proof.
  intros Hg Hinv Hnd Hndi Hb Hf1 Hf2 Hco Hf3.
  destruct (delete_game_done env id g s Hg Hinv Hb Hf1 Hf2 Hco)
    as (s' & Hdel & Hc & _).
  exists s', (merge_sort newer_first
                (orders (committed s') ≫= order_rows (committed s'))).
  assert (orders (committed s') = orders (committed s)) as Ho'
    by (by rewrite Hc).
  assert (order_items (committed s') =
            filter (λ it, oi_game_id it ≠ id) (order_items (committed s)))
    as Hoi' by (by rewrite Hc).
  split; [done|]. split; [by rewrite Hc|]. split; [done|]. split; [done|].
  split; [by apply get_orders_rows|].
  split; [apply Sorted_StronglySorted; [apply _ | apply Sorted_merge_sort; apply _]|].
  split; [|split].
  - intros o Ho Hall. exists (report_row (committed s') o None).
    split; [|done].
    apply Permutation_singleton_r.
    rewrite report_rows_of_order by (by rewrite Ho').
    rewrite order_rows_empty; [done|].
    rewrite Hoi'.
    destruct (filter (λ it, oi_order_id it = order_id o) _)
      as [|it l] eqn:Heq; [done|].
    assert (it ∈ it :: l) as Hin by apply list_elem_of_here.
    rewrite <- Heq in Hin.
    apply list_elem_of_filter in Hin as [Hoid Hin].
    apply list_elem_of_filter in Hin as [Hne Hin].
    by destruct Hne; apply Hall.
  - intros o it Ho Hin Hoi Hne.
    exists (report_row (committed s') o (Some it)). split; [|done].
    apply elem_of_report. exists o. rewrite Ho'. split; [done|].
    apply order_rows_item; [|done].
    rewrite Hoi'. by apply list_elem_of_filter.
  - intros it row Hit Hgame Hrow Hk.
    apply (report_row_item _ _ _ Hrow) in Hk as (it' & Hit' & Hid).
    rewrite Hoi' in Hit'. apply list_elem_of_filter in Hit' as [Hne Hit'].
    apply Hne. rewrite <- Hgame. f_equal.
    by apply (same_key order_item_id (order_items (committed s))).
Qed.

Lemma delete_game_then_report_witness :
  ∃ s' rows,
    delete_game_endpoint Sample.env (Some "admin") 1 Sample.sold =
      (Some {| status := 200;
               body := JMessage true "Game deleted successfully." |}, s') ∧
    games (committed s') = delete 1 (games (committed Sample.sold)) ∧
    order_items (committed s') =
      [ {| order_item_id := 2; oi_order_id := 1; oi_game_id := 2;
           quantity := 1; oi_price := 499 |} ] ∧
    orders (committed s') = orders (committed Sample.sold) ∧
    get_orders Sample.env (Some "admin") s' =
      (Some {| status := 200; body := JRows rows |}, s') ∧
    StronglySorted newer_first rows ∧
    (∀ o,
       o ∈ orders (committed Sample.sold) →
       (∀ it, it ∈ order_items (committed Sample.sold) →
              oi_order_id it = order_id o → oi_game_id it = 1) →
       ∃ row,
         filter (λ row, r_order_id row = order_id o) rows = [row] ∧
         r_game_title row = "Deleted Game" ∧ r_order_item_id row = None ∧
         r_quantity row = None ∧ r_price row = None) ∧
    (∀ o it,
       o ∈ orders (committed Sample.sold) →
       it ∈ order_items (committed Sample.sold) →
       oi_order_id it = order_id o →
       oi_game_id it ≠ 1 →
       ∃ row,
         row ∈ rows ∧ r_order_id row = order_id o ∧
         r_order_item_id row = Some (order_item_id it) ∧
         r_quantity row = Some (quantity it)) ∧
    (∀ it row,
       it ∈ order_items (committed Sample.sold) →
       oi_game_id it = 1 →
       row ∈ rows →
       r_order_item_id row ≠ Some (order_item_id it)).
Proof.
  apply (delete_game_then_report Sample.env Sample.env 1 (Sample.game "Doom")
           Sample.sold); try reflexivity.
  - refine (bool_decide_unpack _ _); vm_compute; exact I.
  - refine (bool_decide_unpack _ _); vm_compute; exact I.
Defined.

(** C8, as stated, fails: after the delete the report has no row with the
    placeholder title for an order that also has a line for another
    game; the deleted line is not listed at all. *)
Lemma deleted_line_not_in_report :
  ¬ (∀ env env2 id g s it,
       games (committed s) !! id = Some g →
       inventory (committed s) !! id = None →
       NoDup (order_id <$> orders (committed s)) →
       NoDup (order_item_id <$> order_items (committed s)) →
       fault env TxBegin = None →
       fault env DeleteOrderItems = None →
       fault env DeleteGame = None →
       fault env TxCommit = None →
       fault env2 SelectOrders = None →
       it ∈ order_items (committed s) →
       oi_game_id it = id →
       ∃ s' rows s'',
         delete_game_endpoint env (Some "admin") id s =
           (Some {| status := 200;
                    body := JMessage true "Game deleted successfully." |}, s') ∧
         get_orders env2 (Some "admin") s' =
           (Some {| status := 200; body := JRows rows |}, s'') ∧
         ∃ row,
           row ∈ rows ∧ r_order_id row = oi_order_id it ∧
           r_game_title row = "Deleted Game").
Proof.
  intros H.
  destruct (H Sample.env Sample.env 1 (Sample.game "Doom") Sample.sold
              {| order_item_id := 1; oi_order_id := 1; oi_game_id := 1;
                 quantity := 1; oi_price := 1999 |})
    as (s' & rows & s'' & Hdel & Hrep & row & Hin & _ & Htitle);
    try reflexivity.
  { refine (bool_decide_unpack _ _); vm_compute; exact I. }
  { refine (bool_decide_unpack _ _); vm_compute; exact I. }
  { apply list_elem_of_here. }
  vm_compute in Hdel. simplify_eq.
  vm_compute in Hrep. simplify_eq.
  apply list_elem_of_singleton in Hin. subst row. discriminate.
Qed.

(** * Further properties *)

(** ** What a handler keeps, whatever its outcome *)

Section keeps.
Context (R : relation St) `{!PreOrder R}.

Lemma keeps_bind {A B} (m : Handler A) (k : A → Handler B) :
  keeps R m → (∀ a, keeps R (k a)) → keeps R (bind m k).
Proof.
  intros Hm Hk s c s' H.
  apply bind_inv in H as [(a & s1 & H1 & H2)|[(r & H1 & _)|(e & H1 & _)]].
  - transitivity s1; [by eapply Hm | by eapply Hk].
  - by eapply Hm.
  - by eapply Hm.
Qed.

Lemma keeps_try_catch {A} (body : Handler A) (handler : string → Handler A) :
  keeps R body → (∀ e, keeps R (handler e)) → keeps R (try_catch body handler).
Proof.
  intros Hb Hh s c s' H. unfold try_catch in H.
  destruct (body s) as [[a|r|e] s1] eqn:Hbody.
  - simplify_eq. by eapply Hb.
  - simplify_eq. by eapply Hb.
  - transitivity s1; [by eapply Hb | by eapply Hh].
Qed.

Lemma keeps_try_finally {A} (body : Handler A) (fin : Handler unit) :
  keeps R body → keeps R fin → keeps R (try_finally body fin).
Proof.
  intros Hb Hf s c s' H. unfold try_finally in H.
  destruct (body s) as [c1 s1] eqn:Hbody.
  destruct (fin s1) as [[a|r|e] s2] eqn:Hfin; simplify_eq;
    (transitivity s1; [by eapply Hb | by eapply Hf]).
Qed.

Lemma keeps_pure {A} (a : A) : keeps R (pure a).
Proof. intros s c s' H. unfold pure in H. by simplify_eq. Qed.

Lemma keeps_res_json {A} code b : keeps R (@res_json A code b).
Proof. intros s c s' H. unfold res_json in H. by simplify_eq. Qed.

Lemma keeps_throw {A} e : keeps R (@throw A e).
Proof. intros s c s' H. unfold throw in H. by simplify_eq. Qed.

Lemma keeps_if {A} (b : bool) (h1 h2 : Handler A) :
  keeps R h1 → keeps R h2 → keeps R (if b then h1 else h2).
Proof. by destruct b. Qed.

Lemma keeps_validateAdmin role next :
  keeps R (console_error "Access denied: Admins only.") →
  keeps R next → keeps R (validateAdmin role next).
Proof.
  intros Hc Hn. unfold validateAdmin. apply keeps_if; [done|].
  apply keeps_bind; [done|]. intros _. apply keeps_res_json.
Qed.
End keeps.

(** ** The identity counters never move back *)

Global Instance idents_le_preorder : PreOrder idents_le.
Proof.
  split.
  - intros i. unfold idents_le. lia.
  - intros i j k. unfold idents_le. lia.
Qed.

Global Instance issued_le_preorder : PreOrder issued_le.
Proof.
  split.
  - intros s. unfold issued_le. reflexivity.
  - intros s1 s2 s3. unfold issued_le. apply transitivity.
Qed.

Lemma issued_le_same s s' : idents s' = idents s → issued_le s s'.
Proof. unfold issued_le. intros ->. reflexivity. Qed.

Lemma issued_console line : keeps issued_le (console_error line).
Proof. intros s c s' H. unfold console_error in H. simplify_eq. by apply issued_le_same. Qed.

Lemma issued_new_Transaction : keeps issued_le new_Transaction.
Proof. intros s c s' H. unfold new_Transaction in H. simplify_eq. by apply issued_le_same. Qed.

Lemma issued_tx_begin env : keeps issued_le (tx_begin env).
Proof.
  intros s c s' H. unfold tx_begin in H.
  destruct (fault env TxBegin); simplify_eq; by apply issued_le_same.
Qed.

Lemma issued_tx_commit env : keeps issued_le (tx_commit env).
Proof.
  intros s c s' H. unfold tx_commit in H.
  destruct (txn s), (fault env TxCommit); simplify_eq; by apply issued_le_same.
Qed.

Lemma issued_tx_rollback env : keeps issued_le (tx_rollback env).
Proof.
  intros s c s' H. unfold tx_rollback in H.
  destruct (txn s), (fault env TxRollback); simplify_eq;
    by apply issued_le_same.
Qed.

Lemma issued_request_inputs names tr :
  keeps issued_le (request_inputs names tr).
Proof.
  intros s c s' H. apply request_inputs_inv in H as [-> _]. reflexivity.
Qed.

Lemma issued_tx_query {A} env l (q : Statement A) :
  keeps_issued q → keeps issued_le (tx_query env l q).
Proof.
  intros Hq s c s' H. unfold tx_query in H.
  destruct (fault env l); [simplify_eq; by apply issued_le_same|].
  destruct (txn s); try (simplify_eq; by apply issued_le_same).
  destruct (q work (idents s)) eqn:Hqs; simplify_eq;
    [by apply issued_le_same|].
  unfold issued_le. simpl. by eapply Hq.
Qed.

Lemma issued_pool_query {A} env l (q : Statement A) :
  keeps_issued q → keeps issued_le (pool_query env l q).
Proof.
  intros Hq s c s' H. unfold pool_query in H.
  destruct (fault env l); [simplify_eq; by apply issued_le_same|].
  destruct (q (committed s) (idents s)) eqn:Hqs; simplify_eq;
    [by apply issued_le_same|].
  unfold issued_le. simpl. by eapply Hq.
Qed.

Lemma issued_pool_request {A} failure (q : Statement A) :
  keeps_issued q → keeps issued_le (pool_request failure q).
Proof.
  intros Hq s c s' H. unfold pool_request in H.
  destruct failure; [simplify_eq; by apply issued_le_same|].
  destruct (q (committed s) (idents s)) eqn:Hqs; simplify_eq;
    [by apply issued_le_same|].
  unfold issued_le. simpl. by eapply Hq.
Qed.

Ltac solve_keeps_issued :=
  intros t i a t' i' H; repeat (case_match; simplify_eq);
  unfold idents_le; simpl; lia.

Lemma keeps_issued_select_game_ids ids : keeps_issued (select_game_ids ids).
Proof. unfold select_game_ids. solve_keeps_issued. Qed.

Lemma keeps_issued_insert_order now uid total status :
  keeps_issued (insert_order now uid total status).
Proof. unfold insert_order. solve_keeps_issued. Qed.

Lemma keeps_issued_insert_order_item oid gid qty pr :
  keeps_issued (insert_order_item oid gid qty pr).
Proof. unfold insert_order_item. solve_keeps_issued. Qed.

Lemma keeps_issued_insert_payment now oid status method :
  keeps_issued (insert_payment now oid status method).
Proof. unfold insert_payment. solve_keeps_issued. Qed.

Lemma issued_insert_items env oid line its tr :
  keeps issued_le (insert_items env oid line its tr).
Proof.
  revert line tr. induction its as [|item rest IH]; intros line tr.
  - apply keeps_pure, _.
  - rewrite insert_items_cons.
    apply keeps_bind; [apply _|apply issued_request_inputs|intros tr1].
    apply keeps_bind; [apply _| |done].
    apply issued_tx_query, keeps_issued_insert_order_item.
Qed.

Ltac issued_step :=
  first
    [ apply keeps_bind; [apply _| |intros ?]
    | apply keeps_if
    | apply keeps_try_catch; [apply _| |intros ?]
    | apply keeps_try_finally; [apply _| |]
    | apply keeps_res_json; apply _
    | apply keeps_pure; apply _
    | apply keeps_throw; apply _
    | apply issued_console
    | apply issued_new_Transaction
    | apply issued_tx_begin
    | apply issued_tx_commit
    | apply issued_tx_rollback
    | apply issued_insert_items
    | apply issued_request_inputs
    | apply issued_pool_query
    | apply issued_tx_query
    | apply issued_pool_request ].

Lemma issued_checkout_handler env req :
  keeps issued_le (checkout_handler env req).
Proof.
  unfold checkout_handler, checkout_try, checkout_catch.
  repeat issued_step.
  - apply keeps_issued_select_game_ids.
  - apply keeps_issued_insert_order.
  - apply keeps_issued_insert_payment.
Qed.

Lemma serve_keeps (R : relation St) (h : Handler unit) s :
  keeps R h → R s (serve h s).2.
Proof.
  intros Hk. unfold serve. destruct (h s) as [[a|r|e] s'] eqn:H; simpl;
    by eapply Hk.
Qed.

(** ** Checkout: all or nothing *)

Lemma checkout_try_Return env its total method uid s r s' :
  checkout_try env its total method uid s = (Return r, s') →
  (∃ oid, r = {| status := 200; body := JOrder true oid |}) ∨
  (r = {| status := 400;
          body := JMessage false "One or more game IDs are invalid." |} ∧
   committed s' = committed s).
Proof.
  unfold checkout_try. intros H.
  apply bind_Return in H as [H|(? & s1 & Hbegin & H)].
  { by apply tx_begin_inv in H as [(? & _)|(? & ? & _)]. }
  apply tx_begin_inv in Hbegin as [(_ & _ & ->)|(? & ? & _)]; [|done].
  cbv zeta in H.
  apply bind_Return in H as [H|(rows & s2 & Hsel & H)];
    [by apply pool_query_no_Return in H|].
  apply pool_query_Normal in Hsel as (t2 & i2 & _ & Hsel & ->).
  unfold select_game_ids in Hsel. simpl in Hsel.
  destruct (ci_game_id <$> its) as [|k ks] eqn:Hids; [done|].
  simplify_eq.
  destruct (negb _) in H.
  { apply bind_Return in H as [H|(? & ? & Hlog & H)];
      unfold console_error, res_json in *; simplify_eq. by right. }
  left.
  apply bind_Return in H as [H|(tr1 & s3 & _ & H)];
    [by rewrite order_inputs in H|].
  apply bind_Return in H as [H|(oid & s4 & _ & H)];
    [by apply tx_query_no_Return in H|].
  apply bind_Return in H as [H|(tr2 & s5 & _ & H)];
    [by apply insert_items_no_Return in H|].
  apply bind_Return in H as [H|(tr3 & s6 & _ & H)].
  { apply request_inputs_inv in H as [_ Hr]. by destruct (Hr _ eq_refl). }
  apply bind_Return in H as [H|([] & s7 & _ & H)];
    [by apply tx_query_no_Return in H|].
  apply bind_Return in H as [H|([] & s8 & Hcommit & H)].
  { by apply tx_commit_inv in H as [(? & ? & _)|[(? & ? & ? & _)|(? & _)]]. }
  unfold res_json in H. simplify_eq. eauto.
Qed.

(** Whatever fails, a checkout ends with the success reply or with the
    committed rows as they were; what it answers is the success reply or
    a refusal; and it answers where the transaction control works. *)
Lemma checkout_outcome env req s :
  ∃ reply s',
    checkout env req s = (reply, s') ∧
    ((∃ oid, reply = Some {| status := 200; body := JOrder true oid |}) ∨
     committed s' = committed s) ∧
    (∀ r, reply = Some r →
          (∃ oid, r = {| status := 200; body := JOrder true oid |}) ∨
          ∃ e, r ∈ checkout_refusals e) ∧
    (tx_works env → is_Some reply).
Proof.
  destruct (checkout_validated req) eqn:Hv.
  2:{ rewrite (checkout_rejected _ _ _ Hv). eexists _, _. split; [done|].
      split; [by right|]. split; [|by eauto].
      intros ? [= <-]. right. exists "". apply list_elem_of_here. }
  destruct (checkout_accepted env req s Hv)
    as (cart & total & method & Hi & Ht & Hm & _ & _ & Heq).
  rewrite Heq. unfold serve, try_catch.
  destruct (checkout_try _ _ _ _ _ _) as [[a|r|e] s1] eqn:Htry.
  - by apply checkout_try_no_Normal in Htry.
  - eexists _, _. split; [done|].
    apply checkout_try_Return in Htry as [[oid ->]|[-> Hc]].
    + split; [left; by eauto|]. split; [|by eauto].
      intros ? [= <-]. left. by eauto.
    + split; [by right|]. split; [|by eauto].
      intros ? [= <-]. right. exists "".
      apply list_elem_of_further, list_elem_of_here.
  - destruct (checkout_raises_outcome env req s e)
      as (reply & s' & Hreply & Hc & Hr).
    { split; [done|]. exists s1. by rewrite Hi, Ht, Hm. }
    rewrite Heq in Hreply. unfold serve, try_catch in Hreply.
    rewrite Htry in Hreply. rewrite Hreply.
    exists reply, s'. split; [done|]. split; [by right|]. split.
    + intros r Hrep. right. exists e. rewrite (Hr _ Hrep).
      do 2 apply list_elem_of_further. apply list_elem_of_here.
    + intros Hworks.
      destruct (checkout_raises_reply env req s e Hworks) as (s2 & Hans & _).
      { split; [done|]. exists s1. by rewrite Hi, Ht, Hm. }
      rewrite Heq in Hans. unfold serve, try_catch in Hans.
      rewrite Htry in Hans. rewrite Hans in Hreply. by simplify_eq.
Qed.


(** X2. The field check of the checkout: a request with no [items], or
    with [totalAmount] or [paymentMethodId] absent or equal to 0 (a free
    order is refused too), is answered with HTTP 400 "Missing required
    fields." before any statement is sent: rows and identity counters are
    unchanged and no transaction is begun. *)
Theorem checkout_missing_field env req s :
  items req = None ∨
  totalAmount req = None ∨ totalAmount req = Some 0 ∨
  paymentMethodId req = None ∨ paymentMethodId req = Some 0 →
  ∃ s',
    checkout env req s =
      (Some {| status := 400; body := JMessage false "Missing required fields." |},
       s') ∧
    committed s' = committed s ∧ idents s' = idents s ∧ txn s' = TxNew.
Proof.
  intros H. rewrite checkout_rejected; [eexists; split; [reflexivity|done]|].
  unfold checkout_validated.
  destruct H as [-> | [-> | [-> | [-> | ->]]]]; simpl;
    rewrite ?andb_false_r; done.
Qed.

Lemma checkout_missing_field_witness :
  ∃ s',
    checkout Sample.env
      {| items := Some [Sample.line 1 1 0]; totalAmount := Some 0;
         paymentMethodId := Some 1; userId := None |} Sample.server =
      (Some {| status := 400; body := JMessage false "Missing required fields." |},
       s') ∧
    committed s' = Sample.tables ∧ idents s' = Sample.counters ∧
    txn s' = TxNew.
Proof.
  apply (checkout_missing_field Sample.env
           {| items := Some [Sample.line 1 1 0]; totalAmount := Some 0;
              paymentMethodId := Some 1; userId := None |} Sample.server).
  right. right. left. reflexivity.
Defined.

(** What else a successful [try] block tells: the foreign keys held, and
    the counter of [orders] is one past the new order. *)
Lemma checkout_try_success_keys env its total method uid s oid s' :
  checkout_try env its total method uid s =
    (Return {| status := 200; body := JOrder true oid |}, s') →
  seeded payment_methods method = true ∧
  (∀ u, or_null uid = Some u → u ∈ user_id <$> users (committed s)) ∧
  next_order_id (idents s') = oid + 1.
Proof.
  unfold checkout_try. intros H.
  apply bind_Return in H as [H|(? & s1 & Hbegin & H)].
  { by apply tx_begin_inv in H as [(? & _)|(? & ? & _)]. }
  apply tx_begin_inv in Hbegin as [(_ & _ & ->)|(? & ? & _)]; [|done].
  cbv zeta in H.
  apply bind_Return in H as [H|(rows & s2 & Hsel & H)];
    [by apply pool_query_no_Return in H|].
  apply pool_query_Normal in Hsel as (t2 & i2 & _ & Hsel & ->).
  unfold select_game_ids in Hsel. simpl in Hsel.
  destruct (ci_game_id <$> its) as [|k ks] eqn:Hids; [done|].
  simplify_eq.
  destruct (negb _) in H.
  { apply bind_Return in H as [H|(? & ? & ? & H)];
      unfold console_error, res_json in H; simplify_eq. }
  apply bind_Return in H as [H|(tr1 & s3 & Hin1 & H)];
    [by rewrite order_inputs in H|].
  rewrite order_inputs in Hin1. simplify_eq.
  apply bind_Return in H as [H|(oid0 & s3 & Hord & H)];
    [by apply tx_query_no_Return in H|].
  apply tx_query_Normal in Hord as (w & w3 & i3 & _ & Hw & Hord & ->).
  simpl in Hw, Hord. simplify_eq.
  unfold insert_order in Hord.
  destruct (negb (from_option _ _ _)) eqn:Huser in Hord; [done|].
  destruct (negb (seeded order_status 1)) in Hord; [done|].
  simplify_eq.
  apply bind_Return in H as [H|(tr2 & s4 & Hitems & H)];
    [by apply insert_items_no_Return in H|].
  eapply insert_items_Normal in Hitems
    as (w4 & Hw4 & _ & _ & _ & _ & _ & Ho & _ & _ & _ & Hn1 & _);
    [|reflexivity].
  simpl in *.
  apply bind_Return in H as [H|(tr3 & s5 & Hin3 & H)].
  { apply request_inputs_inv in H as [_ Hr]. by destruct (Hr _ eq_refl). }
  apply request_inputs_Normal in Hin3 as [-> _].
  apply bind_Return in H as [H|([] & s5 & Hpay & H)];
    [by apply tx_query_no_Return in H|].
  apply tx_query_Normal in Hpay as (w' & w5 & i5 & _ & Hw' & Hpay & ->).
  rewrite Hw4 in Hw'. simplify_eq.
  unfold insert_payment in Hpay.
  destruct (negb (bool_decide _)) in Hpay; [done|].
  destruct (negb (seeded payment_status 1)) in Hpay; [done|].
  destruct (negb (seeded payment_methods method)) eqn:Hmethod in Hpay; [done|].
  simplify_eq.
  apply bind_Return in H as [H|([] & s6 & Hcommit & H)].
  { by apply tx_commit_inv in H as [(? & ? & _)|[(? & ? & ? & _)|(? & _)]]. }
  apply tx_commit_inv in Hcommit
    as [(w6 & _ & Hw6 & _ & ->)|[(? & ? & ? & _)|(? & _)]]; try done.
  unfold res_json in H. simplify_eq. simpl.
  split; [by apply negb_false_iff in Hmethod|]. split; [|done].
  intros u Hu. rewrite Hu in Huser. simpl in Huser.
  by apply negb_false_iff, bool_decide_eq_true in Huser.
Qed.

(** X3. Checkout is not idempotent: when a request succeeds and the same
    request is sent again and succeeds again, the second answer carries
    the next order id, and the store holds two order rows and twice the
    lines of the cart. *)
Theorem checkout_retry_creates_second_order
    env1 env2 req cart total s oid1 s1 oid2 s2 :
  items req = Some cart →
  totalAmount req = Some total →
  checkout env1 req s =
    (Some {| status := 200; body := JOrder true oid1 |}, s1) →
  checkout env2 req s1 =
    (Some {| status := 200; body := JOrder true oid2 |}, s2) →
  oid2 = oid1 + 1 ∧
  orders (committed s2) =
    orders (committed s) ++
      [ {| order_id := oid1; o_user_id := or_null (userId req);
           order_date := now env1; total_amount := total; o_status_id := 1 |};
        {| order_id := oid2; o_user_id := or_null (userId req);
           order_date := now env2; total_amount := total; o_status_id := 1 |} ] ∧
  length (order_items (committed s2)) =
    (length (order_items (committed s)) + 2 * length cart)%nat.
Proof.
  intros Hi Ht H1 H2.
  destruct (checkout_success_inv _ _ _ _ _ H1)
    as (c1 & t1 & m1 & Hi1 & Ht1 & _ & Htry1).
  destruct (checkout_success_inv _ _ _ _ _ H2)
    as (c2 & t2 & m2 & Hi2 & Ht2 & _ & Htry2).
  rewrite Hi in Hi1, Hi2. rewrite Ht in Ht1, Ht2. simplify_eq.
  pose proof (checkout_try_success_keys _ _ _ _ _ _ _ _ Htry1) as (_ & _ & Hnext).
  apply checkout_try_success in Htry1
    as (_ & _ & _ & Hoid1 & _ & _ & Ho1 & Hoi1 & _).
  apply checkout_try_success in Htry2
    as (_ & _ & _ & Hoid2 & _ & _ & Ho2 & Hoi2 & _).
  simpl in *. split; [congruence|]. split.
  - rewrite Ho2, Ho1, <- app_assoc. done.
  - rewrite Hoi2, Hoi1, !length_app, !item_rows_length. lia.
Qed.

Lemma checkout_retry_creates_second_order_witness :
  ∃ s1 s2,
    checkout Sample.env (Sample.cart_req [Sample.line 1 2 1999] 1)
      Sample.server =
      (Some {| status := 200; body := JOrder true 1 |}, s1) ∧
    checkout Sample.env (Sample.cart_req [Sample.line 1 2 1999] 1) s1 =
      (Some {| status := 200; body := JOrder true 2 |}, s2) ∧
    length (orders (committed s2)) = 2%nat ∧
    length (order_items (committed s2)) = 2%nat.
Proof.
  set (req := Sample.cart_req [Sample.line 1 2 1999] 1).
  set (s1 := (checkout Sample.env req Sample.server).2).
  set (s2 := (checkout Sample.env req s1).2).
  assert (checkout Sample.env req Sample.server =
            (Some {| status := 200; body := JOrder true 1 |}, s1)) as H1
    by (vm_compute; reflexivity).
  assert (checkout Sample.env req s1 =
            (Some {| status := 200; body := JOrder true 2 |}, s2)) as H2
    by (vm_compute; reflexivity).
  exists s1, s2. split; [exact H1|]. split; [exact H2|].
  destruct (checkout_retry_creates_second_order Sample.env Sample.env req
              [Sample.line 1 2 1999] 4497
              Sample.server 1 s1 2 s2 eq_refl eq_refl H1 H2)
    as (_ & Ho & Hoi).
  split; [by rewrite Ho | by rewrite Hoi].
Defined.

Lemma item_rows_order oid first its :
  Forall (λ it, oi_order_id it = oid) (item_rows oid first its).
Proof.
  revert first. induction its as [|item rest IH]; intros first; simpl;
    constructor; [done | apply IH].
Qed.

(** X4. The counter of [orders] stays ahead of the order ids in the
    store through every checkout, whatever its outcome: a rollback does
    not give an identity back, so no later order takes an id that a
    stored order, order item or payment already carries. *)
Theorem checkout_keeps_order_ids_issued env req s :
  order_ids_issued s → order_ids_issued (checkout env req s).2.
Proof.
  intros (Ho & Hoi & Hp).
  pose proof (serve_keeps issued_le _ s (issued_checkout_handler env req))
    as (_ & _ & Hle & _).
  fold (checkout env req s) in Hle.
  destruct (checkout_outcome env req s)
    as (r & s' & Heq & [[oid ->]|Hc] & _).
  - rewrite Heq in *. simpl in *.
    destruct (checkout_success_inv _ _ _ _ _ Heq)
      as (cart & total & method & _ & _ & _ & Htry).
    pose proof (checkout_try_success_keys _ _ _ _ _ _ _ _ Htry)
      as (_ & _ & Hnext).
    apply checkout_try_success in Htry
      as (_ & _ & _ & Hoid & _ & _ & Ho' & Hoi' & Hp' & _).
    simpl in *. unfold order_ids_issued.
    rewrite Ho', Hoi', Hp', Hnext, !Forall_app, !Forall_singleton. simpl.
    split; [|split]; (split; [|try lia]).
    + eapply Forall_impl; [exact Ho|]. simpl. intros; lia.
    + eapply Forall_impl; [exact Hoi|]. simpl. intros; lia.
    + eapply Forall_impl; [apply item_rows_order|]. simpl. intros; lia.
    + eapply Forall_impl; [exact Hp|]. simpl. intros; lia.
  - rewrite Heq in *. simpl in *. unfold order_ids_issued. rewrite Hc.
    repeat split; (eapply Forall_impl; [eassumption|]); simpl; intros; lia.
Qed.

Lemma checkout_keeps_order_ids_issued_witness :
  order_ids_issued
    (checkout Sample.env (Sample.cart_req [Sample.line 1 2 1999] 9)
       Sample.sold).2.
Proof.
  apply (checkout_keeps_order_ids_issued Sample.env
           (Sample.cart_req [Sample.line 1 2 1999] 9) Sample.sold).
  unfold order_ids_issued. simpl.
  repeat split; repeat constructor; simpl; lia.
Defined.




Lemma item_rows_line oid first its item :
  item ∈ its →
  ∃ row,
    row ∈ item_rows oid first its ∧ oi_order_id row = oid ∧
    oi_game_id row = ci_game_id item ∧ quantity row = ci_quantity item ∧
    oi_price row = ci_price item.
Proof.
  revert first. induction its as [|x rest IH]; intros first Hin;
    [by inversion Hin|].
  apply elem_of_cons in Hin as [->|Hin]; simpl.
  - eexists. split; [apply list_elem_of_here|done].
  - destruct (IH (first + 1) Hin) as (row & Hrow & ?).
    exists row. split; [by apply list_elem_of_further|done].
Qed.

(** X6. An order that has just been placed is in the order report: after
    a successful checkout the report has, for every line of the cart, a
    row of the new order with status "pending", the title of the line's
    game, and the line's quantity and price. *)
Theorem checkout_then_report env env2 req cart s oid s' :
  items req = Some cart →
  checkout env req s =
    (Some {| status := 200; body := JOrder true oid |}, s') →
  fault env2 SelectOrders = None →
  ∃ rows,
    get_orders env2 (Some "admin") s' =
      (Some {| status := 200; body := JRows rows |}, s') ∧
    ∀ item, item ∈ cart →
      ∃ g row,
        games (committed s) !! ci_game_id item = Some g ∧
        row ∈ rows ∧ r_order_id row = oid ∧
        r_order_status row = Some "pending" ∧
        r_game_title row = title g ∧
        r_quantity row = Some (ci_quantity item) ∧
        r_price row = Some (ci_price item).
Proof.
  intros Hi H Hf.
  destruct (checkout_success_inv _ _ _ _ _ H)
    as (cart' & total & method & Hi' & _ & _ & Htry).
  rewrite Hi in Hi'. simplify_eq.
  apply checkout_try_success in Htry
    as (_ & _ & Hall & _ & _ & Hg & Ho & Hoi & _).
  simpl in *. eexists. split; [by apply get_orders_rows|].
  intros item Hin.
  destruct (Hall item Hin) as [g Hgame].
  destruct (item_rows_line oid (next_order_item_id (idents s)) cart' item Hin)
    as (it & Hit & Hoid & Hgid & Hq & Hp).
  set (o := {| order_id := oid; o_user_id := or_null (userId req);
               order_date := now env; total_amount := total;
               o_status_id := 1 |}).
  exists g, (report_row (committed s') o (Some it)).
  split; [done|]. split.
  - apply elem_of_report. exists o. split.
    + rewrite Ho. apply elem_of_app. right. apply list_elem_of_here.
    + apply order_rows_item; [|done].
      rewrite Hoi. apply elem_of_app. by right.
  - simpl. rewrite Hg, Hgid, Hgame, Hq, Hp. done.
Qed.

Lemma checkout_then_report_witness :
  let s' := (checkout Sample.env (Sample.cart_req [Sample.line 2 3 499] 2)
               Sample.server).2 in
  ∃ rows,
    get_orders Sample.env (Some "admin") s' =
      (Some {| status := 200; body := JRows rows |}, s') ∧
    ∀ item, item ∈ [Sample.line 2 3 499] →
      ∃ g row,
        games Sample.tables !! ci_game_id item = Some g ∧
        row ∈ rows ∧ r_order_id row = 1 ∧
        r_order_status row = Some "pending" ∧
        r_game_title row = title g ∧
        r_quantity row = Some (ci_quantity item) ∧
        r_price row = Some (ci_price item).
Proof.
  intros s'.
  apply (checkout_then_report Sample.env Sample.env
           (Sample.cart_req [Sample.line 2 3 499] 2) [Sample.line 2 3 499]
           Sample.server 1 s'); reflexivity.
Defined.

Lemma stock_after_dom its inv : dom (stock_after its inv) = dom inv.
Proof.
  unfold stock_after. revert inv.
  induction its as [|item rest IH]; intros inv; simpl; [done|].
  rewrite IH. unfold trg_update_inventory_after_order. apply dom_alter_L.
Qed.

(** X7. The inventory trigger touches only the stock rows of the games
    bought: a successful checkout neither creates nor removes a stock
    row, and the stock of every game that is not in the cart is what it
    was; a game with no stock row can be bought and still has none. *)
Theorem checkout_other_stock_untouched env req cart s oid s' :
  items req = Some cart →
  checkout env req s =
    (Some {| status := 200; body := JOrder true oid |}, s') →
  dom (inventory (committed s')) = dom (inventory (committed s)) ∧
  ∀ k, k ∉ ci_game_id <$> cart →
       inventory (committed s') !! k = inventory (committed s) !! k.
Proof.
  intros Hi H.
  destruct (checkout_success_inv _ _ _ _ _ H)
    as (cart' & total & method & Hi' & _ & _ & Htry).
  rewrite Hi in Hi'. simplify_eq.
  apply checkout_try_success in Htry
    as (_ & _ & _ & _ & _ & _ & _ & _ & _ & Hinv & _).
  simpl in *. rewrite Hinv. split.
  - apply stock_after_dom.
  - intros k Hk. by apply stock_after_other.
Qed.

Lemma checkout_other_stock_untouched_witness :
  let s' := (checkout Sample.env (Sample.cart_req [Sample.line 2 3 499] 2)
               Sample.server).2 in
  dom (inventory (committed s')) = dom (inventory Sample.tables) ∧
  ∀ k, k ∉ ci_game_id <$> [Sample.line 2 3 499] →
       inventory (committed s') !! k = inventory Sample.tables !! k.
Proof.
  intros s'.
  apply (checkout_other_stock_untouched Sample.env
           (Sample.cart_req [Sample.line 2 3 499] 2) [Sample.line 2 3 499]
           Sample.server 1 s'); reflexivity.
Defined.

(** ** Checkout: a cart of several lines *)

Lemma tx_query_ok {A} env l (q : Statement A) s w a w' i' :
  fault env l = None → txn s = TxOpen w → q w (idents s) = SqlOk a w' i' →
  tx_query env l q s = (Normal a, set_txn (TxOpen w') (set_idents i' s)).
Proof. unfold tx_query. by intros -> -> ->. Qed.

(** The names the first line declares after those of the order insert. *)
Lemma item_inputs s :
  request_inputs ["order_id_item"; "game_id"; "quantity"; "price"]
    ["order_status_id"; "total"; "user_id"] s =
    (Normal ["price"; "quantity"; "game_id"; "order_id_item";
             "order_status_id"; "total"; "user_id"], s).
Proof. reflexivity. Qed.

(** With the first line inserted, the loop throws when it declares
    [order_id_item] for the second line. *)
Lemma insert_items_second_line_throws env oid a b rest s w :
  fault env (InsertOrderItem 0) = None →
  txn s = TxOpen w →
  oid ∈ order_id <$> orders w →
  is_Some (games w !! ci_game_id a) →
  ∃ s1,
    insert_items env oid 0 (a :: b :: rest)
      ["order_status_id"; "total"; "user_id"] s =
      (Throw (already_declared "order_id_item"), s1) ∧
    in_transaction s s1.
Proof.
  intros Hf Hw Hoid Hgame.
  rewrite insert_items_cons. unfold bind at 1. rewrite item_inputs.
  unfold bind at 1.
  erewrite tx_query_ok; [|done|done|].
  2:{ unfold insert_order_item.
      rewrite bool_decide_eq_true_2 by done.
      rewrite bool_decide_eq_true_2 by done. reflexivity. }
  rewrite insert_items_cons. unfold bind at 1.
  rewrite (request_inputs_declared "order_id_item").
  - eexists. split; [reflexivity|]. unfold in_transaction. simpl. eauto.
  - do 3 apply list_elem_of_further. apply list_elem_of_here.
Qed.

(** X30. A cart of more than one line cannot be checked out. The handler
    sends every statement of the transaction on one request object, and
    the item loop declares the parameter [order_id_item] on it once per
    line: at the second line the declaration throws. Whatever the store
    does, no such request is answered with success; and where the lines
    name different existing games, the user exists and the store runs
    what it is asked, the order and the first line are inserted, the
    loop throws, and the answer is HTTP 500 with the text of that error,
    the transaction rolled back and nothing committed. *)
Theorem checkout_second_line_refused env req a b rest s :
  items req = Some (a :: b :: rest) →
  (∀ oid s', checkout env req s ≠
               (Some {| status := 200; body := JOrder true oid |}, s')) ∧
  (checkout_validated req = true →
   NoDup (ci_game_id <$> a :: b :: rest) →
   (∀ item, item ∈ a :: b :: rest →
            is_Some (games (committed s) !! ci_game_id item)) →
   (∀ u, or_null (userId req) = Some u →
         u ∈ user_id <$> users (committed s)) →
   fault env TxBegin = None →
   fault env SelectGameIds = None →
   fault env InsertOrder = None →
   fault env (InsertOrderItem 0) = None →
   fault env TxRollback = None →
   ∃ s',
     checkout env req s =
       (Some {| status := 500;
                body := JError (already_declared "order_id_item") |}, s') ∧
     committed s' = committed s ∧ txn s' = TxRolledBack).
Proof.
  intros Hi. split.
  - intros oid s' Heq.
    destruct (checkout_success_inv _ _ _ _ _ Heq)
      as (cart & total & method & Hi' & _ & _ & Htry).
    rewrite Hi in Hi'. simplify_eq.
    apply checkout_try_success in Htry
      as (_ & _ & _ & _ & _ & _ & _ & _ & _ & _ & _ & Hlen).
    simpl in Hlen. lia.
  - intros Hv Hnd Hall Huser Hb Hsel Hord Hitem Hrb.
    assert (∃ s1,
      checkout_try env (default [] (items req))
        (default 0 (totalAmount req)) (default 0 (paymentMethodId req))
        (userId req) (set_txn TxNew s)
      = (Throw (already_declared "order_id_item"), s1) ∧
      in_transaction (set_txn TxNew s) s1) as (s1 & Htry & Hin).
    { assert (length (game_ids_in (ci_game_id <$> a :: b :: rest)
                          (games (committed s)))
              = length (ci_game_id <$> a :: b :: rest)) as Hlen.
      { apply game_ids_in_length. split; [done|]. intros k Hk.
        apply list_elem_of_fmap in Hk as (item & -> & Hitem'). by apply Hall. }
      rewrite !fmap_cons in Hlen.
      rewrite Hi. simpl default.
      unfold checkout_try. unfold bind at 1, tx_begin. rewrite Hb.
      cbv zeta. unfold bind at 1, pool_query. rewrite Hsel.
      unfold select_game_ids.
      cbn [committed idents set_txn set_committed set_idents fmap list_fmap].
      rewrite (proj2 (Nat.eqb_eq _ _) Hlen).
      cbn [negb]. unfold bind at 1. rewrite order_inputs.
      unfold bind at 1.
      erewrite tx_query_ok; [|done|reflexivity|].
      2:{ unfold insert_order.
          cbn [committed idents set_txn set_committed set_idents].
          replace (from_option _ true (or_null (userId req))) with true.
          2:{ destruct (or_null (userId req)) as [u|] eqn:Hu; [|done].
              simpl. symmetry. apply bool_decide_eq_true. by apply Huser. }
          reflexivity. }
      unfold bind at 1.
      edestruct (insert_items_second_line_throws env
                   (next_order_id (idents s)) a b rest) as (s1 & -> & Hin);
        [done|reflexivity| | |].
      - simpl. rewrite fmap_app. apply elem_of_app. right.
        apply list_elem_of_here.
      - simpl. apply Hall, list_elem_of_here.
      - exists s1. split; [done|].
        destruct Hin as (Hc & Ha & Hl & w & Hw).
        unfold in_transaction. simpl in *. eauto. }
    destruct (checkout_thrown_open env req s _ s1 Hv Htry Hin Hrb)
      as (s' & ? & ? & ? & _).
    eauto.
Qed.

Lemma checkout_second_line_refused_witness :
  (∀ oid s',
     checkout Sample.env
       (Sample.cart_req [Sample.line 1 2 1999; Sample.line 2 1 499] 1)
       Sample.server ≠
       (Some {| status := 200; body := JOrder true oid |}, s')) ∧
  ∃ s',
    checkout Sample.env
      (Sample.cart_req [Sample.line 1 2 1999; Sample.line 2 1 499] 1)
      Sample.server =
      (Some {| status := 500;
               body := JError (already_declared "order_id_item") |}, s') ∧
    committed s' = Sample.tables ∧ txn s' = TxRolledBack.
Proof.
  destruct (checkout_second_line_refused Sample.env
              (Sample.cart_req [Sample.line 1 2 1999; Sample.line 2 1 499] 1)
              (Sample.line 1 2 1999) (Sample.line 2 1 499) []
              Sample.server eq_refl) as [Hnever Hrefused].
  split; [exact Hnever|].
  apply Hrefused; try reflexivity.
  - refine (bool_decide_unpack _ _); vm_compute; exact I.
  - intros item Hin.
    apply elem_of_cons in Hin as [->|Hin]; [by eexists|].
    apply list_elem_of_singleton in Hin as ->. by eexists.
  - intros u [= <-]. apply list_elem_of_here.
Defined.

(** ** The admin gate *)

(** X8. Every admin endpoint refuses a caller whose [role] header is not
    exactly "admin" (the header is compared as it is, so "Admin" is
    refused too) with HTTP 403 before it does anything else: no
    transaction is created, no statement is sent, the in-flight set is
    untouched; the only trace is the line on the console. *)
Theorem admin_gate role s :
  role ≠ Some "admin" →
  let s' := set_console (console s ++ ["Access denied: Admins only."]) s in
  (∀ env req, g_role req = role →
     add_game env req s = (Some access_denied, s')) ∧
  (∀ decimal failure id req,
     update_game decimal failure role id req s = (Some access_denied, s')) ∧
  (∀ env id, delete_game_endpoint env role id s = (Some access_denied, s')) ∧
  (∀ failure name, delete_user failure role name s = (Some access_denied, s')) ∧
  (∀ env, get_orders env role s = (Some access_denied, s')) ∧
  (∀ failure, get_users failure role s = (Some (Refused access_denied), s')).
Proof.
  intros Hrole s'. repeat split.
  - intros env req <-.
    unfold add_game, serve, add_game_handler, validateAdmin.
    by rewrite bool_decide_eq_false_2.
  - intros. unfold update_game, serve, update_game_handler, validateAdmin.
    by rewrite bool_decide_eq_false_2.
  - intros. unfold delete_game_endpoint, serve, delete_game_handler, validateAdmin.
    by rewrite bool_decide_eq_false_2.
  - intros. unfold delete_user, serve, delete_user_handler, validateAdmin.
    by rewrite bool_decide_eq_false_2.
  - intros. unfold get_orders, serve, orders_handler, validateAdmin.
    by rewrite bool_decide_eq_false_2.
  - intros. unfold get_users, listing, get_users_handler, validateAdmin.
    unfold bind at 1. by rewrite bool_decide_eq_false_2.
Qed.

Lemma admin_gate_witness :
  let s' := set_console ["Access denied: Admins only."] Sample.server in
  (∀ env req, g_role req = Some "Admin" →
     add_game env req Sample.server = (Some access_denied, s')) ∧
  (∀ decimal failure id req,
     update_game decimal failure (Some "Admin") id req Sample.server
     = (Some access_denied, s')) ∧
  (∀ env id,
     delete_game_endpoint env (Some "Admin") id Sample.server
     = (Some access_denied, s')) ∧
  (∀ failure name,
     delete_user failure (Some "Admin") name Sample.server
     = (Some access_denied, s')) ∧
  (∀ env, get_orders env (Some "Admin") Sample.server
          = (Some access_denied, s')) ∧
  (∀ failure, get_users failure (Some "Admin") Sample.server
              = (Some (Refused access_denied), s')).
Proof.
  apply (admin_gate (Some "Admin") Sample.server). discriminate.
Defined.

(** ** Game creation: what is stored *)

Lemma title_check {B} (f : Z * Game → B) ttl (gs : gmap Z Game) :
  (0 <? length (f <$> map_to_list (filter (λ kv, title kv.2 = ttl) gs)))%nat
  = true ↔ title_taken ttl gs.
Proof.
  rewrite length_fmap, Nat.ltb_lt. unfold title_taken. split.
  - destruct (map_to_list _) as [|[k g] l] eqn:Heq; simpl; [lia|]. intros _.
    assert ((k, g) ∈ map_to_list (filter (λ kv, title kv.2 = ttl) gs)) as Hin
      by (rewrite Heq; apply list_elem_of_here).
    apply elem_of_map_to_list, map_lookup_filter_Some in Hin as [? ?]. eauto.
  - intros (k & g & Hk & Ht).
    assert ((k, g) ∈ map_to_list (filter (λ kv, title kv.2 = ttl) gs)) as Hin
      by (by apply elem_of_map_to_list, map_lookup_filter_Some).
    destruct (map_to_list _); [by inversion Hin | simpl; lia].
Qed.

Lemma game_form_complete_check req :
  negb (truthy_str (g_title req)) || negb (truthy_str (g_description req))
  || negb (truthy_str (g_price req)) || negb (truthy_str (g_genre req))
  || negb (truthy_str (g_platform req)) || negb (truthy_str (g_file req))
  = negb (game_form_complete req).
Proof.
  unfold game_form_complete.
  by destruct (truthy_str (g_title req)), (truthy_str (g_description req)),
    (truthy_str (g_price req)), (truthy_str (g_genre req)),
    (truthy_str (g_platform req)), (truthy_str (g_file req)).
Qed.

(** The [try] block of the game creation, by cases, where [begin] and
    [rollback] do not fail. Its last case is the insert: the store
    refuses it. *)
Lemma add_game_try_cases env req s :
  fault env TxBegin = None →
  fault env TxRollback = None →
  add_game_try env req s =
    if negb (game_form_complete req)
    then (Return {| status := 400;
                    body := JMessage false
                      "All fields are required, including an image." |},
          set_txn TxRolledBack s)
    else
      match fault env CheckTitle with
      | Some msg => (Throw msg, set_txn (TxOpen (committed s)) s)
      | None =>
          if bool_decide (title_taken (default "" (g_title req))
                            (games (committed s)))
          then (Return {| status := 400;
                          body := JMessage false
                            "Game with this title already exists." |},
                set_txn TxRolledBack s)
          else
            (Throw (default "Invalid column name 'image'."
                      (fault env InsertGame)),
             set_txn (TxOpen (committed s)) s)
      end.
Proof.
  intros Hb Hrb.
  unfold add_game_try. unfold bind at 1. unfold tx_begin. rewrite Hb.
  rewrite game_form_complete_check.
  destruct (negb (game_form_complete req)).
  { unfold bind, tx_rollback. simpl. rewrite Hrb. destruct s; reflexivity. }
  unfold bind at 1, tx_query at 1. simpl.
  destruct (fault env CheckTitle); [done|].
  destruct (bool_decide (title_taken _ _)) eqn:Htaken.
  - apply bool_decide_eq_true in Htaken.
    rewrite (proj2 (title_check _ _ _) Htaken).
    unfold bind, tx_rollback. simpl. rewrite Hrb. destruct s; reflexivity.
  - apply bool_decide_eq_false in Htaken.
    destruct (0 <? _)%nat eqn:Hcheck.
    { by apply title_check in Hcheck. }
    unfold bind at 1, tx_query at 1. simpl.
    destruct (fault env InsertGame); by destruct s.
Qed.

(** Whatever the request and whatever fails, a game creation commits
    nothing and uses no identity, and never answers "Game added
    successfully."; it answers where the transaction control works. *)
Lemma add_game_outcome env req s :
  ∃ reply s',
    add_game env req s = (reply, s') ∧
    committed s' = committed s ∧ idents s' = idents s ∧
    reply ≠ Some game_added ∧
    (tx_works env → is_Some reply).
Proof.
  destruct (decide (g_role req = Some "admin")) as [Hrole|Hrole].
  2:{ unfold add_game, serve, add_game_handler, validateAdmin.
      rewrite bool_decide_eq_false_2 by done.
      eexists _, _. split; [reflexivity|]. by eauto. }
  destruct (decide (request_id env req ∈ activeRequests s)) as [Hid|Hid].
  { unfold add_game, serve, add_game_handler, validateAdmin.
    rewrite bool_decide_eq_true_2 by done.
    rewrite bool_decide_eq_true_2 by done.
    eexists _, _. split; [reflexivity|]. by eauto. }
  destruct (add_game_processed env req s Hrole Hid)
    as (reply & s' & Heq & Hr & Hans & _ & Hc & Hi).
  exists reply, s'. repeat split; try done.
  intros ->. by destruct (Hr _ eq_refl) as [_ Hne].
Qed.

(** X9. On the schema of the repository a game creation cannot store its
    game: the INSERT names the column [image], which [games] does not
    have, and the store refuses it. An admin request that is not in
    flight, with its six fields present and a title no game has yet, is
    answered with HTTP 500 "Failed to add game." (where the store begins
    and rolls back the transaction and runs the title check); the error
    goes to the console under the request identifier, the rows and the
    identity counters are those from before, the transaction is rolled
    back and the identifier is out of the in-flight set. *)
Theorem add_game_insert_refused env req s :
  g_role req = Some "admin" →
  request_id env req ∉ activeRequests s →
  game_form_complete req = true →
  ¬ title_taken (default "" (g_title req)) (games (committed s)) →
  fault env TxBegin = None →
  fault env CheckTitle = None →
  fault env TxRollback = None →
  ∃ e s',
    add_game env req s =
      (Some {| status := 500; body := JMessage false "Failed to add game." |},
       s') ∧
    (fault env InsertGame = None → e = "Invalid column name 'image'.") ∧
    console s' =
      console s ++
        ["[" +:+ request_id env req +:+ "] Error adding game: " +:+ e] ∧
    committed s' = committed s ∧ idents s' = idents s ∧
    txn s' = TxRolledBack ∧ activeRequests s' = activeRequests s.
Proof.
  intros Hrole Hid Hc Ht Hb Hf1 Hrb.
  exists (default "Invalid column name 'image'." (fault env InsertGame)).
  unfold add_game, serve, add_game_handler, validateAdmin.
  rewrite Hrole, bool_decide_eq_true_2 by done.
  rewrite bool_decide_eq_false_2 by done.
  unfold bind at 1, activeRequests_add. unfold bind at 1, new_Transaction.
  unfold try_finally, try_catch. rewrite add_game_try_cases by done.
  rewrite Hc, Hf1. simpl. rewrite bool_decide_eq_false_2 by done.
  unfold bind, tx_rollback. simpl. rewrite Hrb. simpl.
  eexists. split; [reflexivity|]. simpl.
  split; [by intros ->|]. repeat split; try done.
  by apply add_then_delete.
Qed.

Lemma add_game_insert_refused_witness :
  ∃ e s',
    add_game Sample.env Sample.new_game Sample.server =
      (Some {| status := 500; body := JMessage false "Failed to add game." |},
       s') ∧
    (fault Sample.env InsertGame = None →
     e = "Invalid column name 'image'.") ∧
    console s' =
      [] ++ ["[" +:+ request_id Sample.env Sample.new_game
             +:+ "] Error adding game: " +:+ e] ∧
    committed s' = Sample.tables ∧ idents s' = Sample.counters ∧
    txn s' = TxRolledBack ∧ activeRequests s' = ∅.
Proof.
  apply (add_game_insert_refused Sample.env Sample.new_game Sample.server);
    try reflexivity.
  - apply not_elem_of_empty.
  - intros (k & g & Hk & Ht). vm_compute in Ht.
    change (games (committed Sample.server))
      with ({[ 1 := Sample.game "Doom"; 2 := Sample.game "Quake" ]}
              : gmap Z Game) in Hk.
    apply lookup_insert_Some in Hk as [[_ <-]|[_ Hk]]; [done|].
    apply lookup_singleton_Some in Hk as [_ <-]. done.
Defined.

(** X10. A title that a game already has is refused: the answer is HTTP
    400 "Game with this title already exists.", nothing is stored and no
    identity is used. Titles are compared as they are (exact, per
    character). (Stated where the store begins and rolls back the
    transaction and runs the title check.) *)
Theorem add_game_title_taken env req s :
  g_role req = Some "admin" →
  request_id env req ∉ activeRequests s →
  game_form_complete req = true →
  fault env TxBegin = None →
  fault env CheckTitle = None →
  fault env TxRollback = None →
  title_taken (default "" (g_title req)) (games (committed s)) →
  ∃ s',
    add_game env req s =
      (Some {| status := 400;
               body := JMessage false "Game with this title already exists." |},
       s') ∧
    committed s' = committed s ∧ idents s' = idents s ∧
    txn s' = TxRolledBack.
Proof.
  intros Hrole Hid Hc Hb Hf Hrb Ht.
  unfold add_game, serve, add_game_handler, validateAdmin.
  rewrite Hrole, bool_decide_eq_true_2 by done.
  rewrite bool_decide_eq_false_2 by done.
  unfold bind at 1, activeRequests_add. unfold bind at 1, new_Transaction.
  unfold try_finally, try_catch. rewrite add_game_try_cases by done.
  rewrite Hc, Hf. simpl. rewrite bool_decide_eq_true_2 by done.
  eexists. split; [reflexivity|]. done.
Qed.

Lemma add_game_title_taken_witness :
  ∃ s',
    add_game Sample.env
      {| g_role := Some "admin"; x_request_id := None;
         g_title := Some "Doom"; g_description := Some "Again";
         g_price := Some "9.99"; g_genre := Some "FPS";
         g_platform := Some "PC"; g_file := Some "doom.png" |}
      Sample.server =
      (Some {| status := 400;
               body := JMessage false "Game with this title already exists." |},
       s') ∧
    committed s' = Sample.tables ∧ idents s' = Sample.counters ∧
    txn s' = TxRolledBack.
Proof.
  apply (add_game_title_taken Sample.env
           {| g_role := Some "admin"; x_request_id := None;
              g_title := Some "Doom"; g_description := Some "Again";
              g_price := Some "9.99"; g_genre := Some "FPS";
              g_platform := Some "PC"; g_file := Some "doom.png" |}
           Sample.server); try reflexivity.
  - apply not_elem_of_empty.
  - exists 1, (Sample.game "Doom"). split; reflexivity.
Defined.

(** X11. Game creation stores nothing, whatever the request and whatever
    fails in the store: the committed rows and the identity counters
    after a request are those from before, and no request is answered
    "Game added successfully." (the insert is refused for its column
    [image]). Every request is answered where the store begins and rolls
    back the transaction as asked; where [begin] fails the rollback of
    the catch block throws and the request gets no reply. *)
Theorem add_game_stores_nothing env req s :
  ∃ reply s',
    add_game env req s = (reply, s') ∧
    committed s' = committed s ∧ idents s' = idents s ∧
    reply ≠ Some game_added ∧
    (tx_works env → is_Some reply) ∧
    (g_role req = Some "admin" → request_id env req ∉ activeRequests s →
     is_Some (fault env TxBegin) → reply = None).
Proof.
  destruct (add_game_outcome env req s)
    as (reply & s' & Heq & Hc & Hi & Hne & Hans).
  exists reply, s'. repeat split; try done.
  intros Hrole Hid [e He]. revert Heq.
  unfold add_game, serve, add_game_handler, validateAdmin.
  rewrite Hrole, bool_decide_eq_true_2 by done.
  rewrite bool_decide_eq_false_2 by done.
  unfold bind at 1, activeRequests_add. unfold bind at 1, new_Transaction.
  unfold try_finally, try_catch, add_game_try.
  unfold bind at 2, tx_begin. rewrite He.
  unfold bind, tx_rollback, activeRequests_delete. simpl. congruence.
Qed.



(** X13. On the schema of the repository the catalog listing never
    lists: [GET /api/games] selects the column [image], which [games]
    does not have, so whatever the catalog holds the answer is HTTP 500
    with the text of the store's error as the [error] field of the body;
    the error is logged and nothing else changes. *)
Theorem get_games_refused failure s :
  ∃ e,
    get_games failure s =
      (Some (Refused {| status := 500; body := JError e |}),
       set_console (console s ++ ["Error fetching games: " +:+ e]) s) ∧
    (failure = None → e = "Invalid column name 'image'.").
Proof.
  exists (default "Invalid column name 'image'." failure).
  unfold get_games, listing, get_games_handler, try_catch, pool_request,
    select_games.
  destruct failure; (split; [reflexivity|]); by intros.
Qed.

(** ** Updating a game *)

Lemma update_complete_check req :
  negb (truthy_str (up_title req)) || negb (truthy_str (up_price req))
  || negb (truthy_str (up_description req))
  = negb (update_complete req).
Proof.
  unfold update_complete.
  by destruct (truthy_str (up_title req)), (truthy_str (up_price req)),
    (truthy_str (up_description req)).
Qed.



(** X15. The refusals of the update change nothing: a body with title,
    price or description absent or empty gets HTTP 400 before any
    statement is sent; an id that no game has gets 404; a failure of the
    store gets 500 with the fixed message "Failed to update game." (the
    error text goes to the console only). In the three cases the rows are
    those from before. *)
Theorem update_game_refusals decimal failure id req s :
  (update_complete req = false →
   update_game decimal failure (Some "admin") id req s =
     (Some {| status := 400; body := JMessage false "All fields are required." |},
      s)) ∧
  (update_complete req = true → failure = None →
   games (committed s) !! id = None →
   update_game decimal failure (Some "admin") id req s =
     (Some {| status := 404; body := JMessage false "Game not found." |}, s)) ∧
  (∀ msg,
     update_complete req = true → failure = Some msg →
     update_game decimal failure (Some "admin") id req s =
       (Some {| status := 500; body := JMessage false "Failed to update game." |},
        set_console (console s ++ ["Error updating game: " +:+ msg]) s)).
Proof.
  unfold update_game, serve, update_game_handler, validateAdmin.
  rewrite bool_decide_eq_true_2 by done.
  rewrite update_complete_check.
  split; [|split].
  - intros ->. done.
  - intros -> -> Hg. simpl.
    unfold try_catch, bind, pool_request, update_game_row. rewrite Hg.
    simpl. by rewrite set_store_same.
  - intros msg -> ->. done.
Qed.

Lemma update_game_refusals_witness :
  update_game Demo.decimal None (Some "admin") 1
    {| up_title := Some "Doom"; up_price := Some "";
       up_description := Some "d" |} Sample.server =
    (Some {| status := 400; body := JMessage false "All fields are required." |},
     Sample.server) ∧
  update_game Demo.decimal None (Some "admin") 7 Demo.edit Sample.server =
    (Some {| status := 404; body := JMessage false "Game not found." |},
     Sample.server) ∧
  update_game Demo.decimal (Some "Connection is closed.") (Some "admin") 1
    Demo.edit Sample.server =
    (Some {| status := 500; body := JMessage false "Failed to update game." |},
     set_console ["Error updating game: Connection is closed."] Sample.server).
Proof.
  split; [|split].
  - apply (update_game_refusals Demo.decimal None 1
             {| up_title := Some "Doom"; up_price := Some "";
                up_description := Some "d" |} Sample.server).
    reflexivity.
  - apply (update_game_refusals Demo.decimal None 7 Demo.edit Sample.server);
      reflexivity.
  - apply (update_game_refusals Demo.decimal (Some "Connection is closed.") 1
             Demo.edit Sample.server); reflexivity.
Defined.

(** ** Deleting a game: the refusals *)

(** X16. Deleting a game that does not exist: the answer is HTTP 404
    "Game not found.", the transaction is rolled back, and the committed
    rows are those from before. (Stated where the store begins and rolls
    back the transaction and runs the two deletes.) *)
Theorem delete_game_not_found env id s :
  games (committed s) !! id = None →
  fault env TxBegin = None →
  fault env DeleteOrderItems = None →
  fault env DeleteGame = None →
  fault env TxRollback = None →
  ∃ s',
    delete_game_endpoint env (Some "admin") id s =
      (Some {| status := 404; body := JMessage false "Game not found." |}, s') ∧
    committed s' = committed s ∧ txn s' = TxRolledBack.
Proof.
  intros Hg Hb Hf1 Hf2 Hrb.
  unfold delete_game_endpoint, delete_game_handler.
  unfold_handler. rewrite bool_decide_eq_true_2 by done.
  rewrite Hb, Hf1, Hf2. unfold delete_order_items, delete_game.
  cbn [txn set_txn set_idents set_committed committed idents games
       order_items inventory].
  rewrite Hg. simpl. rewrite Hrb. eexists. split; [reflexivity|]. done.
Qed.

Lemma delete_game_not_found_witness :
  ∃ s',
    delete_game_endpoint Sample.env (Some "admin") 7 Sample.sold =
      (Some {| status := 404; body := JMessage false "Game not found." |}, s') ∧
    committed s' = committed Sample.sold ∧ txn s' = TxRolledBack.
Proof.
  apply (delete_game_not_found Sample.env 7 Sample.sold); reflexivity.
Defined.

(** X17. A game that has a stock row cannot be deleted: the handler
    removes the order items of the game but not its row of [inventory],
    so the delete of the game fails on the foreign key of [inventory];
    the answer is HTTP 500 "Failed to delete game.", the transaction is
    rolled back, and nothing is removed, the order items included.
    (Stated where the store begins and rolls back the transaction;
    whether the two deletes fail for another reason does not matter.) *)
Theorem delete_game_with_stock env id g stock s :
  games (committed s) !! id = Some g →
  inventory (committed s) !! id = Some stock →
  fault env TxBegin = None →
  fault env TxRollback = None →
  ∃ s',
    delete_game_endpoint env (Some "admin") id s =
      (Some {| status := 500; body := JMessage false "Failed to delete game." |},
       s') ∧
    committed s' = committed s ∧ txn s' = TxRolledBack.
Proof.
  intros Hg Hinv Hb Hrb.
  unfold delete_game_endpoint, delete_game_handler.
  unfold_handler. rewrite bool_decide_eq_true_2 by done.
  rewrite Hb.
  destruct (fault env DeleteOrderItems).
  { simpl. rewrite Hrb. eexists. split; [reflexivity|]. done. }
  destruct (fault env DeleteGame).
  { simpl. rewrite Hrb. eexists. split; [reflexivity|]. done. }
  unfold delete_order_items, delete_game.
  cbn [txn set_txn set_idents set_committed committed idents games
       order_items inventory].
  rewrite Hg.
  rewrite bool_decide_eq_false_2 by apply no_item_of_game_left.
  rewrite Hinv. simpl. rewrite Hrb. eexists. split; [reflexivity|]. done.
Qed.

Lemma delete_game_with_stock_witness :
  ∃ s',
    delete_game_endpoint Sample.env (Some "admin") 2 Sample.server =
      (Some {| status := 500; body := JMessage false "Failed to delete game." |},
       s') ∧
    committed s' = Sample.tables ∧ txn s' = TxRolledBack.
Proof.
  apply (delete_game_with_stock Sample.env 2 (Sample.game "Quake") 4
           Sample.server); reflexivity.
Defined.

(** ** Registration and login together *)

(** X18. A register request with a field absent or empty is answered
    "All fields are required." (with HTTP status 200, as every reply of
    this handler) before any statement is sent; nothing changes. *)
Theorem register_missing_field env req s :
  register_complete req = false →
  register env req s =
    (Some {| status := 200; body := JMessage false "All fields are required." |},
     s).
Proof.
  unfold register_complete, register, register_handler. intros Hc.
  destruct (truthy_str (r_username req)), (truthy_str (r_email req)),
    (truthy_str (r_password req)), (truthy_str (r_role req));
    simplify_eq; done.
Qed.

Lemma register_missing_field_witness :
  register Sample.env
    {| r_username := Some "bob"; r_email := Some "bob@example.com";
       r_password := Some ""; r_role := Some "customer" |} Sample.server =
    (Some {| status := 200; body := JMessage false "All fields are required." |},
     Sample.server).
Proof.
  apply (register_missing_field Sample.env
           {| r_username := Some "bob"; r_email := Some "bob@example.com";
              r_password := Some ""; r_role := Some "customer" |}
           Sample.server).
  reflexivity.
Defined.

(** Every registration is answered; it either appends one user whose
    email was free, or leaves the committed rows alone. *)
Lemma register_outcome env req s :
  ∃ r s',
    register env req s = (Some r, s') ∧
    ((∃ u, (email u ∉ email <$> users (committed s)) ∧
           users (committed s') = users (committed s) ++ [u])
     ∨ committed s' = committed s).
Proof.
  destruct (register_complete req) eqn:Hc.
  2:{ rewrite register_missing_field by done.
      eexists _, _. split; [reflexivity|]. by right. }
  rewrite register_checked by done.
  unfold serve, try_catch, bind, pool_query, select_email.
  destruct (fault env CheckEmail).
  { eexists _, _. split; [reflexivity|]. by right. }
  cbv beta iota. rewrite email_taken.
  destruct (bool_decide _) eqn:Hb.
  { eexists _, _. split; [reflexivity|]. right. done. }
  apply bool_decide_eq_false in Hb.
  destruct (fault env InsertUser).
  { eexists _, _. split; [reflexivity|]. right. done. }
  unfold insert_user. simpl. rewrite bool_decide_eq_false_2 by done.
  destruct (negb _); simpl.
  { eexists _, _. split; [reflexivity|]. right. done. }
  eexists _, _. split; [reflexivity|]. left. simpl.
  eexists. split; [|reflexivity]. done.
Qed.

(** X19. Registration keeps emails unique: if no two users share an
    email before a register request, none do after it, whatever the
    request and its outcome. *)
Theorem register_keeps_emails_unique env req s :
  NoDup (email <$> users (committed s)) →
  NoDup (email <$> users (committed (register env req s).2)).
Proof.
  intros Hnd.
  destruct (register_outcome env req s)
    as (r & s' & Heq & [(u & Hfree & Hu)|Hc]); rewrite Heq; simpl.
  - rewrite Hu, fmap_app. apply NoDup_app. split; [done|]. split.
    + intros mail Hin Hin'. apply list_elem_of_singleton in Hin' as ->. done.
    + apply NoDup_singleton.
  - by rewrite Hc.
Qed.

Lemma register_keeps_emails_unique_witness :
  NoDup (email <$> users (committed
           (register Sample.env (Sample.sign_up "bob@example.com" "customer")
              Sample.server).2)).
Proof.
  apply (register_keeps_emails_unique Sample.env
           (Sample.sign_up "bob@example.com" "customer") Sample.server).
  apply NoDup_singleton.
Defined.

(** X20. A login with the right email and password and the role of the
    account, written in any letter case, succeeds: the answer carries
    [userType], "admin" for role id 2 and "customer" otherwise, and the
    user's id. *)
Theorem login_success env req user pw role s :
  fault env SelectUser = None →
  login_account (committed s) (l_email req) = Some user →
  l_password req = Some pw →
  bcrypt_compare env pw (password user) = true →
  l_role req = Some role →
  toLowerCase role = role_name user →
  (login env req s).1 =
    Some {| status := 200;
            body := JLogin true (role_name user) (user_id user) |}.
Proof.
  intros Hf Hacc Hpw Hcmp Hrole Hlow.
  rewrite (login_reply env req s Hf), Hacc, Hpw, Hcmp, Hrole. simpl.
  by rewrite Hlow, String.eqb_refl.
Qed.

Lemma login_success_witness :
  (login Sample.env (Sample.sign_in "ADMIN" "ann@example.com" "secret")
     Sample.server).1 =
    Some {| status := 200; body := JLogin true "admin" 1 |}.
Proof.
  apply (login_success Sample.env
           (Sample.sign_in "ADMIN" "ann@example.com" "secret")
           {| user_id := 1; username := "ann"; email := "ann@example.com";
              password := "bcrypt:secret"; role_id := 2 |}
           "secret" "ADMIN" Sample.server); reflexivity.
Defined.

(** X21. A login request with no password tells whether the email is
    registered: for an unknown email the answer is the uniform "Invalid
    email or password." (status 200), for a registered one bcrypt rejects
    the missing password and the answer is HTTP 500 "Server error.". *)
Theorem login_without_password env req s :
  fault env SelectUser = None →
  l_password req = None →
  (login_account (committed s) (l_email req) = None →
   (login env req s).1 =
     Some {| status := 200;
             body := JMessage false "Invalid email or password." |}) ∧
  (∀ user,
     login_account (committed s) (l_email req) = Some user →
     (login env req s).1 =
       Some {| status := 500; body := JMessage false "Server error." |}).
Proof.
  intros Hf Hpw. rewrite (login_reply env req s Hf), Hpw.
  split; [by intros ->|]. by intros user ->.
Qed.

Lemma login_without_password_witness :
  (login Sample.env
     {| l_role := Some "admin"; l_email := Some "nobody@example.com";
        l_password := None |} Sample.server).1 =
    Some {| status := 200; body := JMessage false "Invalid email or password." |} ∧
  (login Sample.env
     {| l_role := Some "admin"; l_email := Some "ann@example.com";
        l_password := None |} Sample.server).1 =
    Some {| status := 500; body := JMessage false "Server error." |}.
Proof.
  split.
  - apply (login_without_password Sample.env
             {| l_role := Some "admin"; l_email := Some "nobody@example.com";
                l_password := None |} Sample.server); reflexivity.
  - apply (proj2 (login_without_password Sample.env
             {| l_role := Some "admin"; l_email := Some "ann@example.com";
                l_password := None |} Sample.server eq_refl eq_refl)
             {| user_id := 1; username := "ann"; email := "ann@example.com";
                password := "bcrypt:secret"; role_id := 2 |}).
    reflexivity.
Defined.

Lemma no_account (l : list User) mail :
  mail ∉ email <$> l →
  filter (λ u, Some (email u) = Some mail ∧ role_id u ∈ user_roles.*1) l = [].
Proof.
  induction l as [|x l IH]; [done|].
  rewrite fmap_cons, not_elem_of_cons. intros [Hx Hl].
  rewrite filter_cons, decide_False; [by apply IH|].
  intros [Heq _]. by simplify_eq.
Qed.

Lemma login_account_new t t' mail u :
  users t' = users t ++ [u] →
  mail ∉ email <$> users t →
  email u = mail →
  role_id u ∈ user_roles.*1 →
  login_account t' (Some mail) = Some u.
Proof.
  intros Hu Hfree Hmail Hrole. unfold login_account.
  rewrite Hu, filter_app, no_account by done.
  rewrite filter_cons, decide_True by (by rewrite Hmail). done.
Qed.

(** X22. Register, then log in. After a successful registration with
    password [pw] and role string [role], when bcrypt verifies a password
    against its own hash, a login with the same email and password
    succeeds for the requested role [asked] exactly as the stored role
    says: the account is an admin only if [role] was exactly "admin" and
    a customer for every other string, so a user who registered as
    "Admin" is let in as "customer" and refused as "Admin". *)
Theorem register_then_login env env2 req mail pw role asked s s' :
  r_email req = Some mail →
  r_password req = Some pw →
  r_role req = Some role →
  register env req s =
    (Some {| status := 200;
             body := JMessage true "Registration successful." |}, s') →
  fault env2 SelectUser = None →
  bcrypt_compare env2 pw (bcrypt_hash env pw) = true →
  let stored := if String.eqb role "admin" then "admin" else "customer" in
  (toLowerCase asked = stored →
   (login env2 {| l_role := Some asked; l_email := Some mail;
                  l_password := Some pw |} s').1 =
     Some {| status := 200;
             body := JLogin true stored (next_user_id (idents s)) |}) ∧
  (toLowerCase asked ≠ stored →
   (login env2 {| l_role := Some asked; l_email := Some mail;
                  l_password := Some pw |} s').1 =
     Some {| status := 200;
             body := JMessage false
                       ("Access denied: not a " +:+ asked +:+ ".") |}).
Proof.
  intros Hm Hp Hr Hreg Hf Hcmp stored.
  pose proof (register_success_inv _ _ _ _ Hreg) as (Hc & Hfree & _).
  rewrite Hm in Hfree. simpl in Hfree.
  destruct (register_complete_fields req Hc)
    as (name & mail' & pw' & role' & Hn & Hm' & Hp' & Hr' & _).
  rewrite Hm in Hm'. rewrite Hp in Hp'. rewrite Hr in Hr'. simplify_eq.
  assert (fault env CheckEmail = None ∧ fault env InsertUser = None)
    as [Hf1 Hf2].
  { rewrite register_checked in Hreg by done.
    unfold serve, try_catch, bind, pool_query in Hreg.
    destruct (fault env CheckEmail); [simpl in Hreg; simplify_eq|].
    split; [done|]. unfold select_email in Hreg. cbv beta iota in Hreg.
    rewrite email_taken, Hm in Hreg. simpl in Hreg.
    rewrite bool_decide_eq_false_2 in Hreg by done.
    destruct (fault env InsertUser); [simpl in Hreg; simplify_eq|]. done. }
  destruct (register_fresh env req s) as (s1 & Hreg' & Hu); try done.
  { by rewrite Hm. }
  rewrite Hreg in Hreg'. simplify_eq.
  rewrite Hn, Hm, Hp, Hr in Hu. simpl in Hu.
  set (u := {| user_id := next_user_id (idents s); username := name;
               email := mail'; password := bcrypt_hash env pw';
               role_id := if String.eqb role' "admin" then 2 else 1 |}) in Hu.
  assert (login_account (committed s1) (Some mail') = Some u) as Hacc.
  { eapply login_account_new; [done..|].
    unfold u. simpl. destruct (String.eqb role' "admin").
    - apply list_elem_of_further, list_elem_of_here.
    - apply list_elem_of_here. }
  assert (role_name u = stored) as Hname.
  { unfold role_name, stored, u. simpl. by destruct (String.eqb role' "admin"). }
  rewrite (login_reply env2 _ s1 Hf). simpl. rewrite Hacc.
  change (password u) with (bcrypt_hash env pw'). rewrite Hcmp. simpl.
  rewrite Hname. split.
  - intros ->. by rewrite String.eqb_refl.
  - intros Hne. destruct (String.eqb stored (toLowerCase asked)) eqn:Heq;
      [|done].
    apply String.eqb_eq in Heq. congruence.
Qed.

Lemma register_then_login_witness :
  let s' := (register Sample.env (Sample.sign_up "bob@example.com" "Admin")
               Sample.server).2 in
  (login Sample.env (Sample.sign_in "Customer" "bob@example.com" "hunter2")
     s').1 =
    Some {| status := 200; body := JLogin true "customer" 2 |} ∧
  (login Sample.env (Sample.sign_in "Admin" "bob@example.com" "hunter2")
     s').1 =
    Some {| status := 200;
            body := JMessage false "Access denied: not a Admin." |}.
Proof.
  intros s'.
  assert (register Sample.env (Sample.sign_up "bob@example.com" "Admin")
            Sample.server =
          (Some {| status := 200;
                   body := JMessage true "Registration successful." |}, s'))
    as Hreg by (vm_compute; reflexivity).
  split.
  - apply (proj1 (register_then_login Sample.env Sample.env
                    (Sample.sign_up "bob@example.com" "Admin")
                    "bob@example.com" "hunter2" "Admin" "Customer"
                    Sample.server s' eq_refl eq_refl eq_refl Hreg
                    eq_refl eq_refl)).
    reflexivity.
  - apply (proj2 (register_then_login Sample.env Sample.env
                    (Sample.sign_up "bob@example.com" "Admin")
                    "bob@example.com" "hunter2" "Admin" "Admin"
                    Sample.server s' eq_refl eq_refl eq_refl Hreg
                    eq_refl eq_refl)).
    discriminate.
Defined.

(** ** The user listing and the deletion of users *)

Lemma get_users_rows s :
  get_users None (Some "admin") s =
    (Some (Listed
             (omap (λ u,
                      (λ name, {| ur_username := username u;
                                  ur_email := email u;
                                  ur_role_name := name |})
                        <$> status_name user_roles (role_id u))
                (users (committed s)))), s).
Proof.
  unfold get_users, listing, get_users_handler, validateAdmin.
  rewrite bool_decide_eq_true_2 by done.
  unfold bind, pure, try_catch, pool_request, select_users.
  by rewrite set_store_same.
Qed.

(** X23. A user who has registered is in the user listing: after a
    successful registration [GET /api/users] has a row with the user's
    name and email and the role name "admin" when the role string was
    exactly "admin", "customer" otherwise. The rows carry no password
    column. *)
Theorem register_then_listed env req name mail role s s' :
  r_username req = Some name →
  r_email req = Some mail →
  r_role req = Some role →
  register env req s =
    (Some {| status := 200;
             body := JMessage true "Registration successful." |}, s') →
  ∃ rows,
    get_users None (Some "admin") s' = (Some (Listed rows), s') ∧
    {| ur_username := name; ur_email := mail;
       ur_role_name :=
         if String.eqb role "admin" then "admin" else "customer" |} ∈ rows.
Proof.
  intros Hn Hm Hr Hreg.
  pose proof (register_success_inv _ _ _ _ Hreg) as (Hc & Hfree & _).
  assert (fault env CheckEmail = None ∧ fault env InsertUser = None)
    as [Hf1 Hf2].
  { rewrite register_checked in Hreg by done.
    unfold serve, try_catch, bind, pool_query in Hreg.
    destruct (fault env CheckEmail); [simpl in Hreg; simplify_eq|].
    split; [done|]. unfold select_email in Hreg. cbv beta iota in Hreg.
    rewrite email_taken in Hreg.
    rewrite bool_decide_eq_false_2 in Hreg by done.
    destruct (fault env InsertUser); [simpl in Hreg; simplify_eq|]. done. }
  destruct (register_fresh env req s) as (s1 & Hreg' & Hu); try done.
  rewrite Hreg in Hreg'. simplify_eq.
  rewrite Hn, Hm, Hr in Hu. simpl in Hu.
  eexists. split; [apply get_users_rows|].
  rewrite Hu. apply list_elem_of_omap. eexists. split.
  - apply elem_of_app. right. apply list_elem_of_here.
  - simpl. by destruct (String.eqb role "admin").
Qed.

Lemma register_then_listed_witness :
  let s' := (register Sample.env (Sample.sign_up "bob@example.com" "Admin")
               Sample.server).2 in
  ∃ rows,
    get_users None (Some "admin") s' = (Some (Listed rows), s') ∧
    {| ur_username := "bob"; ur_email := "bob@example.com";
       ur_role_name := "customer" |} ∈ rows.
Proof.
  intros s'.
  apply (register_then_listed Sample.env
           (Sample.sign_up "bob@example.com" "Admin")
           "bob" "bob@example.com" "Admin" Sample.server s');
    reflexivity.
Defined.

Lemma delete_user_blocked_check name t :
  bool_decide
    (Exists (λ u, Some (user_id u) ∈ o_user_id <$> orders t)
       (filter (λ u, username u = name) (users t))) = true ↔
  ∃ u o, u ∈ users t ∧ username u = name ∧ o ∈ orders t ∧
         o_user_id o = Some (user_id u).
Proof.
  rewrite bool_decide_eq_true, Exists_exists. split.
  - intros (u & Hu & Ho). apply list_elem_of_filter in Hu as [Hn Hu].
    apply list_elem_of_fmap in Ho as (o & Ho & Hin). eauto 10.
  - intros (u & o & Hu & Hn & Ho & Hid). exists u. split.
    + by apply list_elem_of_filter.
    + rewrite <- Hid. by apply list_elem_of_fmap_2.
Qed.

(** X24. Deleting a user removes every user row with that name (the
    name is not a key, so there may be several) and nothing else: when a
    user has the name and no order references any of them, the answer is
    "User deleted successfully.", the users left are exactly those with
    another name, in their order, and the other tables are untouched. *)
Theorem delete_user_removes name s :
  (∃ u, u ∈ users (committed s) ∧ username u = name) →
  (∀ u o, u ∈ users (committed s) → username u = name →
          o ∈ orders (committed s) → o_user_id o ≠ Some (user_id u)) →
  ∃ s',
    delete_user None (Some "admin") name s =
      (Some {| status := 200;
               body := JMessage true "User deleted successfully." |}, s') ∧
    users (committed s') =
      filter (λ u, username u ≠ name) (users (committed s)) ∧
    games (committed s') = games (committed s) ∧
    orders (committed s') = orders (committed s) ∧
    order_items (committed s') = order_items (committed s) ∧
    payments (committed s') = payments (committed s) ∧
    inventory (committed s') = inventory (committed s).
Proof.
  intros (u & Hu & Hn) Hfree.
  unfold delete_user, serve, delete_user_handler, validateAdmin.
  rewrite bool_decide_eq_true_2 by done.
  unfold try_catch, bind, pool_request, delete_user_rows.
  destruct (bool_decide (Exists _ _)) eqn:Hb.
  { apply delete_user_blocked_check in Hb as (u' & o & ? & ? & ? & ?).
    by destruct (Hfree u' o). }
  assert (u ∈ filter (λ u, username u = name) (users (committed s))) as Hin
    by (by apply list_elem_of_filter).
  destruct (filter (λ u, username u = name) (users (committed s)))
    as [|x l] eqn:Heq; [by inversion Hin|].
  simpl. eexists. split; [reflexivity|]. done.
Qed.

Lemma delete_user_removes_witness :
  ∃ s',
    delete_user None (Some "admin") "bob" Demo.crowd =
      (Some {| status := 200;
               body := JMessage true "User deleted successfully." |}, s') ∧
    users (committed s') =
      filter (λ u, username u ≠ "bob") (users (committed Demo.crowd)) ∧
    games (committed s') = games (committed Demo.crowd) ∧
    orders (committed s') = orders (committed Demo.crowd) ∧
    order_items (committed s') = order_items (committed Demo.crowd) ∧
    payments (committed s') = payments (committed Demo.crowd) ∧
    inventory (committed s') = inventory (committed Demo.crowd).
Proof.
  apply (delete_user_removes "bob" Demo.crowd).
  - eexists. split; [apply list_elem_of_further, list_elem_of_here|].
    reflexivity.
  - intros u o Hu Hn Ho.
    apply list_elem_of_singleton in Ho as ->.
    apply elem_of_cons in Hu as [->|Hu]; [discriminate|].
    apply list_elem_of_singleton in Hu as ->. discriminate.
Defined.

(** X25. The refusals of the user deletion change nothing: a name that
    no user has gets HTTP 404 "User not found."; a name that belongs to a
    user whom an order references gets HTTP 500 "Failed to delete user."
    (the foreign key of [orders] has no cascade, so a customer who has
    ordered cannot be deleted), also when other users of that name have
    no order. *)
Theorem delete_user_refusals name s :
  ((∀ u, u ∈ users (committed s) → username u ≠ name) →
   delete_user None (Some "admin") name s =
     (Some {| status := 404; body := JMessage false "User not found." |}, s)) ∧
  (∀ u o,
     u ∈ users (committed s) → username u = name →
     o ∈ orders (committed s) → o_user_id o = Some (user_id u) →
     ∃ s',
       delete_user None (Some "admin") name s =
         (Some {| status := 500;
                  body := JMessage false "Failed to delete user." |}, s') ∧
       committed s' = committed s).
Proof.
  unfold delete_user, serve, delete_user_handler, validateAdmin.
  rewrite bool_decide_eq_true_2 by done.
  unfold try_catch, bind, pool_request, delete_user_rows. split.
  - intros Hnone.
    assert (filter (λ u, username u = name) (users (committed s)) = []) as ->.
    { induction (users (committed s)) as [|x l IH]; [done|].
      rewrite filter_cons, decide_False.
      - apply IH. intros u Hu. apply Hnone. by apply list_elem_of_further.
      - apply Hnone, list_elem_of_here. }
    rewrite bool_decide_eq_false_2 by (intros Hex; inversion Hex).
    simpl.
    assert (filter (λ u, username u ≠ name) (users (committed s))
            = users (committed s)) as ->.
    { induction (users (committed s)) as [|x l IH]; [done|].
      rewrite filter_cons, decide_True.
      - f_equal. apply IH. intros u Hu. apply Hnone.
        by apply list_elem_of_further.
      - apply Hnone, list_elem_of_here. }
    by destruct s as [[] ? ? ? ?].
  - intros u o Hu Hn Ho Hid.
    rewrite (proj2 (delete_user_blocked_check name (committed s))) by eauto 10.
    eexists. split; [reflexivity|]. done.
Qed.

Lemma delete_user_refusals_witness :
  delete_user None (Some "admin") "carol" Demo.crowd =
    (Some {| status := 404; body := JMessage false "User not found." |},
     Demo.crowd) ∧
  ∃ s',
    delete_user None (Some "admin") "ann" Demo.crowd =
      (Some {| status := 500;
               body := JMessage false "Failed to delete user." |}, s') ∧
    committed s' = committed Demo.crowd.
Proof.
  split.
  - apply (delete_user_refusals "carol" Demo.crowd).
    intros u Hu.
    apply elem_of_cons in Hu as [->|Hu]; [discriminate|].
    apply list_elem_of_singleton in Hu as ->. discriminate.
  - apply (proj2 (delete_user_refusals "ann" Demo.crowd)
             {| user_id := 1; username := "ann"; email := "ann@example.com";
                password := "bcrypt:secret"; role_id := 2 |}
             {| order_id := 1; o_user_id := Some 1; order_date := 1000;
                total_amount := 2498; o_status_id := 1 |}).
    + apply list_elem_of_here.
    + reflexivity.
    + apply list_elem_of_here.
    + reflexivity.
Defined.

(** ** The order report and the view *)

Lemma order_rows_length t o :
  length (order_rows t o) =
    Nat.max 1 (length (filter (λ it, oi_order_id it = order_id o)
                         (order_items t))).
Proof.
  unfold order_rows. destruct (filter _ _) as [|it l]; [done|].
  rewrite length_fmap. simpl. lia.
Qed.

Lemma order_rows_order t o row :
  row ∈ order_rows t o →
  r_order_id row = order_id o ∧ r_order_date row = order_date o ∧
  r_total_amount row = total_amount o.
Proof.
  unfold order_rows. destruct (filter _ _) as [|it l].
  - intros Hin. by apply list_elem_of_singleton in Hin as ->.
  - intros Hin. by apply list_elem_of_fmap in Hin as (? & -> & _).
Qed.

Lemma order_rows_nonempty t o : ∃ row, row ∈ order_rows t o.
Proof.
  unfold order_rows. destruct (filter _ _) as [|it l].
  - eexists. apply list_elem_of_here.
  - eexists. rewrite fmap_cons. apply list_elem_of_here.
Qed.

Lemma length_list_bind {A B} (f : A → list B) (l : list A) :
  length (l ≫= f) = sum_list_with (λ x, length (f x)) l.
Proof.
  induction l as [|x l IH]; [done|].
  rewrite bind_cons, length_app, IH. done.
Qed.

(** X26. The order report lists every order, and only orders: with the
    store working, the report is read without changing anything; every
    order has at least one row (an order with no item has exactly one,
    a guest order is listed too); every row belongs to an order of the
    store; and the number of rows is, summed over the orders, the number
    of items of the order, or 1 for an order without items. *)
Theorem report_lists_every_order env s :
  fault env SelectOrders = None →
  ∃ rows,
    get_orders env (Some "admin") s =
      (Some {| status := 200; body := JRows rows |}, s) ∧
    (∀ o, o ∈ orders (committed s) →
       ∃ row, row ∈ rows ∧ r_order_id row = order_id o ∧
              r_order_date row = order_date o ∧
              r_total_amount row = total_amount o) ∧
    (∀ row, row ∈ rows →
       ∃ o, o ∈ orders (committed s) ∧ r_order_id row = order_id o) ∧
    length rows =
      sum_list_with
        (λ o, Nat.max 1 (length (filter (λ it, oi_order_id it = order_id o)
                                   (order_items (committed s)))))
        (orders (committed s)).
Proof.
  intros Hf. eexists. split; [by apply get_orders_rows|].
  split; [|split].
  - intros o Ho.
    destruct (order_rows_nonempty (committed s) o) as [row Hrow].
    exists row. split; [|by apply (order_rows_order (committed s))].
    apply elem_of_report. eauto.
  - intros row Hrow. apply elem_of_report in Hrow as (o & Ho & Hrow).
    exists o. split; [done|]. by apply (order_rows_order (committed s)).
  - rewrite merge_sort_Permutation, length_list_bind.
    induction (orders (committed s)) as [|o l IH]; [done|].
    simpl. by rewrite order_rows_length, IH.
Qed.

Lemma report_lists_every_order_witness :
  ∃ rows,
    get_orders Sample.env (Some "admin") Sample.sold =
      (Some {| status := 200; body := JRows rows |}, Sample.sold) ∧
    (∀ o, o ∈ orders (committed Sample.sold) →
       ∃ row, row ∈ rows ∧ r_order_id row = order_id o ∧
              r_order_date row = order_date o ∧
              r_total_amount row = total_amount o) ∧
    (∀ row, row ∈ rows →
       ∃ o, o ∈ orders (committed Sample.sold) ∧ r_order_id row = order_id o) ∧
    length rows =
      sum_list_with
        (λ o, Nat.max 1 (length (filter (λ it, oi_order_id it = order_id o)
                                   (order_items (committed Sample.sold)))))
        (orders (committed Sample.sold)).
Proof.
  apply (report_lists_every_order Sample.env Sample.sold). reflexivity.
Defined.

Lemma elem_of_user_order_details t d :
  d ∈ user_order_details t ↔
  ∃ u o oi g,
    u ∈ users t ∧ o ∈ orders t ∧ o_user_id o = Some (user_id u) ∧
    oi ∈ order_items t ∧ oi_order_id oi = order_id o ∧
    games t !! oi_game_id oi = Some g ∧
    d = {| od_username := username u; od_order_id := order_id o;
           od_order_date := order_date o; od_title := title g;
           od_quantity := quantity oi; od_price := oi_price oi |}.
Proof.
  unfold user_order_details. rewrite list_elem_of_bind. split.
  - intros (u & Hd & Hu).
    apply list_elem_of_bind in Hd as (o & Hd & Ho).
    apply list_elem_of_bind in Hd as (oi & Hd & Hoi).
    apply list_elem_of_filter in Ho as [Hou Ho].
    apply list_elem_of_filter in Hoi as [Hoio Hoi].
    destruct (games t !! oi_game_id oi) as [g|] eqn:Hg; [|by inversion Hd].
    apply list_elem_of_singleton in Hd. eauto 15.
  - intros (u & o & oi & g & Hu & Ho & Hou & Hoi & Hoio & Hg & ->).
    exists u. split; [|done].
    apply list_elem_of_bind. exists o. split; [|by apply list_elem_of_filter].
    apply list_elem_of_bind. exists oi. split; [|by apply list_elem_of_filter].
    rewrite Hg. apply list_elem_of_here.
Qed.

(** X27. The view [user_order_details] after a checkout. When the
    checkout of a registered user succeeds, the view has a row for every
    line of the cart, with the user's name, the new order's id and date,
    the title of the game, and the line's quantity and price. A guest
    order (no user id, or user id 0) never shows in the view: with the
    counter of [orders] ahead of the stored ids, no row of the view
    carries the id of the new order. *)
Theorem checkout_in_view env req cart s oid s' :
  items req = Some cart →
  checkout env req s =
    (Some {| status := 200; body := JOrder true oid |}, s') →
  (∀ u item,
     u ∈ users (committed s) → or_null (userId req) = Some (user_id u) →
     item ∈ cart →
     ∃ g,
       games (committed s) !! ci_game_id item = Some g ∧
       {| od_username := username u; od_order_id := oid;
          od_order_date := now env; od_title := title g;
          od_quantity := ci_quantity item; od_price := ci_price item |}
       ∈ user_order_details (committed s')) ∧
  (or_null (userId req) = None → order_ids_issued s →
   ∀ d, d ∈ user_order_details (committed s') → od_order_id d ≠ oid).
Proof.
  intros Hi H.
  destruct (checkout_success_inv _ _ _ _ _ H)
    as (cart' & total & method & Hi' & _ & _ & Htry).
  rewrite Hi in Hi'. simplify_eq.
  apply checkout_try_success in Htry
    as (_ & _ & Hall & Hoid & Hu & Hg & Ho & Hoi & _).
  simpl in *. split.
  - intros u item Hin Huid Hitem.
    destruct (Hall item Hitem) as [g Hgame]. exists g. split; [done|].
    destruct (item_rows_line oid (next_order_item_id (idents s)) cart' item
                Hitem) as (it & Hit & Hito & Hgid & Hq & Hp).
    apply elem_of_user_order_details.
    eexists u, _, it, g. rewrite Hu, Ho, Hoi, Hg.
    split; [done|]. split; [apply elem_of_app; right; apply list_elem_of_here|].
    simpl. split; [done|]. split; [apply elem_of_app; by right|].
    split; [done|]. split; [by rewrite Hgid|].
    by rewrite Hq, Hp.
  - intros Hguest (Hissued & _ & _) d Hd.
    apply elem_of_user_order_details in Hd
      as (u & o & oi & g & _ & Hin & Hou & _ & _ & _ & ->).
    simpl. rewrite Ho in Hin. apply elem_of_app in Hin as [Hin|Hin].
    + rewrite Forall_forall in Hissued. specialize (Hissued o Hin).
      simpl in Hissued. lia.
    + apply list_elem_of_singleton in Hin as ->. simpl in Hou.
      congruence.
Qed.

Lemma checkout_in_view_witness :
  let s' := (checkout Sample.env (Sample.cart_req [Sample.line 2 3 499] 2)
               Sample.server).2 in
  let guest := {| items := Some [Sample.line 2 3 499];
                  totalAmount := Some 1497; paymentMethodId := Some 2;
                  userId := None |} in
  (∃ g,
     games Sample.tables !! 2 = Some g ∧
     {| od_username := "ann"; od_order_id := 1; od_order_date := 1000;
        od_title := title g; od_quantity := 3; od_price := 499 |}
     ∈ user_order_details (committed s')) ∧
  (∀ d, d ∈ user_order_details
              (committed (checkout Sample.env guest Sample.server).2) →
        od_order_id d ≠ 1).
Proof.
  intros s' guest. split.
  - apply (proj1 (checkout_in_view Sample.env
                    (Sample.cart_req [Sample.line 2 3 499] 2)
                    [Sample.line 2 3 499] Sample.server 1 s' eq_refl eq_refl)
             {| user_id := 1; username := "ann"; email := "ann@example.com";
                password := "bcrypt:secret"; role_id := 2 |}
             (Sample.line 2 3 499)).
    + apply list_elem_of_here.
    + reflexivity.
    + apply list_elem_of_here.
  - apply (proj2 (checkout_in_view Sample.env guest [Sample.line 2 3 499]
                    Sample.server 1 _ eq_refl eq_refl)).
    + reflexivity.
    + unfold order_ids_issued. simpl. repeat split; constructor.
Defined.

(** ** Round trips of the admin operations *)

(** X28. An updated game shows under its new title in the order report:
    after a successful update of a game, every order line of that game is
    listed by [GET /api/orders] with the submitted title; the price shown
    on the line is still the price of the line, not the new price of the
    game. *)
Theorem update_game_then_report decimal env id req g o it s :
  update_complete req = true →
  games (committed s) !! id = Some g →
  fault env SelectOrders = None →
  o ∈ orders (committed s) →
  it ∈ order_items (committed s) →
  oi_order_id it = order_id o →
  oi_game_id it = id →
  ∃ s' rows row,
    update_game decimal None (Some "admin") id req s =
      (Some {| status := 200;
               body := JMessage true "Game updated successfully." |}, s') ∧
    get_orders env (Some "admin") s' =
      (Some {| status := 200; body := JRows rows |}, s') ∧
    row ∈ rows ∧ r_order_id row = order_id o ∧
    r_order_item_id row = Some (order_item_id it) ∧
    r_game_title row = default "" (up_title req) ∧
    r_quantity row = Some (quantity it) ∧
    r_price row = Some (oi_price it).
Proof.
  intros Hc Hg Hf Ho Hit Hoid Hgid.
  unfold update_game, serve, update_game_handler, validateAdmin.
  rewrite bool_decide_eq_true_2 by done.
  rewrite update_complete_check, Hc. simpl.
  unfold try_catch, bind, pool_request, update_game_row. rewrite Hg. simpl.
  eexists _, _, (report_row _ o (Some it)).
  split; [reflexivity|]. split; [by apply get_orders_rows|].
  split.
  - apply elem_of_report. exists o. split; [done|].
    by apply order_rows_item.
  - simpl. rewrite Hgid, lookup_insert_eq. done.
Qed.

Lemma update_game_then_report_witness :
  ∃ s' rows row,
    update_game Demo.decimal None (Some "admin") 1 Demo.edit Sample.sold =
      (Some {| status := 200;
               body := JMessage true "Game updated successfully." |}, s') ∧
    get_orders Sample.env (Some "admin") s' =
      (Some {| status := 200; body := JRows rows |}, s') ∧
    row ∈ rows ∧ r_order_id row = 1 ∧
    r_order_item_id row = Some 1 ∧
    r_game_title row = "Doom Eternal" ∧
    r_quantity row = Some 1 ∧
    r_price row = Some 1999.
Proof.
  apply (update_game_then_report Demo.decimal Sample.env 1 Demo.edit
           (Sample.game "Doom")
           {| order_id := 1; o_user_id := Some 1; order_date := 1000;
              total_amount := 2498; o_status_id := 1 |}
           {| order_item_id := 1; oi_order_id := 1; oi_game_id := 1;
              quantity := 1; oi_price := 1999 |}
           Sample.sold); try reflexivity.
  - apply list_elem_of_here.
  - apply list_elem_of_here.
Defined.

Lemma delete_user_success_inv name s s' :
  delete_user None (Some "admin") name s =
    (Some {| status := 200;
             body := JMessage true "User deleted successfully." |}, s') →
  users (committed s') = filter (λ u, username u ≠ name) (users (committed s)).
Proof.
  unfold delete_user, serve, delete_user_handler, validateAdmin.
  rewrite bool_decide_eq_true_2 by done.
  unfold try_catch, bind, pool_request, delete_user_rows, console_error,
    res_json.
  destruct (bool_decide (Exists _ _)); [intros; simplify_eq|].
  destruct (length _ =? 0)%nat; intros; simplify_eq. done.
Qed.

Lemma removed_email_free (l : list User) u name :
  NoDup (email <$> l) → u ∈ l → username u = name →
  email u ∉ email <$> filter (λ v, username v ≠ name) l.
Proof.
  intros Hnd Hu Hn. induction l as [|x l IH]; [by inversion Hu|].
  rewrite fmap_cons, NoDup_cons in Hnd. destruct Hnd as [Hx Hnd].
  apply elem_of_cons in Hu as [->|Hu].
  - rewrite filter_cons, decide_False by (by intros ?).
    intros Hin. apply Hx.
    apply list_elem_of_fmap in Hin as (y & Hy & Hin).
    apply list_elem_of_filter in Hin as [_ Hin].
    rewrite Hy. by apply list_elem_of_fmap_2.
  - rewrite filter_cons. destruct (decide (username x ≠ name)).
    + rewrite fmap_cons, not_elem_of_cons. split; [|by apply IH].
      intros Heq. apply Hx. rewrite <- Heq. by apply list_elem_of_fmap_2.
    + by apply IH.
Qed.

(** X29. A deleted user cannot log in any more: after a successful
    deletion of the users named [name], a login with the email of one of
    them is answered "Invalid email or password." whatever the password
    and role, provided no user of another name has the same email (emails
    are unique in the schema); and that email can be registered again. *)
Theorem delete_user_then_login env env2 name u req sign s s' :
  delete_user None (Some "admin") name s =
    (Some {| status := 200;
             body := JMessage true "User deleted successfully." |}, s') →
  NoDup (email <$> users (committed s)) →
  u ∈ users (committed s) →
  username u = name →
  l_email req = Some (email u) →
  fault env SelectUser = None →
  register_complete sign = true →
  r_email sign = Some (email u) →
  fault env2 CheckEmail = None →
  fault env2 InsertUser = None →
  (login env req s').1 =
    Some {| status := 200; body := JMessage false "Invalid email or password." |} ∧
  (register env2 sign s').1 =
    Some {| status := 200; body := JMessage true "Registration successful." |}.
Proof.
  intros Hdel Hnd Hu Hn Hmail Hf Hc Hsign Hf1 Hf2.
  apply delete_user_success_inv in Hdel.
  assert (email u ∉ email <$> users (committed s')) as Hfree.
  { rewrite Hdel. by apply removed_email_free. }
  split.
  - rewrite (login_reply env req s' Hf), login_account_none; [done|].
    intros v Hv Heq. rewrite Hmail in Heq. simplify_eq.
    apply Hfree. rewrite <- Heq. by apply list_elem_of_fmap_2.
  - destruct (register_fresh env2 sign s') as (s2 & -> & _); try done.
    by rewrite Hsign.
Qed.

Lemma delete_user_then_login_witness :
  let s' := (delete_user None (Some "admin") "bob" Demo.crowd).2 in
  (login Sample.env (Sample.sign_in "customer" "bob@example.com" "hunter2")
     s').1 =
    Some {| status := 200; body := JMessage false "Invalid email or password." |} ∧
  (register Sample.env (Sample.sign_up "bob@example.com" "customer") s').1 =
    Some {| status := 200; body := JMessage true "Registration successful." |}.
Proof.
  intros s'.
  apply (delete_user_then_login Sample.env Sample.env "bob"
           {| user_id := 2; username := "bob"; email := "bob@example.com";
              password := "bcrypt:hunter2"; role_id := 1 |}
           (Sample.sign_in "customer" "bob@example.com" "hunter2")
           (Sample.sign_up "bob@example.com" "customer") Demo.crowd s');
    try reflexivity.
  - apply NoDup_cons. split; [|apply NoDup_singleton].
    rewrite list_elem_of_singleton. discriminate.
  - apply list_elem_of_further, list_elem_of_here.
Defined.
